(** * Terminal Jarvis: knowledge store, task automation and chat session

    A shallow embedding of the parts of the repository that its
    specification makes checkable statements about:

    - [jarvis/rag_system.py]: [TextChunker], [DocumentProcessor.process_file],
      [RAGSystem.add_document], [RAGSystem.add_text], [RAGSystem.search];
    - [deployment/jarvis/task_automation.py]: [TaskExecutor.add_to_path],
      [TaskExecutor.run_command], [TaskSolver._analyze_task],
      [TaskSolver._solve_python_setup_task];
    - [jarvis/enhanced_chat.py]: [_is_task_request],
      [_post_process_response], [get_enhanced_response];
    - [jarvis/chat.py]: [ChatSession.transcript_as_jsonl], together with the
      reading loop of [DesktopApp.load_conversation];

    and, around them, [RAGSystem.delete_document] and
    [get_context_for_query], the rest of [SystemInfo], [TaskExecutor] and
    [TaskSolver] ([get_environment_variables], [install_python_package],
    [create_virtual_environment], the four task resolvers and [solve_task]),
    [EnhancedChatSession.add_user], [_handle_task_request] and
    [EnhancedLocalLlm.stream_enhanced_chat].

    Conventions.  A Python [str] is a Rocq [string]; text outside ASCII is
    carried as its UTF-8 bytes, and the character classes used below
    ([isspace], [lower]) are the ASCII ones.  A Python [int] is a [Z].  A
    [dict] with string keys is a [gmap string _].  A call that can raise
    returns [pyexc + A]; [try]/[except Exception] is [try_except]. *)

From Stdlib Require Import ZArith QArith String Ascii List Lia Bool.
From stdpp Require Import base option list gmap strings pretty.

Local Open Scope string_scope.
Local Open Scope Z_scope.
Set Warnings "-register-all".

(** ** Python values, exceptions and the exception monad *)

Module Py.

(** Exceptions, by class name and [str(e)].  [subprocess.TimeoutExpired]
    is kept apart because the code has handlers of its own for it. *)
Inductive pyexc : Type :=
| TimeoutExpired (msg : string)
| ValueError (msg : string)
| KeyError (msg : string)
| IndexError (msg : string)
| TypeError (msg : string)
| OSError (msg : string)
| OtherError (cls : string) (msg : string).

Definition str_of_exc (e : pyexc) : string :=
  match e with
  | TimeoutExpired m | ValueError m | KeyError m | IndexError m
  | TypeError m | OSError m | OtherError _ m => m
  end.

Definition is_timeout (e : pyexc) : bool :=
  match e with TimeoutExpired _ => true | _ => false end.

(** Values stored in the dictionaries the code passes around. *)
Inductive pyval : Type :=
| PyNone
| PyBool (b : bool)
| PyInt (z : Z)
| PyFloat (q : Q)
| PyStr (s : string)
| PyList (l : list string)
| PyDict (d : gmap string pyval).

(** [d[k]] *)
Definition getitem (d : gmap string pyval) (k : string) : pyexc + pyval :=
  match d !! k with
  | Some v => inr v
  | None => inl (KeyError k)
  end.

(** [d[k]] used as a string. *)
Definition getstr (d : gmap string pyval) (k : string) : pyexc + string :=
  match d !! k with
  | Some (PyStr v) => inr v
  | Some _ => inl (TypeError k)
  | None => inl (KeyError k)
  end.

(** [str(v)], as an f-string prints a value; strings, integers, booleans
    and [None] are the values the code formats. *)
Definition format_val (v : pyval) : string :=
  match v with
  | PyStr s => s
  | PyInt z => pretty z
  | PyBool true => "True"
  | PyBool false => "False"
  | PyNone => "None"
  | _ => ""
  end.

(** Truth value of a value, as [if v:] tests it. *)
Definition truthy_val (v : pyval) : bool :=
  match v with
  | PyNone => false
  | PyBool b => b
  | PyInt z => negb (z =? 0)
  | PyFloat q => negb (Qeq_bool q 0)
  | PyStr s => match s with EmptyString => false | _ => true end
  | PyList l => match l with [] => false | _ => true end
  | PyDict d => negb (bool_decide (d = ∅))
  end.

Definition ret {A} (a : A) : pyexc + A := inr a.
Definition raise {A} (e : pyexc) : pyexc + A := inl e.
Definition bind {A B} (m : pyexc + A) (k : A -> pyexc + B) : pyexc + B :=
  match m with
  | inl e => inl e
  | inr a => k a
  end.
(** [try: body / except Exception as e: handler e] *)
Definition try_except {A} (body : pyexc + A) (handler : pyexc -> A) : A :=
  match body with
  | inl e => handler e
  | inr a => a
  end.

(** State and exceptions together: a call may change the world [S] and
    may raise; a raised exception keeps the world reached so far. *)
Definition M (S A : Type) : Type := S -> (pyexc + A) * S.

Section StateMonad.
Context {S : Type}.

Definition mret' {A} (a : A) : M S A := fun w => (inr a, w).
Definition mbind' {A B} (m : M S A) (k : A -> M S B) : M S B :=
  fun w => match m w with
           | (inl e, w') => (inl e, w')
           | (inr a, w') => k a w'
           end.
Definition lift {A} (m : pyexc + A) : M S A := fun w => (m, w).

(** [try: body / except Exception as e: handler e] *)
Definition try_exceptM {A} (body : M S A) (handler : pyexc -> M S A) : M S A :=
  fun w => match body w with
           | (inl e, w') => handler e w'
           | (inr a, w') => (inr a, w')
           end.
End StateMonad.

End Py.
Import Py.

Notation "'let*' x ':=' m 'in' k" := (Py.bind m (fun x => k))
  (at level 10, x pattern, m at level 100, k at level 200).
Notation "'let!' x ':=' m 'in' k" := (Py.mbind' m (fun x => k))
  (at level 10, x pattern, m at level 100, k at level 200).

(** ** The string operations of [str] the code relies on *)

Module PyStr.

Definition chr (n : nat) : ascii := ascii_of_nat n.
Definition dquote : ascii := chr 34.
Definition backslash : ascii := chr 92.
Definition LF : ascii := chr 10.
Definition CR : ascii := chr 13.
Definition nl : string := String LF "".

(** [c.isspace()] on ASCII: TAB..CR, FS..US and the blank. *)
Definition isspace (c : ascii) : bool :=
  let n := nat_of_ascii c in
  ((9 <=? n)%nat && (n <=? 13)%nat) || ((28 <=? n)%nat && (n <=? 32)%nat).

(** [c.lower()] on ASCII. *)
Definition lower_char (c : ascii) : ascii :=
  let n := nat_of_ascii c in
  if ((65 <=? n)%nat && (n <=? 90)%nat) then ascii_of_nat (n + 32) else c.

Fixpoint lower (s : string) : string :=
  match s with
  | EmptyString => EmptyString
  | String c r => String (lower_char c) (lower r)
  end.

(** [s.startswith(p)] *)
Fixpoint startswith (s p : string) : bool :=
  match p, s with
  | EmptyString, _ => true
  | String _ _, EmptyString => false
  | String a p', String b s' => if Ascii.eqb a b then startswith s' p' else false
  end.

(** [needle in hay] *)
Fixpoint contains (needle hay : string) : bool :=
  match hay with
  | EmptyString => startswith hay needle
  | String _ r => startswith hay needle || contains needle r
  end.

(** [any(k in s for k in keywords)] *)
Definition any_in (keywords : list string) (s : string) : bool :=
  existsb (fun k => contains k s) keywords.

(** [s.lstrip()], [s.rstrip()], [s.strip()] *)
Fixpoint lstrip (s : string) : string :=
  match s with
  | EmptyString => EmptyString
  | String c r => if isspace c then lstrip r else s
  end.

Fixpoint rstrip (s : string) : string :=
  match s with
  | EmptyString => EmptyString
  | String c r =>
      match rstrip r with
      | EmptyString => if isspace c then EmptyString else String c EmptyString
      | r' => String c r'
      end
  end.

Definition strip (s : string) : string := rstrip (lstrip s).

(** Truth value of a string: non-empty. *)
Definition truthy (s : string) : bool :=
  match s with EmptyString => false | _ => true end.

(** [s.split()]: maximal runs of non-space characters. [cur] is the word
    being read. *)
Fixpoint split_from (cur : string) (s : string) : list string :=
  match s with
  | EmptyString => if truthy cur then [cur] else []
  | String c r =>
      if isspace c
      then (if truthy cur then cur :: split_from "" r else split_from "" r)
      else split_from (cur +:+ String c "") r
  end.

Definition split (s : string) : list string := split_from "" s.

(** [sep.join(parts)] *)
Fixpoint join (sep : string) (parts : list string) : string :=
  match parts with
  | [] => ""
  | [p] => p
  | p :: rest => p +:+ sep +:+ join sep rest
  end.

(** Character classes of a whole string, used to state what [split]
    returns and when [strip] leaves something. *)
Fixpoint has_nonspace (s : string) : bool :=
  match s with
  | EmptyString => false
  | String c r => negb (isspace c) || has_nonspace r
  end.

Fixpoint all_nonspace (s : string) : bool :=
  match s with
  | EmptyString => true
  | String c r => negb (isspace c) && all_nonspace r
  end.

Definition is_word (w : string) : Prop :=
  truthy w = true /\ all_nonspace w = true.

(** [str(n)] for an index [n >= 0]. *)
Definition str_of_nat (n : nat) : string := pretty n.

End PyStr.
Import PyStr.

(** ** Built-in sequence operations *)

Module PySeq.

(** [range(start, stop, step)]; a zero step raises [ValueError]. *)
Definition range_len (start stop step : Z) : Z :=
  if 0 <? step then
    (if start <? stop then (stop - start - 1) / step + 1 else 0)
  else
    (if stop <? start then (start - stop - 1) / (- step) + 1 else 0).

Definition range (start stop step : Z) : pyexc + list Z :=
  if step =? 0 then raise (ValueError "range() arg 3 must not be zero")
  else ret (map (fun k => start + Z.of_nat k * step)
                (seq 0 (Z.to_nat (range_len start stop step)))).

(** Index normalisation of a slice bound against a length [n]. *)
Definition clamp (n i : Z) : Z :=
  if i <? 0 then Z.max (i + n) 0 else Z.min i n.

(** [l[lo:hi]] *)
Definition slice {A} (l : list A) (lo hi : Z) : list A :=
  let n := Z.of_nat (length l) in
  let lo' := clamp n lo in
  let hi' := clamp n hi in
  take (Z.to_nat (hi' - lo')) (drop (Z.to_nat lo') l).

Definition len {A} (l : list A) : Z := Z.of_nat (length l).

End PySeq.

(** ** [rag_system.TextChunker] *)

Module Chunker.

Record TextChunker := { chunk_size : Z; overlap : Z }.

(** [TextChunker.__init__]: both arguments are stored as given. *)
Definition init (chunk_size overlap : Z) : pyexc + TextChunker :=
  ret {| chunk_size := chunk_size; overlap := overlap |}.

Definition default : TextChunker := {| chunk_size := 1000; overlap := 200 |}.

Record chunk := { text : string; metadata : gmap string pyval }.

(** The keys [chunk_text] writes over a copy of the caller's metadata. *)
Definition chunk_metadata (md : gmap string pyval)
    (index size start_word end_word : Z) : gmap string pyval :=
  <["end_word" := PyInt end_word]>
    (<["start_word" := PyInt start_word]>
       (<["chunk_size" := PyInt size]>
          (<["chunk_index" := PyInt index]> md))).

(** One turn of the [for i in range(...)] loop. *)
Definition chunk_step (self : TextChunker) (words : list string)
    (md : gmap string pyval) (chunks : list chunk) (i : Z) : list chunk :=
  let chunk_words := PySeq.slice words i (i + chunk_size self) in
  let chunk_text := join " " chunk_words in
  if truthy (strip chunk_text) then
    chunks ++
      [ {| text := chunk_text;
           metadata := chunk_metadata md (PySeq.len chunks) (PySeq.len chunk_words)
                         i (Z.min (i + chunk_size self) (PySeq.len words)) |} ]
  else chunks.

Definition chunk_words_list (self : TextChunker) (words : list string)
    (md : gmap string pyval) : pyexc + list chunk :=
  let* idxs := PySeq.range 0 (PySeq.len words) (chunk_size self - overlap self) in
  ret (fold_left (chunk_step self words md) idxs []).

Definition chunk_text (self : TextChunker) (text : string)
    (md : gmap string pyval) : pyexc + list chunk :=
  chunk_words_list self (split text) md.

(** The chunk appended at position [idx] for window start [i]. *)
Definition mk_chunk (self : TextChunker) (words : list string)
    (md : gmap string pyval) (idx : nat) (i : Z) : chunk :=
  let chunk_words := PySeq.slice words i (i + chunk_size self) in
  {| text := join " " chunk_words;
     metadata := chunk_metadata md (Z.of_nat idx) (PySeq.len chunk_words)
                   i (Z.min (i + chunk_size self) (PySeq.len words)) |}.

(** Reading a chunk's word range back from its metadata. *)
Definition get_int (md : gmap string pyval) (k : string) : option Z :=
  match md !! k with Some (PyInt z) => Some z | _ => None end.

Definition covers (c : chunk) (j : Z) : Prop :=
  exists a b, get_int (metadata c) "start_word" = Some a /\
              get_int (metadata c) "end_word" = Some b /\ a <= j < b.

(** The count the specification gives: [ceil((N - O) / (S - O))], at least 1. *)
Definition ceil_div (a b : Z) : Z := - ((- a) / b).
Definition spec_chunk_count (N S O : Z) : Z := Z.max 1 (ceil_div (N - O) (S - O)).

End Chunker.

(** ** [rag_system.DocumentProcessor] and [rag_system.RAGSystem] *)

Module Rag.
Import Chunker.

Definition embedding := list Q.

(** *** Collaborators outside the repository *)

(** The text readers behind [extract_text_from_*] (PyPDF2, python-docx,
    BeautifulSoup, markdown, [open]); each may raise. *)
Inductive reader := PdfReader | DocxReader | HtmlReader | MarkdownReader | TxtReader.

Record FileSystem := {
  path_str : string -> string;               (* str(Path(p)) *)
  path_exists : string -> bool;              (* Path(p).exists() *)
  path_name : string -> string;              (* Path(p).name *)
  path_suffix : string -> string;            (* Path(p).suffix *)
  stat_size : string -> pyexc + Z;           (* Path(p).stat().st_size *)
  stat_modified : string -> pyexc + string;  (* isoformat of st_mtime *)
  read_text : reader -> string -> pyexc + string
}.

(** One search hit as [collection.query] reports it. *)
Record hit := {
  h_id : string; h_text : string;
  h_metadata : gmap string pyval; h_distance : Q
}.

(** The vector store's collection, as far as the code calls it.
    [coll_get c ids] is [c.get(ids=ids)["ids"]]. *)
Class Collection (C : Type) := {
  coll_get : C -> list string -> pyexc + list string;
  coll_add : C -> list string -> list embedding -> list string ->
             list (gmap string pyval) -> pyexc + C;
  coll_query : C -> embedding -> Z -> option (gmap string pyval) ->
               pyexc + list hit
}.

(** *** [DocumentProcessor] *)

(** Every [extract_text_from_*] catches whatever its reader raises and
    returns the empty string. *)
Definition extract_text (fs : FileSystem) (r : reader) (p : string) : string :=
  try_except (read_text fs r p) (fun _ => "").

Definition reader_for (ext : string) : option reader :=
  if String.eqb ext ".pdf" then Some PdfReader
  else if String.eqb ext ".docx" then Some DocxReader
  else if bool_decide (ext ∈ [".html"; ".htm"]) then Some HtmlReader
  else if bool_decide (ext ∈ [".md"; ".markdown"]) then Some MarkdownReader
  else if bool_decide (ext ∈ [".txt"; ".py"; ".js"; ".html"; ".css"; ".json";
                              ".yaml"; ".yml"]) then Some TxtReader
  else None.

Definition error_dict (msg : string) : gmap string pyval :=
  {[ "error" := PyStr msg ]}.

Definition process_file (fs : FileSystem) (file_path : string)
    : pyexc + gmap string pyval :=
  if negb (path_exists fs file_path) then ret (error_dict "File not found")
  else
    let* size := stat_size fs file_path in
    let* modified := stat_modified fs file_path in
    let file_info : gmap string pyval :=
      {[ "path" := PyStr (path_str fs file_path);
         "name" := PyStr (path_name fs file_path);
         "size" := PyInt size;
         "modified" := PyStr modified;
         "extension" := PyStr (lower (path_suffix fs file_path)) ]} in
    match reader_for (lower (path_suffix fs file_path)) with
    | None => ret (error_dict ("Unsupported file type: " +:+ path_suffix fs file_path))
    | Some r =>
        let text := extract_text fs r (path_str fs file_path) in
        if negb (truthy (strip text)) then ret (error_dict "No text content found")
        else ret (<["char_count" := PyInt (Z.of_nat (String.length text))]>
                    (<["word_count" := PyInt (PySeq.len (split text))]>
                       (<["text" := PyStr text]> file_info)))
    end.

(** *** [RAGSystem] *)

Record RAGSystem := {
  fs : FileSystem;
  chunker : TextChunker;
  md5_hex : string -> string;                      (* hashlib.md5(s.encode()).hexdigest() *)
  encode : list string -> pyexc + list embedding;  (* embedding_model.encode(..).tolist() *)
  now_iso : string                                 (* datetime.now().isoformat() *)
}.

(** The keys [add_text] writes into the metadata it is given. *)
Definition text_marks (self : RAGSystem) : gmap string pyval :=
  {[ "source" := PyStr "manual_input";
     "added_at" := PyStr (now_iso self);
     "type" := PyStr "text" ]}.

(** The mutable world of a call: the collection, and the dictionaries the
    caller shares with the callee, by address. *)
Record World (C : Type) := {
  collection : C;
  heap : gmap nat (gmap string pyval)
}.
Arguments collection {C} _.
Arguments heap {C} _.

Definition M (C A : Type) : Type := Py.M (World C) A.

Section Heap.
Context {C : Type}.

(** A fresh dictionary ([metadata = {}]). *)
Definition new_dict : M C nat :=
  fun w => let l := fresh (dom (heap w)) in
           (inr l, {| collection := collection w; heap := <[l := ∅]> (heap w) |}).

(** [d.update(upd)] on the dictionary at [l]. *)
Definition dict_update (l : nat) (upd : gmap string pyval) : M C unit :=
  fun w => match heap w !! l with
           | Some d => (inr tt, {| collection := collection w;
                                   heap := <[l := upd ∪ d]> (heap w) |})
           | None => (inl (OtherError "ReferenceError" "no such object"), w)
           end.

Definition dict_read (l : nat) : M C (gmap string pyval) :=
  fun w => match heap w !! l with
           | Some d => (inr d, w)
           | None => (inl (OtherError "ReferenceError" "no such object"), w)
           end.
End Heap.

Section Operations.
Context {C : Type} `{Collection C}.

Definition collection_get (ids : list string) : M C (list string) :=
  fun w => (coll_get (collection w) ids, w).

Definition collection_add (ids : list string) (embs : list embedding)
    (docs : list string) (mds : list (gmap string pyval)) : M C unit :=
  fun w => match coll_add (collection w) ids embs docs mds with
           | inl e => (inl e, w)
           | inr c' => (inr tt, {| collection := c'; heap := heap w |})
           end.

Definition collection_query (q : embedding) (n : Z)
    (where_ : option (gmap string pyval)) : M C (list hit) :=
  fun w => (coll_query (collection w) q n where_, w).

Definition failure (msg : pyval) : gmap string pyval :=
  {[ "success" := PyBool false; "error" := msg ]}.

(** [f"{doc_id}_chunk_{i}" for i in range(len(chunks))] *)
Definition chunk_ids (doc_id : string) (chunks : list chunk) : list string :=
  imap (fun i _ => doc_id +:+ "_chunk_" +:+ str_of_nat i) chunks.

Definition add_document (self : RAGSystem) (file_path : string)
    : M C (gmap string pyval) :=
  try_exceptM
    (let! doc_info := lift (process_file (fs self) file_path) in
     match doc_info !! "error" with
     | Some err => mret' (failure err)
     | None =>
         let doc_id := md5_hex self file_path in
         let! existing := collection_get [doc_id] in
         match existing with
         | _ :: _ =>
             mret' (failure (PyStr "Document already exists in knowledge base"))
         | [] =>
             let! text := lift (getstr doc_info "text") in
             let! chunks := lift (chunk_text (chunker self) text doc_info) in
             let chunk_texts := map Chunker.text chunks in
             let chunk_metadatas := map Chunker.metadata chunks in
             let! embeddings := lift (encode self chunk_texts) in
             let! _ := collection_add (chunk_ids doc_id chunks) embeddings
                    chunk_texts chunk_metadatas in
             mret' ({[ "success" := PyBool true;
                       "document_id" := PyStr doc_id;
                       "chunks_added" := PyInt (PySeq.len chunks);
                       "metadata" := PyDict doc_info ]} : gmap string pyval)
         end
     end)
    (fun e => mret' (failure (PyStr (str_of_exc e)))).

(** [metadata] is the address of the caller's dictionary, or [None]. *)
Definition add_text (self : RAGSystem) (text : string) (metadata : option nat)
    : M C (gmap string pyval) :=
  try_exceptM
    (let! md := match metadata with
           | None => new_dict
           | Some l => mret' l
           end in
     let! _ := dict_update md (text_marks self) in
     let text_id := md5_hex self text in
     let! d := dict_read md in
     let! chunks := lift (chunk_text (chunker self) text d) in
     let chunk_texts := map Chunker.text chunks in
     let chunk_metadatas := map Chunker.metadata chunks in
     let! embeddings := lift (encode self chunk_texts) in
     let! _ := collection_add (chunk_ids text_id chunks) embeddings
            chunk_texts chunk_metadatas in
     mret' ({[ "success" := PyBool true;
               "text_id" := PyStr text_id;
               "chunks_added" := PyInt (PySeq.len chunks) ]} : gmap string pyval))
    (fun e => mret' (failure (PyStr (str_of_exc e)))).

(** [encode([query]).tolist()[0]] *)
Definition first_embedding (embs : list embedding) : pyexc + embedding :=
  match embs with
  | e :: _ => inr e
  | [] => inl (IndexError "list index out of range")
  end.

Definition search (self : RAGSystem) (query : string) (n_results : Z)
    (filter_metadata : option (gmap string pyval)) : M C (list hit) :=
  try_exceptM
    (let! embs := lift (encode self [query]) in
     let! query_embedding := lift (first_embedding embs) in
     let! results := collection_query query_embedding n_results filter_metadata in
     mret' results)
    (fun _ => mret' []).

Definition context_part (h : hit) : string :=
  "Source: " +:+ format_val (from_option id (PyStr "Unknown") (h_metadata h !! "name"))
    +:+ nl +:+ h_text h.

Definition get_context_for_query (self : RAGSystem) (query : string)
    (max_chunks : Z) : M C string :=
  let! results := search self query max_chunks None in
  match results with
  | [] => mret' ""
  | _ => mret' (join (nl +:+ nl +:+ "---" +:+ nl +:+ nl) (map context_part results))
  end.
End Operations.

(** The dictionary a successful [add_document] returns. *)
Definition added (doc_id : string) (chunks : list chunk)
    (doc_info : gmap string pyval) : gmap string pyval :=
  {[ "success" := PyBool true;
     "document_id" := PyStr doc_id;
     "chunks_added" := PyInt (PySeq.len chunks);
     "metadata" := PyDict doc_info ]}.

(** The dictionary a successful [add_text] returns. *)
Definition text_added (text_id : string) (chunks : list chunk) : gmap string pyval :=
  {[ "success" := PyBool true;
     "text_id" := PyStr text_id;
     "chunks_added" := PyInt (PySeq.len chunks) ]}.

Section Outcomes.
Context {C : Type} `{Collection C}.

(** [add_document] went through: the file was read, no chunk set was
    found under the document id, the chunks were embedded and the
    collection took them. *)
Definition document_stored (rag : RAGSystem) (p : string) (w : World C)
    (r : gmap string pyval) (w' : World C) : Prop :=
  exists doc_info text chunks embs,
    process_file (fs rag) p = inr doc_info /\
    doc_info !! "error" = None /\
    coll_get (collection w) [md5_hex rag p] = inr [] /\
    getstr doc_info "text" = inr text /\
    chunk_text (chunker rag) text doc_info = inr chunks /\
    encode rag (map Chunker.text chunks) = inr embs /\
    coll_add (collection w) (chunk_ids (md5_hex rag p) chunks) embs
      (map Chunker.text chunks) (map Chunker.metadata chunks)
      = inr (collection w') /\
    heap w' = heap w /\
    r = added (md5_hex rag p) chunks doc_info.

(** [add_text] went through, with [d] the caller's metadata after the
    update. *)
Definition text_stored (rag : RAGSystem) (text : string)
    (d : gmap string pyval) (w : World C)
    (r : gmap string pyval) (w' : World C) : Prop :=
  exists chunks embs,
    chunk_text (chunker rag) text d = inr chunks /\
    encode rag (map Chunker.text chunks) = inr embs /\
    coll_add (collection w) (chunk_ids (md5_hex rag text) chunks) embs
      (map Chunker.text chunks) (map Chunker.metadata chunks)
      = inr (collection w') /\
    r = text_added (md5_hex rag text) chunks.

(** The result says so: [{success: False, error: <message>}]. *)
Definition reported_failure (r : gmap string pyval) : Prop :=
  exists m, r = failure (PyStr m).

(** Something went wrong while searching: the embedding model raised or
    returned nothing, or the collection's query raised. *)
Definition search_failed (rag : RAGSystem) (q : string) (n : Z)
    (f : option (gmap string pyval)) (w : World C) : Prop :=
  (exists e, encode rag [q] = inl e) \/
  encode rag [q] = inr [] \/
  (exists emb rest e, encode rag [q] = inr (emb :: rest) /\
                      coll_query (collection w) emb n f = inl e).
End Outcomes.

(** *** An in-memory collection

    Entries keyed by id.  [get] returns the asked ids that are stored;
    [add] refuses an empty or inconsistent batch and skips an id that is
    already stored, which is what the persistent chromadb client's [add]
    does (its [upsert] is the call that overwrites); [query] ranks by a
    squared euclidean distance. *)
Record entry := {
  e_embedding : embedding; e_document : string;
  e_metadata : gmap string pyval
}.

Definition MapColl := gmap string entry.

Definition insert_new (c : gmap string entry) (item : string * entry)
    : gmap string entry :=
  match c !! item.1 with
  | Some _ => c
  | None => <[item.1 := item.2]> c
  end.

Fixpoint zip_entries (ids : list string) (embs : list embedding)
    (docs : list string) (mds : list (gmap string pyval))
    : list (string * entry) :=
  match ids, embs, docs, mds with
  | i :: ids', e :: embs', d :: docs', m :: mds' =>
      (i, {| e_embedding := e; e_document := d; e_metadata := m |})
        :: zip_entries ids' embs' docs' mds'
  | _, _, _, _ => []
  end.

Definition map_add (c : gmap string entry) (ids : list string)
    (embs : list embedding) (docs : list string)
    (mds : list (gmap string pyval)) : pyexc + gmap string entry :=
  match ids with
  | [] => raise (ValueError "Expected IDs to be a non-empty list")
  | _ =>
      if negb (bool_decide (List.length embs = List.length ids /\
                            List.length docs = List.length ids /\
                            List.length mds = List.length ids))
      then raise (ValueError "Inconsistent batch lengths")
      else if negb (bool_decide (NoDup ids))
      then raise (OtherError "DuplicateIDError" "Expected IDs to be unique")
      else ret (fold_left insert_new (zip_entries ids embs docs mds) c)
  end.

Fixpoint sq_dist (a b : embedding) : Q :=
  match a, b with
  | x :: a', y :: b' => ((x - y) * (x - y) + sq_dist a' b')%Q
  | _, _ => 0%Q
  end.

Fixpoint insert_hit (h : hit) (l : list hit) : list hit :=
  match l with
  | [] => [h]
  | h' :: r => if Qle_bool (h_distance h) (h_distance h') then h :: l
               else h' :: insert_hit h r
  end.

(** Equality of the scalar values a [where] filter may hold. *)
Definition scalar_eqb (a b : pyval) : bool :=
  match a, b with
  | PyBool x, PyBool y => Bool.eqb x y
  | PyInt x, PyInt y => Z.eqb x y
  | PyFloat x, PyFloat y => Qeq_bool x y
  | PyStr x, PyStr y => String.eqb x y
  | _, _ => false
  end.

Definition matches_filter (where_ : option (gmap string pyval)) (e : entry) : bool :=
  match where_ with
  | None => true
  | Some f =>
      forallb (fun '(k, v) => match e_metadata e !! k with
                              | Some v' => scalar_eqb v v'
                              | None => false
                              end)
              (map_to_list f)
  end.

Definition map_query (c : gmap string entry) (q : embedding) (n : Z)
    (where_ : option (gmap string pyval)) : pyexc + list hit :=
  ret (take (Z.to_nat n)
         (foldr insert_hit []
            (omap (fun '(i, e) =>
                     if matches_filter where_ e
                     then Some {| h_id := i; h_text := e_document e;
                                  h_metadata := e_metadata e;
                                  h_distance := sq_dist q (e_embedding e) |}
                     else None)
                  (map_to_list c)))).

#[global] Instance MapColl_Collection : Collection (gmap string entry) := {
  coll_get c ids := ret (filter (fun i => is_Some (c !! i)) ids);
  coll_add := map_add;
  coll_query := map_query
}.

End Rag.

(** ** Concrete collaborators for the examples *)

Module Demo.
Import Rag.

(** A file system holding one text file, [notes.txt], with two words. *)
Definition demo_fs : FileSystem := {|
  path_str p := p;
  path_exists p := String.eqb p "notes.txt";
  path_name p := p;
  path_suffix p := ".txt";
  stat_size p := inr 11;
  stat_modified p := inr "2024-05-01T10:00:00";
  read_text r p := if String.eqb p "notes.txt" then inr "hello world"
                   else inl (OSError "No such file or directory")
|}.

(** The two digests the examples need. *)
Definition demo_md5 (s : string) : string :=
  if String.eqb s "notes.txt" then "a5d5286f1e67b6cd6876223e53f999c4"
  else if String.eqb s "hello world" then "5eb63bbbe01eeed093cb22bb8f5acdc3"
  else "d41d8cd98f00b204e9800998ecf8427e".

Definition demo_rag : RAGSystem := {|
  fs := demo_fs;
  chunker := Chunker.default;
  md5_hex := demo_md5;
  encode texts := inr (map (fun t => [inject_Z (Z.of_nat (String.length t))]) texts);
  now_iso := "2024-05-01T10:00:00"
|}.

(** The same system with an embedding model that fails. *)
Definition broken_rag : RAGSystem := {|
  fs := demo_fs;
  chunker := Chunker.default;
  md5_hex := demo_md5;
  encode texts := inl (OtherError "RuntimeError" "embedding model unavailable");
  now_iso := "2024-05-01T10:00:00"
|}.

Definition empty_world : World (gmap string entry) :=
  {| collection := ∅; heap := ∅ |}.

(** A caller that passes its own metadata dictionary, stored at address 0,
    as the repository's test script does. *)
Definition caller_metadata : gmap string pyval :=
  {[ "source" := PyStr "test"; "type" := PyStr "sample" ]}.

Definition caller_world : World (gmap string entry) :=
  {| collection := ∅; heap := {[ 0%nat := caller_metadata ]} |}.

End Demo.

(** ** [task_automation]: [SystemInfo], [TaskExecutor], [TaskSolver] *)

Module TaskAutomation.

(** What [subprocess.run(..., capture_output=True, text=True)] returns. *)
Record CompletedProcess := { returncode : Z; stdout : string; stderr : string }.

(** A command line: one string for the shell, or an argument vector. *)
Inductive command := Shell (s : string) | Argv (l : list string).

(** One entry of [get_python_installations]. *)
Record installation := { path : string; version : string; executable : string }.

(** The operating system as the module calls it, over a world [W]. *)
Class Host (W : Type) := {
  is_windows : bool;                                   (* platform.system() == "Windows" *)
  subprocess_run : command -> bool -> option Z -> M W CompletedProcess;
  glob : string -> M W (list string);                  (* glob.glob(pattern) *)
  path_resolve : string -> M W string;                 (* str(Path(p).resolve()) *)
  os_path_exists : string -> W -> bool;
  os_path_isfile : string -> W -> bool;
  os_path_dirname : string -> string;
  os_path_join : string -> string -> string;
  environ_get : string -> W -> option string;          (* os.environ.get(k) *)
  environ_set : string -> string -> W -> W;            (* os.environ[k] = v *)
  home_dir : W -> string;                              (* os.path.expanduser("~") *)
  append_text : string -> string -> M W unit           (* open(p, "a").write(s) *)
}.

Section Executor.
Context {W : Type} `{Host W}.

Definition failure (msg : string) : gmap string pyval :=
  {[ "success" := PyBool false; "error" := PyStr msg ]}.

Definition succeeded (msg : string) : gmap string pyval :=
  {[ "success" := PyBool true; "message" := PyStr msg ]}.

(** A result dictionary that carries the [success] flag. *)
Definition has_success (d : gmap string pyval) : Prop :=
  exists b, d !! "success" = Some (PyBool b).

Definition read {A} (f : W -> A) : M W A := fun w => (inr (f w), w).
Definition write (f : W -> W) : M W unit := fun w => (inr tt, f w).

(** *** [SystemInfo.get_python_installations] *)

Definition common_paths : list string :=
  [ "C:\Python*";
    "C:\Program Files\Python*";
    "C:\Program Files (x86)\Python*";
    "C:\Users\*\AppData\Local\Programs\Python\Python*";
    "C:\Users\*\AppData\Local\Microsoft\WindowsApps\python*.exe" ].

(** The inner [try]: ask the interpreter for its version; anything
    raised is dropped. *)
Definition probe (p : string) : M W (list installation) :=
  try_exceptM
    (let! result := subprocess_run (Argv [p; "--version"]) false (Some 5) in
     if returncode result =? 0
     then mret' [ {| path := p; version := strip (stdout result); executable := p |} ]
     else mret' [])
    (fun _ => mret' []).

Fixpoint probe_all (paths : list string) : M W (list installation) :=
  match paths with
  | [] => mret' []
  | p :: rest =>
      let! isfile := read (os_path_isfile p) in
      let! found := (if isfile && contains "python" (lower p)
                     then probe p else mret' []) in
      let! more := probe_all rest in
      mret' (found ++ more)%list
  end.

Definition scan_pattern (pattern : string) : M W (list installation) :=
  try_exceptM
    (let! paths := glob pattern in probe_all paths)
    (fun _ => mret' []).

Fixpoint scan_patterns (patterns : list string) : M W (list installation) :=
  match patterns with
  | [] => mret' []
  | pat :: rest =>
      let! found := scan_pattern pat in
      let! more := scan_patterns rest in
      mret' (found ++ more)%list
  end.

Definition get_python_installations : M W (list installation) :=
  scan_patterns common_paths.

(** *** [TaskExecutor] *)

Definition _add_to_path_windows (path_to_add : string) (permanent : bool)
    : M W (gmap string pyval) :=
  try_exceptM
    (if permanent then
       let! result :=
         subprocess_run
           (Argv [ "powershell"; "-Command";
                   "[Environment]::SetEnvironmentVariable('PATH', $env:PATH + ';"
                     +:+ path_to_add +:+ "', 'Machine')" ])
           true None in
       if returncode result =? 0
       then mret' (succeeded ("Added " +:+ path_to_add +:+ " to system PATH"))
       else mret' (failure ("Failed to add to system PATH: " +:+ stderr result))
     else
       let! old := read (environ_get "PATH") in
       let! _ := write (environ_set "PATH"
                          (from_option id "" old +:+ ";" +:+ path_to_add)) in
       mret' (succeeded ("Added " +:+ path_to_add +:+ " to current session PATH")))
    (fun e => mret' (failure ("Windows PATH error: " +:+ str_of_exc e))).

Definition _add_to_path_unix (path_to_add : string) (permanent : bool)
    : M W (gmap string pyval) :=
  try_exceptM
    (if permanent then
       let! home := read home_dir in
       let bashrc := os_path_join home ".bashrc" in
       let! has_bashrc := read (os_path_exists bashrc) in
       let shell_profile :=
         if has_bashrc then bashrc else os_path_join home ".zshrc" in
       let path_line :=
         "export PATH=" +:+ String dquote ("$PATH:" +:+ path_to_add)
           +:+ String dquote "" in
       let! _ := append_text shell_profile
                   (nl +:+ "# Added by Terminal Jarvis" +:+ nl +:+ path_line +:+ nl) in
       mret' (succeeded ("Added " +:+ path_to_add +:+ " to " +:+ shell_profile))
     else
       let! old := read (environ_get "PATH") in
       let! _ := write (environ_set "PATH"
                          (from_option id "" old +:+ ":" +:+ path_to_add)) in
       mret' (succeeded ("Added " +:+ path_to_add +:+ " to current session PATH")))
    (fun e => mret' (failure ("Unix PATH error: " +:+ str_of_exc e))).

Definition add_to_path (path_to_add : string) (permanent : bool)
    : M W (gmap string pyval) :=
  try_exceptM
    (let! path_to_add := path_resolve path_to_add in
     let! present := read (os_path_exists path_to_add) in
     if negb present
     then mret' (failure ("Path does not exist: " +:+ path_to_add))
     else
       let! current_path := read (environ_get "PATH") in
       if contains path_to_add (from_option id "" current_path)
       then mret' ({[ "success" := PyBool true;
                      "message" := PyStr "Path already in PATH";
                      "already_exists" := PyBool true ]} : gmap string pyval)
       else if is_windows
       then _add_to_path_windows path_to_add permanent
       else _add_to_path_unix path_to_add permanent)
    (fun e => mret' (failure (str_of_exc e))).

Definition run_command (command : string) (shell : bool) (timeout : Z)
    : M W (gmap string pyval) :=
  try_exceptM
    (let! result := subprocess_run (Shell command) shell (Some timeout) in
     mret' ({[ "success" := PyBool (returncode result =? 0);
               "returncode" := PyInt (returncode result);
               "stdout" := PyStr (stdout result);
               "stderr" := PyStr (stderr result) ]} : gmap string pyval))
    (fun e =>
       if is_timeout e
       then mret' ({[ "success" := PyBool false;
                      "error" := PyStr "Command timed out";
                      "timeout" := PyBool true ]} : gmap string pyval)
       else mret' (failure (str_of_exc e))).

(** *** [TaskSolver] *)

Definition analysis (task_type : string) (confidence : Q) : gmap string pyval :=
  {[ "task_type" := PyStr task_type; "confidence" := PyFloat confidence ]}.

Definition path_keywords : list string :=
  ["add to path"; "path"; "environment variable"; "env"].
Definition python_keywords : list string :=
  ["python"; "pip"; "virtual environment"; "venv"].
Definition package_keywords : list string :=
  ["install"; "package"; "pip install"].
Definition command_keywords : list string :=
  ["run"; "execute"; "command"; "cmd"; "powershell"].

Definition _analyze_task (task_description context : string) : gmap string pyval :=
  let task_lower := lower task_description in
  if any_in path_keywords task_lower then analysis "path_addition" (9 # 10)
  else if any_in python_keywords task_lower then analysis "python_setup" (8 # 10)
  else if any_in package_keywords task_lower then analysis "package_installation" (8 # 10)
  else if any_in command_keywords task_lower then analysis "system_command" (7 # 10)
  else analysis "unknown" 0.

(** One turn of the loop that looks for the best interpreter. *)
Definition better (best py_install : installation) : installation :=
  if contains "python" (lower (path py_install))
     && contains "python" (lower (path best))
     && String.ltb (version best) (version py_install)
  then py_install else best.

Definition _solve_python_setup_task (task_description context : string)
    : M W (gmap string pyval) :=
  let! python_installations := get_python_installations in
  match python_installations with
  | [] =>
      mret' ({[ "success" := PyBool false;
                "error" := PyStr "No Python installations found";
                "suggestions" := PyList ["Please install Python first";
                                         "Download from python.org"] ]}
             : gmap string pyval)
  | first :: _ =>
      let best_python := fold_left better python_installations first in
      let python_dir := os_path_dirname (path best_python) in
      let! path_result := add_to_path python_dir true in
      let scripts_dir := os_path_join python_dir "Scripts" in
      let! has_scripts := read (os_path_exists scripts_dir) in
      let! scripts_result :=
        (if has_scripts then add_to_path scripts_dir true else mret' ∅) in
      let! path_added := lift (getitem path_result "success") in
      mret' ({[ "success" := PyBool true;
                "task_solved" := PyBool true;
                "action_taken" := PyStr ("Configured Python " +:+ version best_python
                                         +:+ " and added to PATH");
                "python_path" := PyStr (path best_python);
                "python_version" := PyStr (version best_python);
                "path_added" := path_added ]} : gmap string pyval)
  end.

(** The classification as the specification words it: the keyword sets
    in priority order, each with its type and confidence; the first set
    with a keyword occurring in the lower-cased text wins. *)
Definition priority_table : list (string * list string * Q) :=
  [ ("path_addition", path_keywords, 9 # 10);
    ("python_setup", python_keywords, 8 # 10);
    ("package_installation", package_keywords, 8 # 10);
    ("system_command", command_keywords, 7 # 10) ].

Definition classify_by_priority (task_text : string) : gmap string pyval :=
  match find (fun '(_, keywords, _) => any_in keywords (lower task_text))
             priority_table with
  | Some (task_type, _, confidence) => analysis task_type confidence
  | None => analysis "unknown" 0
  end.
End Executor.

End TaskAutomation.

(** ** A concrete host for the examples *)

Module DemoHost.
Import TaskAutomation.

(** A Windows machine with one interpreter, [C:\Python39\python.exe],
    whose directory cannot be resolved to an existing path by
    [add_to_path], and a shell that knows [echo hello]. The world is the
    value of [PATH]. *)
Definition python_exe : string := "C:\Python39\python.exe".

#[global] Instance demo_host : Host string := {
  is_windows := true;
  subprocess_run cmd shell timeout := fun w =>
    match cmd with
    | Argv [p; "--version"] =>
        if String.eqb p python_exe
        then (inr {| returncode := 0; stdout := "Python 3.9.1" +:+ nl; stderr := "" |}, w)
        else (inl (OSError "No such file or directory"), w)
    | Shell "echo hello" =>
        (inr {| returncode := 0; stdout := "hello" +:+ nl; stderr := "" |}, w)
    | Shell "sleep 60" => (inl (TimeoutExpired "timed out after 30 seconds"), w)
    | Shell _ => (inr {| returncode := 1; stdout := ""; stderr := "not found" |}, w)
    | Argv _ => (inl (OSError "No such file or directory"), w)
    end;
  glob pattern := fun w =>
    (inr (if String.eqb pattern "C:\Python*" then [python_exe] else []), w);
  path_resolve p := fun w => (inr p, w);
  os_path_exists p := fun w => false;
  os_path_isfile p := fun w => String.eqb p python_exe;
  os_path_dirname p := "C:\Python39";
  os_path_join a b := a +:+ "\" +:+ b;
  environ_get k := fun w => if String.eqb k "PATH" then Some w else None;
  environ_set k v := fun w => if String.eqb k "PATH" then v else w;
  home_dir := fun w => "C:\Users\demo";
  append_text p s := fun w => (inl (OSError "Permission denied"), w)
}.

End DemoHost.

Module DemoHostFacts.
Import TaskAutomation DemoHost.

(** The interpreter the example host reports. *)
Definition python39 : installation :=
  {| path := python_exe; version := "Python 3.9.1"; executable := python_exe |}.

End DemoHostFacts.

(** ** [json.dumps] and [json.loads] on flat objects of strings *)

Module Json.

Definition quote (s : string) : string := String dquote s.

(** Lower-case hexadecimal digit of [n < 16]. *)
Definition hex_digit (n : nat) : ascii :=
  if (n <? 10)%nat then chr (48 + n) else chr (87 + n).

(** The encoder's escape table with [ensure_ascii=False]: the quote, the
    backslash and the control characters below U+0020; every other
    character is written as it is. *)
Definition escape_char (c : ascii) : string :=
  let n := nat_of_ascii c in
  if (n =? 34)%nat then String backslash (quote "")
  else if (n =? 92)%nat then String backslash (String backslash "")
  else if (n =? 8)%nat then "\b"
  else if (n =? 12)%nat then "\f"
  else if (n =? 10)%nat then "\n"
  else if (n =? 13)%nat then "\r"
  else if (n =? 9)%nat then "\t"
  else if (n <? 32)%nat
  then "\u00" +:+ String (hex_digit (n / 16)) (String (hex_digit (n mod 16)) "")
  else String c "".

Fixpoint escape (s : string) : string :=
  match s with
  | EmptyString => EmptyString
  | String c r => escape_char c +:+ escape r
  end.

(** [json.dumps(s, ensure_ascii=False)] for a string. *)
Definition dumps_str (s : string) : string := quote (escape s +:+ quote "").

(** [json.dumps(d, ensure_ascii=False)] for a dictionary given by its
    items in insertion order, all values strings. *)
Definition dumps_item (kv : string * string) : string :=
  dumps_str kv.1 +:+ ": " +:+ dumps_str kv.2.

Definition dumps_object (items : list (string * string)) : string :=
  "{" +:+ join ", " (map dumps_item items) +:+ "}".

(** No control character (below U+0020), so in particular no line end. *)
Fixpoint no_control (s : string) : bool :=
  match s with
  | EmptyString => true
  | String c r => (32 <=? nat_of_ascii c)%nat && no_control r
  end.

(** A dictionary filled item by item; a later equal key overrides. *)
Definition put (acc : gmap string string) (kv : string * string) : gmap string string :=
  <[kv.1 := kv.2]> acc.

(** *** Decoding *)

Definition hex_val (c : ascii) : option nat :=
  let n := nat_of_ascii c in
  if ((48 <=? n) && (n <=? 57))%nat then Some (n - 48)%nat
  else if ((97 <=? n) && (n <=? 102))%nat then Some (n - 87)%nat
  else if ((65 <=? n) && (n <=? 70))%nat then Some (n - 55)%nat
  else None.

Definition hex4 (a b c d : ascii) : option nat :=
  match hex_val a, hex_val b, hex_val c, hex_val d with
  | Some x, Some y, Some z, Some t => Some (((x * 16 + y) * 16 + z) * 16 + t)%nat
  | _, _, _, _ => None
  end.

(** UTF-8 bytes of a code point below U+10000 (one [\uXXXX] escape;
    escapes in the surrogate range are not paired up). *)
Definition utf8 (cp : nat) : string :=
  if (cp <? 128)%nat then String (chr cp) ""
  else if (cp <? 2048)%nat
  then String (chr (192 + cp / 64)) (String (chr (128 + cp mod 64)) "")
  else String (chr (224 + cp / 4096))
         (String (chr (128 + (cp / 64) mod 64))
            (String (chr (128 + cp mod 64)) "")).

(** The character a two-character escape stands for. *)
Definition simple_escape (e : ascii) : option ascii :=
  let n := nat_of_ascii e in
  if (n =? 34)%nat then Some dquote
  else if (n =? 92)%nat then Some backslash
  else if (n =? 47)%nat then Some (chr 47)
  else if (n =? 98)%nat then Some (chr 8)
  else if (n =? 102)%nat then Some (chr 12)
  else if (n =? 110)%nat then Some LF
  else if (n =? 114)%nat then Some CR
  else if (n =? 116)%nat then Some (chr 9)
  else None.

(** The decoder's [scanstring], entered after the opening quote: the
    decoded string and the text after the closing quote.  Raw control
    characters are refused (strict mode). *)
Fixpoint scan_string (s : string) : option (string * string) :=
  match s with
  | EmptyString => None
  | String c r =>
      if Ascii.eqb c dquote then Some (EmptyString, r)
      else if Ascii.eqb c backslash then
        match r with
        | EmptyString => None
        | String e r' =>
            match simple_escape e with
            | Some x =>
                match scan_string r' with
                | Some (v, rest) => Some (String x v, rest)
                | None => None
                end
            | None =>
                if Ascii.eqb e "u" then
                  match r' with
                  | String h1 (String h2 (String h3 (String h4 r''))) =>
                      match hex4 h1 h2 h3 h4, scan_string r'' with
                      | Some cp, Some (v, rest) => Some (utf8 cp +:+ v, rest)
                      | _, _ => None
                      end
                  | _ => None
                  end
                else None
            end
        end
      else if (nat_of_ascii c <? 32)%nat then None
      else match scan_string r with
           | Some (v, rest) => Some (String c v, rest)
           | None => None
           end
  end.

(** JSON white space: blank, TAB, LF, CR. *)
Definition is_ws (c : ascii) : bool :=
  let n := nat_of_ascii c in
  (n =? 32)%nat || (n =? 9)%nat || (n =? 10)%nat || (n =? 13)%nat.

Fixpoint skip_ws (s : string) : string :=
  match s with
  | EmptyString => EmptyString
  | String c r => if is_ws c then skip_ws r else s
  end.

(** The members of an object, entered at the opening quote of a key;
    a later key overrides an earlier equal one.  Values other than
    strings are outside this model and give [None]. *)
Fixpoint parse_members (fuel : nat) (s : string) (acc : gmap string string)
    : option (gmap string string * string) :=
  match fuel with
  | O => None
  | S fuel' =>
      match s with
      | String q r =>
          if Ascii.eqb q dquote then
            match scan_string r with
            | Some (k, r1) =>
                match skip_ws r1 with
                | String colon r2 =>
                    if Ascii.eqb colon ":" then
                      match skip_ws r2 with
                      | String q' r3 =>
                          if Ascii.eqb q' dquote then
                            match scan_string r3 with
                            | Some (v, r4) =>
                                match skip_ws r4 with
                                | String sep r5 =>
                                    if Ascii.eqb sep "," then
                                      parse_members fuel' (skip_ws r5) (<[k := v]> acc)
                                    else if Ascii.eqb sep "}" then
                                      Some (<[k := v]> acc, r5)
                                    else None
                                | EmptyString => None
                                end
                            | None => None
                            end
                          else None
                      | EmptyString => None
                      end
                    else None
                | EmptyString => None
                end
            | None => None
            end
          else None
      | EmptyString => None
      end
  end.

Definition parse_object (s : string) : option (gmap string string * string) :=
  match s with
  | String brace r =>
      if Ascii.eqb brace "{" then
        match skip_ws r with
        | String c r' =>
            if Ascii.eqb c "}" then Some (∅, r')
            else parse_members (String.length (String c r')) (String c r') ∅
        | EmptyString => None
        end
      else None
  | EmptyString => None
  end.

(** [json.loads(s)] for a flat object of strings; [None] stands for
    [JSONDecodeError] (and for documents outside this model). *)
Definition loads (s : string) : option (gmap string string) :=
  match parse_object (skip_ws s) with
  | Some (obj, rest) =>
      match skip_ws rest with
      | EmptyString => Some obj
      | _ => None
      end
  | None => None
  end.

End Json.

(** ** [chat.ChatSession] and the transcript file *)

Module Chat.

(** [Message = Dict[str, str]] with the keys [role] and [content], in
    that order. *)
Record message := { role : string; content : string }.

Definition items (m : message) : list (string * string) :=
  [("role", role m); ("content", content m)].

Definition as_dict (m : message) : gmap string string :=
  {[ "role" := role m; "content" := content m ]}.

Definition add_user (messages : list message) (content : string) : list message :=
  (messages ++ [ {| role := "user"; content := content |} ])%list.

Definition add_assistant (messages : list message) (content : string) : list message :=
  (messages ++ [ {| role := "assistant"; content := content |} ])%list.

Definition dumps (m : message) : string := Json.dumps_object (items m).

Definition transcript_as_jsonl (messages : list message) : string :=
  join nl (map dumps messages) +:+ nl.

(** *** The file *)

(** Text-mode output writes [os.linesep] for every line feed. *)
Inductive linesep := PosixNewline | WindowsNewline.

Fixpoint write_text (sep : linesep) (s : string) : string :=
  match s with
  | EmptyString => EmptyString
  | String c r =>
      if Ascii.eqb c LF
      then match sep with
           | PosixNewline => String LF (write_text sep r)
           | WindowsNewline => String CR (String LF (write_text sep r))
           end
      else String c (write_text sep r)
  end.

(** [ChatSession.save]: what ends up in the file. *)
Definition save (sep : linesep) (messages : list message) : string :=
  write_text sep (transcript_as_jsonl messages).

(** [f.readlines()] in text mode: [LF], [CR] and [CR LF] all end a line
    and are handed over as [LF]. [cur] is the line being read. *)
Fixpoint readlines_from (cur : string) (s : string) : list string :=
  match s with
  | EmptyString => if truthy cur then [cur] else []
  | String c r =>
      if Ascii.eqb c LF then (cur +:+ nl) :: readlines_from "" r
      else if Ascii.eqb c CR then
        match r with
        | String c2 r2 =>
            if Ascii.eqb c2 LF then (cur +:+ nl) :: readlines_from "" r2
            else (cur +:+ nl) :: readlines_from "" r
        | EmptyString => [cur +:+ nl]
        end
      else readlines_from (cur +:+ String c "") r
  end.

Definition readlines (s : string) : list string := readlines_from "" s.

(** The reading loop of [DesktopApp.load_conversation]: blank lines are
    skipped, every other line is decoded; the first line that does not
    decode ends the loop with an error ([None]). *)
Fixpoint parse_lines (lines : list string) : option (list (gmap string string)) :=
  match lines with
  | [] => Some []
  | line :: rest =>
      if truthy (strip line) then
        match Json.loads (strip line), parse_lines rest with
        | Some m, Some ms => Some (m :: ms)
        | _, _ => None
        end
      else parse_lines rest
  end.

(** What the loop shows: [(content, role)] for the roles [user] and
    [assistant], nothing for any other role. *)
Definition shown (m : gmap string string) : list (string * string) :=
  if bool_decide (m !! "role" = Some "user")
  then [(from_option id "" (m !! "content"), "user")]
  else if bool_decide (m !! "role" = Some "assistant")
  then [(from_option id "" (m !! "content"), "assistant")]
  else [].

(** The messages the loop shows again. *)
Definition visible (m : message) : bool :=
  String.eqb (role m) "user" || String.eqb (role m) "assistant".

Definition load_conversation (file : string) : option (list (string * string)) :=
  match parse_lines (readlines file) with
  | Some ms => Some (concat (map shown ms))
  | None => None
  end.

(** The transcript as the specification words it: one JSON object per
    message, each followed by a line feed. *)
Definition one_object_per_line (messages : list message) : string :=
  fold_right (fun m rest => dumps m +:+ nl +:+ rest) "" messages.

End Chat.

(** ** [enhanced_chat.EnhancedChatSession] *)

Module EnhancedChat.

(** The objects the session is given: the knowledge base and the task
    solver of its constructor (either may be [None]) and the language
    model of [get_enhanced_response], over the world [S] they act on. *)
Class Collaborators (S : Type) := {
  rag_system : option (string -> Z -> M S string);           (* .get_context_for_query *)
  task_solver : option (string -> M S (gmap string pyval));  (* .solve_task *)
  stream_chat : list Chat.message -> Z -> Q -> M S (list string);
  now_iso : S -> string                                      (* datetime.now().isoformat() *)
}.

(** [conversation_context], as far as the code below reads or writes it. *)
Record ConversationContext := {
  current_topic : option string;
  completed_tasks : list (string * gmap string pyval * string)
}.

Record World (S : Type) := { context : ConversationContext; outside : S }.
Arguments context {S} _.
Arguments outside {S} _.

Definition task_keywords : list string :=
  [ "add to path"; "install"; "run command"; "execute"; "setup python";
    "create virtual environment"; "install package"; "configure";
    "set up"; "fix"; "solve"; "do this"; "help me with" ].

Definition _is_task_request (message : string) : bool :=
  any_in task_keywords (lower message).

Definition kb_note : string :=
  nl +:+ nl +:+
  "*This response was enhanced with information from the knowledge base.*".

Definition task_hint : string :=
  nl +:+ nl +:+
  "*I can help automate tasks like adding to PATH, installing packages, or running commands. Just ask!*".

Section Session.
Context {S : Type} `{Collaborators S}.

Definition knowledge_base_enabled : bool :=
  match rag_system with Some _ => true | None => false end.

Definition task_automation_enabled : bool :=
  match task_solver with Some _ => true | None => false end.

(** A collaborator's call, acting on its part of the world. *)
Definition outer {A} (m : M S A) : M (World S) A :=
  fun w => let '(r, s') := m (outside w) in
           (r, {| context := context w; outside := s' |}).

Definition record_task (task : string) (result : gmap string pyval)
    : M (World S) unit :=
  fun w => (inr tt,
            {| context :=
                 {| current_topic := current_topic (context w);
                    completed_tasks :=
                      (completed_tasks (context w)
                         ++ [(task, result, now_iso (outside w))])%list |};
               outside := outside w |}).

Definition truthy_get (d : gmap string pyval) (k : string) : bool :=
  match d !! k with Some v => truthy_val v | None => false end.

Definition get_str (d : gmap string pyval) (k dflt : string) : string :=
  match d !! k with Some v => format_val v | None => dflt end.

Definition get_list (d : gmap string pyval) (k : string) : list string :=
  match d !! k with Some (PyList l) => l | _ => [] end.

Definition success_report (result : gmap string pyval) : string :=
  "✅ **Task Completed Successfully!**" +:+ nl +:+ nl
    +:+ "**Action Taken:** " +:+ get_str result "action_taken" "Task completed"
    +:+ nl +:+ nl
    +:+ (if truthy_get result "message"
         then "**Details:** " +:+ get_str result "message" "" +:+ nl +:+ nl
         else "")
    +:+ (if truthy_get result "python_path"
         then "**Python Path:** " +:+ get_str result "python_path" "" +:+ nl
         else "")
    +:+ (if truthy_get result "python_version"
         then "**Python Version:** " +:+ get_str result "python_version" "" +:+ nl
         else "").

Definition failure_report (result : gmap string pyval) : string :=
  "❌ **Task Failed**" +:+ nl +:+ nl
    +:+ "**Error:** " +:+ get_str result "error" "Unknown error" +:+ nl +:+ nl
    +:+ (match get_list result "suggestions" with
         | [] => ""
         | suggestions =>
             "**Suggestions:**" +:+ nl
               +:+ fold_right (fun s rest => "• " +:+ s +:+ nl +:+ rest) "" suggestions
         end).

Definition _handle_task_request (user_message : string) : M (World S) string :=
  match task_solver with
  | None => mret' "Task automation is not available. Please enable it first."
  | Some solve_task =>
      try_exceptM
        (let! result := outer (solve_task user_message) in
         if truthy_get result "success"
         then let! _ := record_task user_message result in
              mret' (success_report result)
         else mret' (failure_report result))
        (fun e => mret' ("❌ **Error processing task:** " +:+ str_of_exc e))
  end.

Definition _create_enhanced_prompt (topic : option string)
    (user_message context : string) : string :=
  join nl
    ([ "You are Terminal Jarvis, an AI assistant with access to a knowledge base and task automation capabilities.";
       "You can help with programming, system administration, and general questions." ]
     ++ (if truthy context
         then [nl +:+ "**Relevant Information from Knowledge Base:**" +:+ nl +:+ context]
         else [])
     ++ (match topic with
         | Some t => if truthy t then [nl +:+ "**Current Topic:** " +:+ t] else []
         | None => []
         end)
     ++ [ nl +:+ "**User Question:** " +:+ user_message;
          nl +:+ "**Instructions:**";
          "- Provide helpful, accurate information";
          "- If you can perform a task automatically, mention it";
          "- Use the knowledge base information to enhance your response";
          "- Be concise but thorough" ])%list.

Definition _post_process_response (response user_message : string) : string :=
  let response :=
    if knowledge_base_enabled && contains "knowledge base" (lower response)
    then response +:+ kb_note else response in
  let response :=
    if task_automation_enabled && _is_task_request user_message
    then response +:+ task_hint else response in
  response.

(** The context the answer path fetches: empty unless a knowledge base
    was given. *)
Definition fetch_context (user_message : string) : M (World S) string :=
  match rag_system with
  | Some get_context_for_query => outer (get_context_for_query user_message 3)
  | None => mret' ""
  end.

Definition get_enhanced_response (user_message : string) : M (World S) string :=
  try_exceptM
    (if _is_task_request user_message then _handle_task_request user_message
     else
       let! context_ := fetch_context user_message in
       let! topic := (fun w => (inr (current_topic (context w)), w)) in
       let enhanced_prompt := _create_enhanced_prompt topic user_message context_ in
       let! response_parts :=
         outer (stream_chat [ {| Chat.role := "user"; Chat.content := enhanced_prompt |} ]
                  1024 (7 # 10)) in
       let response := join "" response_parts in
       mret' (_post_process_response response user_message))
    (fun e => mret' ("I encountered an error while processing your request: "
                     +:+ str_of_exc e)).
End Session.

End EnhancedChat.

(** ** A session over the example knowledge base *)

Module DemoChat.
Import EnhancedChat.

(** A session with the example knowledge base and no task solver; the
    language model answers every prompt with the same two fragments. *)
#[global] Instance demo_session : Collaborators (Rag.World (gmap string Rag.entry)) := {
  rag_system := Some (Rag.get_context_for_query Demo.demo_rag);
  task_solver := None;
  stream_chat messages max_tokens temperature :=
    fun w => (inr ["Nothing in the knowledge base "; "covers that."], w);
  now_iso := fun w => "2024-05-01T10:00:00"
}.

Definition fresh_session : World (Rag.World (gmap string Rag.entry)) :=
  {| context := {| current_topic := None; completed_tasks := [] |};
     outside := Demo.empty_world |}.

End DemoChat.

(** ** [RAGSystem.delete_document] *)

Module RagAdmin.
Import Rag.

(** The rest of the collection's interface: [c.get()] with no argument,
    as the list of ids with their metadata, and [c.delete(ids=...)]. *)
Class CollectionAdmin (C : Type) := {
  coll_get_all : C -> pyexc + list (string * gmap string pyval);
  coll_delete : C -> list string -> pyexc + C
}.

(** [metadata.get("path") == file_path] *)
Definition has_path (file_path : string) (md : gmap string pyval) : bool :=
  match md !! "path" with
  | Some (PyStr s) => String.eqb s file_path
  | _ => false
  end.

Section Operations.
Context {C : Type} `{CollectionAdmin C}.

Definition collection_get_all : M C (list (string * gmap string pyval)) :=
  fun w => (coll_get_all (collection w), w).

Definition collection_delete (ids : list string) : M C unit :=
  fun w => match coll_delete (collection w) ids with
           | inl e => (inl e, w)
           | inr c' => (inr tt, {| collection := c'; heap := heap w |})
           end.

(** The ids whose metadata carries the path. *)
Definition ids_with_path (file_path : string)
    (all_data : list (string * gmap string pyval)) : list string :=
  map fst (List.filter (fun item => has_path file_path item.2) all_data).

Definition delete_document (self : RAGSystem) (file_path : string)
    : M C (gmap string pyval) :=
  try_exceptM
    (let! all_data := collection_get_all in
     match ids_with_path file_path all_data with
     | [] => mret' (failure (PyStr "Document not found in knowledge base"))
     | chunk_ids_to_delete =>
         let! _ := collection_delete chunk_ids_to_delete in
         mret' ({[ "success" := PyBool true;
                   "chunks_deleted" := PyInt (PySeq.len chunk_ids_to_delete) ]}
                : gmap string pyval)
     end)
    (fun e => mret' (failure (PyStr (str_of_exc e)))).
End Operations.

(** The in-memory collection: all entries in key order; deleting removes
    the ids given. *)
#[global] Instance MapColl_Admin : CollectionAdmin (gmap string entry) := {
  coll_get_all c := ret (map (fun '(i, e) => (i, e_metadata e)) (map_to_list c));
  coll_delete c ids := ret (fold_left (fun c i => delete i c) ids c)
}.

(** The entries of a collection that do not carry the path. *)
Definition without_path (file_path : string) (c : gmap string entry)
    : gmap string entry :=
  filter (fun kv => has_path file_path (e_metadata kv.2) = false) c.

Definition with_path (file_path : string) (c : gmap string entry)
    : gmap string entry :=
  filter (fun kv => has_path file_path (e_metadata kv.2) = true) c.

End RagAdmin.

(** ** The rest of [TaskExecutor] and [TaskSolver] *)

Module TaskSolve.
Import TaskAutomation.

Section Solver.
Context {W : Type} `{Host W}.

(** [sys.executable], and the knowledge base's
    [get_context_for_query] the solver is constructed with. *)
Variable sys_executable : string.
Variable get_context_for_query : string -> Z -> M W string.

(** [SystemInfo.get_environment_variables] *)
Definition important_vars : list string :=
  [ "PATH"; "PYTHONPATH"; "HOME"; "USERPROFILE";
    "APPDATA"; "LOCALAPPDATA"; "TEMP"; "TMP" ].

Definition get_environment_variables (w : W) : gmap string string :=
  fold_left
    (fun env_vars var =>
       let value := from_option id "" (environ_get var w) in
       if truthy value then <[var := value]> env_vars else env_vars)
    important_vars ∅.

Definition pip_command (package_name : string) (upgrade : bool) : list string :=
  ([sys_executable; "-m"; "pip"; "install"]
     ++ (if upgrade then ["--upgrade"] else [])
     ++ [package_name])%list.

Definition install_python_package (package_name : string) (upgrade : bool)
    : M W (gmap string pyval) :=
  try_exceptM
    (let! result := subprocess_run (Argv (pip_command package_name upgrade))
                      false (Some 300) in
     if returncode result =? 0
     then mret' (succeeded ("Successfully installed " +:+ package_name))
     else mret' (failure ("Failed to install " +:+ package_name +:+ ": "
                          +:+ stderr result)))
    (fun e =>
       if is_timeout e then mret' (failure "Installation timed out")
       else mret' (failure (str_of_exc e))).

Definition create_virtual_environment (venv_path : string)
    (python_executable : option string) : M W (gmap string pyval) :=
  try_exceptM
    (let! venv_path := path_resolve venv_path in
     let python_executable := from_option id sys_executable python_executable in
     let! result := subprocess_run (Argv [python_executable; "-m"; "venv"; venv_path])
                      false (Some 60) in
     if returncode result =? 0
     then mret' (succeeded ("Created virtual environment at " +:+ venv_path))
     else mret' (failure ("Failed to create virtual environment: "
                          +:+ stderr result)))
    (fun e =>
       if is_timeout e then mret' (failure "Virtual environment creation timed out")
       else mret' (failure (str_of_exc e))).

(** [result["success"]] as a condition; a missing key raises. *)
Definition success_of (result : gmap string pyval) : pyexc + bool :=
  let* v := getitem result "success" in ret (truthy_val v).

(** The two assignments made to a successful result. *)
Definition mark_solved (result : gmap string pyval) (action : string)
    : gmap string pyval :=
  <["action_taken" := PyStr action]> (<["task_solved" := PyBool true]> result).

Definition finish (result : gmap string pyval) (action : string)
    : M W (gmap string pyval) :=
  let! ok := lift (success_of result) in
  if ok then mret' (mark_solved result action) else mret' result.

Definition with_suggestions (msg : string) (suggestions : list string)
    : gmap string pyval :=
  {[ "success" := PyBool false; "error" := PyStr msg;
     "suggestions" := PyList suggestions ]}.

(** [words[i + 1:]] and friends: the words that follow position [i]. *)
Definition path_like (w : W) (candidate : string) : bool :=
  os_path_exists candidate w || contains ":" candidate.

(** The candidates found behind one trigger word: the next two words
    that look like a path. [rest] is [words[i + 1:]]. *)
Definition candidates_after (w : W) (rest : list string) : list string :=
  List.filter (path_like w) (take 2 rest).

Fixpoint path_candidates (w : W) (words : list string) : list string :=
  match words with
  | [] => []
  | word :: rest =>
      ((if bool_decide (lower word ∈ ["add"; "to"; "path"])
        then candidates_after w rest else [])
         ++ path_candidates w rest)%list
  end.

Definition _solve_path_addition_task (task_description context : string)
    : M W (gmap string pyval) :=
  let words := split task_description in
  let! candidates := read (fun w => path_candidates w words) in
  match candidates with
  | [] => mret' (with_suggestions "Could not identify path to add"
                   ["Please specify the exact path you want to add to PATH"])
  | path_to_add :: _ =>
      let! result := add_to_path path_to_add true in
      finish result ("Added " +:+ path_to_add +:+ " to system PATH")
  end.

Fixpoint package_candidates (words : list string) : list string :=
  match words with
  | [] => []
  | word :: rest =>
      match rest with
      | next :: _ =>
          if bool_decide (lower word ∈ ["install"; "pip"; "install"])
          then next :: package_candidates rest
          else package_candidates rest
      | [] => []
      end
  end.

Definition _solve_package_installation_task (task_description context : string)
    : M W (gmap string pyval) :=
  match package_candidates (split task_description) with
  | [] => mret' (with_suggestions "Could not identify package to install"
                   ["Please specify the package name"; "Example: install numpy"])
  | package_name :: _ =>
      let! result := install_python_package package_name false in
      finish result ("Installed Python package: " +:+ package_name)
  end.

(** The loop stops at the first trigger word that has a successor. *)
Fixpoint command_candidate (words : list string) : option string :=
  match words with
  | [] => None
  | word :: rest =>
      match rest with
      | _ :: _ =>
          if bool_decide (lower word ∈ ["run"; "execute"; "command"])
          then Some (join " " rest)
          else command_candidate rest
      | [] => None
      end
  end.

Definition _solve_system_command_task (task_description context : string)
    : M W (gmap string pyval) :=
  match command_candidate (split task_description) with
  | None => mret' (with_suggestions "Could not identify command to run"
                     ["Please specify the command to execute"; "Example: run dir"])
  | Some command =>
      let! result := run_command command true 30 in
      finish result ("Executed command: " +:+ command)
  end.

Definition _get_general_suggestions (task_description context : string)
    : list string :=
  ([ "Try rephrasing your request more specifically";
     "Check if the task involves adding something to PATH";
     "Consider if you need to install a Python package";
     "Think about whether you need to run a system command" ]
     ++ (if truthy context
         then ["I found some relevant information in the knowledge base that might help"]
         else []))%list.

Definition task_type_of (task_analysis : gmap string pyval) : pyexc + string :=
  getstr task_analysis "task_type".

Definition solve_task (task_description : string) : M W (gmap string pyval) :=
  try_exceptM
    (let! context := get_context_for_query task_description 5 in
     let task_analysis := _analyze_task task_description context in
     let! task_type := lift (task_type_of task_analysis) in
     if String.eqb task_type "path_addition"
     then _solve_path_addition_task task_description context
     else if String.eqb task_type "python_setup"
     then _solve_python_setup_task task_description context
     else if String.eqb task_type "package_installation"
     then _solve_package_installation_task task_description context
     else if String.eqb task_type "system_command"
     then _solve_system_command_task task_description context
     else mret' (with_suggestions "Task type not recognized"
                   (_get_general_suggestions task_description context)))
    (fun e => mret' (failure (str_of_exc e))).
End Solver.

(** What the executor hands to a resolver: a result with the [success]
    flag that says nothing about the task yet. *)
Definition executor_result (r : gmap string pyval) : Prop :=
  has_success r /\ r !! "task_solved" = None.

(** What a resolver may answer: the [success] flag is there, and
    [task_solved] appears only together with [success = True] and the
    action taken. *)
Definition consistent_result (r : gmap string pyval) : Prop :=
  has_success r /\
  (r !! "task_solved" <> None ->
   r !! "success" = Some (PyBool true) /\
   exists action, r !! "action_taken" = Some (PyStr action)).

End TaskSolve.

(** ** The rest of [EnhancedChatSession] and [EnhancedLocalLlm] *)

Module EnhancedChatMore.
Import EnhancedChat.

Definition set_topic (topic : string) (ctx : ConversationContext) : ConversationContext :=
  {| current_topic := Some topic; completed_tasks := completed_tasks ctx |}.

(** [_analyze_user_message]: the first keyword group found in the
    lower-cased message sets the topic; otherwise the topic stays. *)
Definition _analyze_user_message (content : string) (ctx : ConversationContext)
    : ConversationContext :=
  let content_lower := lower content in
  if any_in ["python"; "programming"; "code"] content_lower
  then set_topic "programming" ctx
  else if any_in ["system"; "computer"; "windows"] content_lower
  then set_topic "system" ctx
  else if any_in ["help"; "how"; "what"; "why"] content_lower
  then set_topic "help" ctx
  else ctx.

Section Session.
Context {S : Type} `{Collaborators S}.

(** [EnhancedChatSession.add_user]: the message list of the base class
    and the context. *)
Definition add_user (messages : list Chat.message) (content : string)
    : M (World S) (list Chat.message) :=
  fun w => (inr (Chat.add_user messages content),
            {| context := _analyze_user_message content (context w);
               outside := outside w |}).

(** [EnhancedLocalLlm.stream_enhanced_chat]: the reply and the
    session's messages afterwards. *)
Definition stream_enhanced_chat (messages : list Chat.message)
    : M (World S) (string * list Chat.message) :=
  match last messages with
  | None => mret' ("", messages)
  | Some m =>
      let! response := get_enhanced_response (Chat.content m) in
      mret' (response, Chat.add_assistant messages response)
  end.
End Session.

End EnhancedChatMore.

(** ** Conversations a [ChatSession] can hold *)

Module ChatLog.
Import Chat.

(** The message lists reachable from the empty session by [add_user] and
    [add_assistant]. *)
Inductive session_log : list message -> Prop :=
| log_empty : session_log []
| log_user messages content :
    session_log messages -> session_log (add_user messages content)
| log_assistant messages content :
    session_log messages -> session_log (add_assistant messages content).

End ChatLog.

(** ** What a processed document looks like *)

Module DocumentShape.
Import Rag.

(** The record [process_file] returns for a readable document: the five
    file keys, the text, and its word and character counts. *)
Definition is_document (fs : FileSystem) (p : string) (d : gmap string pyval) : Prop :=
  exists size modified text,
    d = <["char_count" := PyInt (Z.of_nat (String.length text))]>
          (<["word_count" := PyInt (PySeq.len (split text))]>
             (<["text" := PyStr text]>
                ({[ "path" := PyStr (path_str fs p);
                    "name" := PyStr (path_name fs p);
                    "size" := PyInt size;
                    "modified" := PyStr modified;
                    "extension" := PyStr (lower (path_suffix fs p)) ]}))) /\
    has_nonspace text = true /\
    1 <= PySeq.len (split text).

End DocumentShape.

(** ** More concrete collaborators for the examples *)

Module Demo2.
Import Rag.

(** A file system where [scan.pdf] exists but its reader raises, and
    [./notes.txt] is the un-normalised spelling of [notes.txt]. *)
Definition demo_fs2 : FileSystem := {|
  path_str p := if String.eqb p "./notes.txt" then "notes.txt" else p;
  path_exists p := true;
  path_name p := p;
  path_suffix p := if String.eqb p "scan.pdf" then ".PDF" else ".txt";
  stat_size p := inr 11;
  stat_modified p := inr "2024-05-01T10:00:00";
  read_text r p := if String.eqb p "scan.pdf"
                   then inl (OtherError "PdfReadError" "EOF marker not found")
                   else inr "hello world"
|}.

Definition demo_rag2 : RAGSystem := {|
  fs := demo_fs2;
  chunker := Chunker.default;
  md5_hex := Demo.demo_md5;
  encode texts := inr (map (fun t => [inject_Z (Z.of_nat (String.length t))]) texts);
  now_iso := "2024-05-01T10:00:00"
|}.

End Demo2.

(** ** A Unix host for the examples *)

Module DemoUnix.
Import TaskAutomation.

(** The machine: the value of [PATH] and the text of [~/.bashrc]. Every
    absolute path exists, [pip] knows the package [numpy] and takes too
    long over [tensorflow], and the shell knows no command. *)
Record machine := { path_var : string; bashrc_text : string }.

Definition is_absolute (p : string) : bool := startswith p "/".

Definition unix_host : Host machine := {|
  is_windows := false;
  subprocess_run cmd shell timeout := fun w =>
    match cmd with
    | Argv [_; "-m"; "pip"; "install"; pkg] =>
        if String.eqb pkg "numpy"
        then (inr {| returncode := 0; stdout := "Successfully installed numpy-1.26.4";
                     stderr := "" |}, w)
        else if String.eqb pkg "tensorflow"
        then (inl (TimeoutExpired "timed out after 300 seconds"), w)
        else (inr {| returncode := 1; stdout := "";
                     stderr := "ERROR: No matching distribution found" |}, w)
    | Shell _ => (inr {| returncode := 127; stdout := ""; stderr := "not found" |}, w)
    | Argv _ => (inl (OSError "No such file or directory"), w)
    end;
  glob pattern := fun w => (inr [], w);
  path_resolve p := fun w => (inr p, w);
  os_path_exists p := fun w => is_absolute p;
  os_path_isfile p := fun w => false;
  os_path_dirname p := p;
  os_path_join a b := a +:+ "/" +:+ b;
  environ_get k := fun w =>
    if String.eqb k "PATH" then Some (path_var w)
    else if String.eqb k "HOME" then Some "/home/demo"
    else None;
  environ_set k v := fun w =>
    if String.eqb k "PATH" then {| path_var := v; bashrc_text := bashrc_text w |} else w;
  home_dir := fun w => "/home/demo";
  append_text p s := fun w =>
    (inr tt, {| path_var := path_var w; bashrc_text := bashrc_text w +:+ s |})
|}.

Definition demo_machine : machine :=
  {| path_var := "/usr/local/bin:/usr/bin"; bashrc_text := "" |}.

(** A knowledge base with nothing to say, and one that fails. *)
Definition no_context : string -> Z -> M machine string :=
  fun _ _ w => (inr "", w).

Definition broken_context : string -> Z -> M machine string :=
  fun _ _ w => (inl (OtherError "RuntimeError" "collection is gone"), w).

End DemoUnix.

(** ** Two interpreters for the examples *)

Module DemoInterpreters.
Import TaskAutomation.

Definition python310 : installation :=
  {| path := "C:\Python310\python.exe"; version := "Python 3.10.0";
     executable := "C:\Python310\python.exe" |}.

Definition found : list installation := [DemoHostFacts.python39; python310].

End DemoInterpreters.

(** * Properties of the string operations *)

Section StringFacts.

Lemma string_length_app a b :
  String.length (a +:+ b) = (String.length a + String.length b)%nat.
Proof. induction a as [|c a IH]; simpl; [reflexivity | now rewrite IH]. Qed.

Lemma all_nonspace_app a b :
  all_nonspace (a +:+ b) = all_nonspace a && all_nonspace b.
Proof.
  induction a as [|c a IH]; simpl; [reflexivity|].
  rewrite IH. apply andb_assoc.
Qed.

Lemma truthy_app_r a c : truthy (a +:+ String c "") = true.
Proof. destruct a; reflexivity. Qed.

Lemma has_nonspace_app_l a b :
  has_nonspace a = true -> has_nonspace (a +:+ b) = true.
Proof.
  induction a as [|c a IH]; simpl; [discriminate|].
  destruct (isspace c); simpl; auto.
Qed.

Lemma is_word_has_nonspace w : is_word w -> has_nonspace w = true.
Proof.
  intros [Ht Ha]. destruct w as [|c w]; [discriminate|].
  simpl in *. apply andb_true_iff in Ha as [Hc _]. now rewrite Hc.
Qed.

Lemma lstrip_has_nonspace s : has_nonspace (lstrip s) = has_nonspace s.
Proof.
  induction s as [|c s IH]; simpl; [reflexivity|].
  destruct (isspace c) eqn:E; simpl; [exact IH|].
  now rewrite E.
Qed.

Lemma rstrip_truthy s : truthy (rstrip s) = has_nonspace s.
Proof.
  induction s as [|c s IH]; simpl; [reflexivity|].
  destruct (rstrip s) as [|d r]; simpl in *.
  - rewrite <- IH. destruct (isspace c); reflexivity.
  - rewrite <- IH. apply eq_sym, orb_true_r.
Qed.

(** [s.strip()] is non-empty exactly when [s] has a non-space character. *)
Lemma strip_truthy s : truthy (strip s) = has_nonspace s.
Proof. unfold strip. now rewrite rstrip_truthy, lstrip_has_nonspace. Qed.

Lemma split_from_words s : forall cur,
  all_nonspace cur = true -> Forall is_word (split_from cur s).
Proof.
  induction s as [|c s IH]; intros cur Hcur; simpl.
  - destruct (truthy cur) eqn:E; constructor; [split; assumption | constructor].
  - destruct (isspace c) eqn:Ec.
    + destruct (truthy cur) eqn:E.
      * constructor; [split; assumption | now apply IH].
      * now apply IH.
    + apply IH. rewrite all_nonspace_app, Hcur. simpl. now rewrite Ec.
Qed.

(** Every element [str.split()] returns is a non-empty, blank-free word. *)
Lemma split_words s : Forall is_word (split s).
Proof. now apply split_from_words. Qed.

Lemma join_has_nonspace sep w ws :
  is_word w -> has_nonspace (join sep (w :: ws)) = true.
Proof.
  intros Hw. apply is_word_has_nonspace in Hw.
  destruct ws; simpl; [assumption | now apply has_nonspace_app_l].
Qed.

End StringFacts.

(** * Built-in [range] *)

Section RangeFacts.

Lemma range_pos n step :
  0 < step ->
  PySeq.range 0 n step =
    inr (map (fun k => Z.of_nat k * step)
             (seq 0 (Z.to_nat (if 0 <? n then (n - 1) / step + 1 else 0)))).
Proof.
  intros Hs. unfold PySeq.range, PySeq.range_len.
  destruct (Z.eqb_spec step 0); [lia|].
  destruct (Z.ltb_spec 0 step); [|lia].
  unfold ret. f_equal. replace (n - 0 - 1) with (n - 1) by lia.
  apply map_ext. intros; lia.
Qed.

Lemma range_neg n step :
  0 <= n -> step < 0 -> PySeq.range 0 n step = inr [].
Proof.
  intros Hn Hs. unfold PySeq.range, PySeq.range_len.
  destruct (Z.eqb_spec step 0); [lia|].
  destruct (Z.ltb_spec 0 step); [lia|].
  destruct (Z.ltb_spec n 0); [lia|]. reflexivity.
Qed.

Lemma range_zero n : exists m, PySeq.range 0 n 0 = inl (ValueError m).
Proof. eexists. reflexivity. Qed.

End RangeFacts.

(** * Text chunker *)

Section ChunkerFacts.
Import Chunker.

Variable self : TextChunker.
Variable words : list string.
Variable md : gmap string pyval.

Let sz := chunk_size self.
Let ov := overlap self.
Let N := PySeq.len words.

(** A window that starts inside the text and has positive size is the
    plain sub-list and is not empty. *)
Lemma slice_window i :
  0 < sz -> 0 <= i < N ->
  exists w ws, PySeq.slice words i (i + sz) = w :: ws /\ w ∈ words.
Proof.
  intros Hsz Hi. unfold PySeq.slice, PySeq.clamp. fold (PySeq.len words). fold N.
  destruct (Z.ltb_spec i 0); [lia|].
  destruct (Z.ltb_spec (i + sz) 0); [lia|].
  rewrite (Z.min_l i N) by lia.
  destruct (drop (Z.to_nat i) words) as [|w ws] eqn:E.
  - apply (f_equal (@List.length _)) in E. rewrite length_drop in E. simpl in E.
    unfold N, PySeq.len in Hi. lia.
  - assert (Hw : words !! Z.to_nat i = Some w).
    { rewrite <- (Nat.add_0_r (Z.to_nat i)), <- lookup_drop, E. reflexivity. }
    destruct (Z.to_nat (Z.min (i + sz) N - i)) as [|k] eqn:Ek; [lia|].
    exists w, (take k ws). split; [reflexivity|].
    eapply list_elem_of_lookup_2; eassumption.
Qed.

Lemma window_kept i :
  Forall is_word words -> 0 < sz -> 0 <= i < N ->
  truthy (strip (join " " (PySeq.slice words i (i + sz)))) = true.
Proof.
  intros Hw Hsz Hi. destruct (slice_window i Hsz Hi) as (w & ws & -> & Hin).
  rewrite strip_truthy. apply join_has_nonspace.
  rewrite Forall_forall in Hw. now apply Hw.
Qed.

Lemma chunk_step_kept chunks i :
  truthy (strip (join " " (PySeq.slice words i (i + sz)))) = true ->
  chunk_step self words md chunks i =
    (chunks ++ [mk_chunk self words md (List.length chunks) i])%list.
Proof. intros H. unfold chunk_step. fold sz. now rewrite H. Qed.

Lemma fold_chunk_step idxs : forall acc,
  Forall (fun i => truthy (strip (join " " (PySeq.slice words i (i + sz)))) = true) idxs ->
  fold_left (chunk_step self words md) idxs acc =
    (acc ++ imap (fun k i => mk_chunk self words md (List.length acc + k)%nat i) idxs)%list.
Proof.
  induction idxs as [|i idxs IH]; intros acc Hall; simpl.
  - now rewrite app_nil_r.
  - inversion Hall as [|? ? Hi Hrest]; subst.
    rewrite chunk_step_kept by assumption.
    rewrite IH by assumption. rewrite <- app_assoc. simpl.
    rewrite Nat.add_0_r. do 2 f_equal.
    apply imap_ext. intros k x _. simpl. rewrite length_app. simpl.
    f_equal. lia.
Qed.

End ChunkerFacts.

Section ChunkerResults.
Import Chunker.

Lemma ceil_div_count n step :
  0 <= n -> 0 < step ->
  (if 0 <? n then (n - 1) / step + 1 else 0) = ceil_div n step.
Proof.
  intros Hn Hs. unfold ceil_div.
  destruct (Z.ltb_spec 0 n).
  - symmetry. apply Z.opp_inj. rewrite Z.opp_involutive.
    symmetry. apply (Z.div_unique_pos _ _ _ (step - 1 - (n - 1) mod step)).
    + pose proof (Z.mod_pos_bound (n - 1) step Hs). lia.
    + pose proof (Z.div_mod (n - 1) step ltac:(lia)). lia.
  - replace n with 0 by lia. reflexivity.
Qed.

Lemma ceil_div_ge_1 n step : 0 < n -> 0 < step -> 1 <= ceil_div n step.
Proof.
  intros Hn Hs. rewrite <- ceil_div_count by lia.
  destruct (Z.ltb_spec 0 n); [|lia].
  pose proof (Z.div_pos (n - 1) step ltac:(lia) Hs). lia.
Qed.

Lemma mk_chunk_covers self words md idx i j :
  i <= j < Z.min (i + chunk_size self) (PySeq.len words) ->
  covers (mk_chunk self words md idx i) j.
Proof.
  intros Hj. exists i, (Z.min (i + chunk_size self) (PySeq.len words)).
  unfold mk_chunk, chunk_metadata, get_int; simpl.
  rewrite lookup_insert_ne by discriminate.
  rewrite !lookup_insert_eq. auto.
Qed.

(** What [chunk_text] computes when the window advance is positive. *)
Lemma chunk_words_list_pos self words md :
  Forall is_word words ->
  0 <= overlap self < chunk_size self ->
  chunk_words_list self words md =
    inr (imap (fun k i => mk_chunk self words md k i)
           (map (fun k => Z.of_nat k * (chunk_size self - overlap self))
              (seq 0 (Z.to_nat (ceil_div (PySeq.len words)
                                  (chunk_size self - overlap self)))))).
Proof.
  intros Hw Hso. unfold chunk_words_list.
  set (step := chunk_size self - overlap self).
  assert (Hstep : 0 < step) by (unfold step; lia).
  assert (HN : 0 <= PySeq.len words) by (unfold PySeq.len; lia).
  rewrite range_pos by assumption. simpl. unfold ret. f_equal.
  rewrite ceil_div_count by assumption.
  rewrite fold_chunk_step; [reflexivity|].
  apply Forall_forall. intros i Hi.
  apply list_elem_of_In, in_map_iff in Hi as (k & <- & Hk).
  apply in_seq in Hk.
  apply window_kept; [assumption | lia |].
  assert (Hc := ceil_div_count (PySeq.len words) step HN Hstep).
  destruct (Z.ltb_spec 0 (PySeq.len words)) as [Hpos|Hz].
  - split; [lia|].
    assert (Z.of_nat k <= (PySeq.len words - 1) / step) by lia.
    pose proof (Z.mul_div_le (PySeq.len words - 1) step Hstep).
    nia.
  - rewrite <- Hc in Hk. simpl in Hk. lia.
Qed.

End ChunkerResults.

(** C2, as stated, fails: ten words with chunk size 4 and overlap 2 give five
    chunks (the last window, [i j], lies inside the fourth), where
    [ceil((N - O) / (S - O))] is four.  And an overlap below zero, which
    [O < S] admits, leaves gaps: with chunk size 1 and overlap -1 the word at
    position 1 of three is in no chunk. *)
Lemma chunk_count_exceeds_spec_formula :
  (PySeq.len (split "a b c d e f g h i j") = 10 /\
   (exists chunks,
      Chunker.chunk_text {| Chunker.chunk_size := 4; Chunker.overlap := 2 |}
        "a b c d e f g h i j" ∅ = inr chunks /\
      PySeq.len chunks = 5) /\
   Chunker.spec_chunk_count 10 4 2 = 4) /\
  (PySeq.len (split "a b c") = 3 /\
   exists chunks,
     Chunker.chunk_text {| Chunker.chunk_size := 1; Chunker.overlap := -1 |}
       "a b c" ∅ = inr chunks /\
     ~ (exists c, c ∈ chunks /\ Chunker.covers c 1)).
Proof.
  split.
  - split; [reflexivity|]. split; [|reflexivity].
    eexists. split; [reflexivity | reflexivity].
  - split; [reflexivity|].
    eexists. split; [reflexivity|].
    intros (c & Hin & a & b & Ha & Hb & Hr).
    apply elem_of_cons in Hin as [->|Hin];
      [|apply elem_of_cons in Hin as [->|Hin]; [|inversion Hin]];
      vm_compute in Ha, Hb; injection Ha as <-; injection Hb as <-; lia.
Qed.

(** C2 (amended): for a text of [N] whitespace-delimited words, chunk size [S]
    and overlap [0 <= O < S], [chunk_text] returns [ceil(N / (S - O))] chunks
    (at least one when [N > 0]), and every word position of [[0, N)] lies in
    the [[start_word, end_word)] range of some chunk. *)
Theorem chunk_text_count_and_coverage (self : Chunker.TextChunker)
    (text : string) (md : gmap string pyval) :
  0 <= Chunker.overlap self < Chunker.chunk_size self ->
  exists chunks,
    Chunker.chunk_text self text md = inr chunks /\
    PySeq.len chunks =
      Chunker.ceil_div (PySeq.len (split text))
        (Chunker.chunk_size self - Chunker.overlap self) /\
    (0 < PySeq.len (split text) -> 1 <= PySeq.len chunks) /\
    (forall j, 0 <= j < PySeq.len (split text) ->
       exists c, c ∈ chunks /\ Chunker.covers c j).
Proof.
  intros Hso. unfold Chunker.chunk_text.
  rewrite chunk_words_list_pos by (auto using split_words).
  set (words := split text) in *.
  set (step := Chunker.chunk_size self - Chunker.overlap self).
  assert (Hstep : 0 < step) by (unfold step; lia).
  assert (HN : 0 <= PySeq.len words) by (unfold PySeq.len; lia).
  set (cnt := Z.to_nat (Chunker.ceil_div (PySeq.len words) step)).
  assert (Hcnt : Z.of_nat cnt = Chunker.ceil_div (PySeq.len words) step).
  { unfold cnt. rewrite <- ceil_div_count by assumption.
    destruct (Z.ltb_spec 0 (PySeq.len words)); [|reflexivity].
    pose proof (Z.div_pos (PySeq.len words - 1) step ltac:(lia) Hstep). lia. }
  fold cnt. match goal with |- context [inr ?l] => set (chunks := l) end.
  assert (Hlen : PySeq.len chunks = Z.of_nat cnt).
  { unfold PySeq.len, chunks. now rewrite length_imap, length_map, length_seq. }
  exists chunks. split; [reflexivity|]. split; [|split].
  - now rewrite Hlen.
  - intros Hpos. rewrite Hlen, Hcnt. now apply ceil_div_ge_1.
  - intros j Hj.
    assert (Hq : 0 <= j / step) by (apply Z.div_pos; lia).
    assert (Hk : (Z.to_nat (j / step) < cnt)%nat).
    { apply Nat2Z.inj_lt. rewrite Hcnt, Z2Nat.id by assumption.
      rewrite <- ceil_div_count by assumption.
      destruct (Z.ltb_spec 0 (PySeq.len words)); [|lia].
      pose proof (Z.div_le_mono j (PySeq.len words - 1) step Hstep ltac:(lia)). lia. }
    exists (Chunker.mk_chunk self words md (Z.to_nat (j / step)) (j / step * step)).
    split.
    + apply list_elem_of_lookup. exists (Z.to_nat (j / step)). unfold chunks.
      rewrite list_lookup_imap, list_lookup_fmap, lookup_seq_lt by assumption.
      simpl. now rewrite Z2Nat.id by assumption.
    + apply mk_chunk_covers.
      pose proof (Z.mul_div_le j step Hstep).
      pose proof (Z.mod_pos_bound j step Hstep).
      pose proof (Z.div_mod j step ltac:(lia)).
      fold step in Hso. unfold step in *. lia.
Qed.

Lemma chunk_text_count_and_coverage_witness :
  exists chunks,
    Chunker.chunk_text {| Chunker.chunk_size := 4; Chunker.overlap := 2 |}
      "a b c d e f g h i j" ∅ = inr chunks /\
    PySeq.len chunks = Chunker.ceil_div (PySeq.len (split "a b c d e f g h i j")) (4 - 2) /\
    (0 < PySeq.len (split "a b c d e f g h i j") -> 1 <= PySeq.len chunks) /\
    (forall j, 0 <= j < PySeq.len (split "a b c d e f g h i j") ->
       exists c, c ∈ chunks /\ Chunker.covers c j).
Proof.
  apply (chunk_text_count_and_coverage
           {| Chunker.chunk_size := 4; Chunker.overlap := 2 |} "a b c d e f g h i j" ∅).
  simpl. lia.
Defined.

(** C7, as stated, fails: [TextChunker(5, 5)] and [TextChunker(5, 7)] are both
    constructed without complaint; the first makes [chunk_text] raise
    [ValueError] from [range], the second makes it return no chunk at all for
    a text of three words. *)
Lemma overlap_not_validated_at_construction :
  (exists self, Chunker.init 5 5 = inr self /\
     exists m, Chunker.chunk_text self "a b c" ∅ = inl (ValueError m)) /\
  (exists self, Chunker.init 5 7 = inr self /\
     Chunker.chunk_text self "a b c" ∅ = inr []).
Proof.
  split; eexists; (split; [reflexivity|]).
  - eexists. reflexivity.
  - reflexivity.
Qed.

Section ChunkerRanges.
Import Chunker.

(** The word range a chunk records is the window it was cut from. *)
Lemma fold_chunk_step_ranges self words md idxs : forall acc c,
  c ∈ fold_left (chunk_step self words md) idxs acc ->
  c ∈ acc \/
  exists i, i ∈ idxs /\
    get_int (metadata c) "start_word" = Some i /\
    get_int (metadata c) "end_word"
      = Some (Z.min (i + chunk_size self) (PySeq.len words)).
Proof.
  induction idxs as [|i idxs IH]; intros acc c Hc; [now left|].
  cbn [fold_left] in Hc. apply IH in Hc as [Hc|(i' & Hi' & Hs & He)].
  - unfold chunk_step in Hc.
    destruct (truthy _); [|now left].
    apply elem_of_app in Hc as [Hc|Hc]; [now left|].
    apply list_elem_of_singleton in Hc as ->. right. exists i.
    split; [left|]. unfold chunk_metadata, get_int. cbn [metadata].
    rewrite lookup_insert_ne by discriminate. now rewrite !lookup_insert_eq.
  - right. exists i'. split; [now right | now split].
Qed.

(** With an overlap below zero the window advance exceeds the window:
    the call returns, but the word right after the first window is in
    no chunk. *)
Lemma chunk_words_list_negative_overlap self words md :
  overlap self < 0 -> overlap self < chunk_size self ->
  exists chunks,
    chunk_words_list self words md = inr chunks /\
    ~ (exists c, c ∈ chunks /\ covers c (Z.max (chunk_size self) 0)).
Proof.
  intros Hneg Hlt. unfold chunk_words_list.
  set (step := chunk_size self - overlap self).
  assert (Hstep : 0 < step) by (unfold step; lia).
  rewrite range_pos by assumption. cbn [bind]. eexists. split; [reflexivity|].
  intros (c & Hc & a & b & Ha & Hb & Hab).
  apply fold_chunk_step_ranges in Hc as [Hc|(i & Hi & Hs & He)]; [inversion Hc|].
  rewrite Hs in Ha. rewrite He in Hb. injection Ha as <-. injection Hb as <-.
  apply list_elem_of_In, in_map_iff in Hi as (k & <- & _).
  destruct k as [|k]; [lia|]. unfold step in *. nia.
Qed.

(** With [0 <= overlap < chunk_size] the chunks are as many as the
    windows and leave no word out. *)
Lemma chunk_words_list_normal self words md :
  Forall is_word words ->
  0 <= overlap self < chunk_size self ->
  exists chunks,
    chunk_words_list self words md = inr chunks /\
    PySeq.len chunks
      = ceil_div (PySeq.len words) (chunk_size self - overlap self) /\
    (0 < PySeq.len words -> chunks <> []) /\
    (forall j, 0 <= j < PySeq.len words -> exists c, c ∈ chunks /\ covers c j).
Proof.
  intros Hw Hso. rewrite chunk_words_list_pos by assumption.
  set (step := chunk_size self - overlap self).
  assert (Hstep : 0 < step) by (unfold step; lia).
  assert (HN : 0 <= PySeq.len words) by (unfold PySeq.len; lia).
  set (cnt := Z.to_nat (ceil_div (PySeq.len words) step)).
  assert (Hcnt : Z.of_nat cnt = ceil_div (PySeq.len words) step).
  { unfold cnt. rewrite <- ceil_div_count by assumption.
    destruct (Z.ltb_spec 0 (PySeq.len words)); [|reflexivity].
    pose proof (Z.div_pos (PySeq.len words - 1) step ltac:(lia) Hstep). lia. }
  match goal with |- context [inr ?l] => set (chunks := l) end.
  assert (Hlen : PySeq.len chunks = Z.of_nat cnt).
  { unfold PySeq.len, chunks. now rewrite length_imap, length_map, length_seq. }
  exists chunks. split; [reflexivity|]. split; [|split].
  - now rewrite Hlen.
  - intros Hpos Hnil. pose proof (ceil_div_ge_1 _ _ Hpos Hstep) as Hge.
    assert (Hzero : PySeq.len chunks = 0) by now rewrite Hnil.
    fold step in Hge. lia.
  - intros j Hj.
    assert (Hq : 0 <= j / step) by (apply Z.div_pos; lia).
    assert (Hk : (Z.to_nat (j / step) < cnt)%nat).
    { apply Nat2Z.inj_lt. rewrite Hcnt, Z2Nat.id by assumption.
      rewrite <- ceil_div_count by assumption.
      destruct (Z.ltb_spec 0 (PySeq.len words)); [|lia].
      pose proof (Z.div_le_mono j (PySeq.len words - 1) step Hstep ltac:(lia)). lia. }
    exists (mk_chunk self words md (Z.to_nat (j / step)) (j / step * step)).
    split.
    + apply list_elem_of_lookup. exists (Z.to_nat (j / step)). unfold chunks.
      rewrite list_lookup_imap, list_lookup_fmap, lookup_seq_lt by assumption.
      simpl. now rewrite Z2Nat.id by assumption.
    + apply mk_chunk_covers.
      pose proof (Z.mul_div_le j step Hstep).
      pose proof (Z.mod_pos_bound j step Hstep).
      pose proof (Z.div_mod j step ltac:(lia)).
      unfold step in *. lia.
Qed.

End ChunkerRanges.

(** C7 (amended): construction accepts every pair [(chunk_size, overlap)] and
    stores it unchanged.  What [chunk_text] then does, for every text of [N]
    words:
    - [overlap = chunk_size]: it raises [ValueError] (zero [range] step);
    - [overlap > chunk_size]: it returns the empty list;
    - [overlap < 0] (and [overlap < chunk_size]): it returns, but words are
      skipped: when the text has more than [max(chunk_size, 0)] words, the
      word at that index is in no chunk's [[start_word, end_word)] range;
    - only with [0 <= overlap < chunk_size] is the list the normal one:
      [ceil(N / (chunk_size - overlap))] chunks, not empty when the text
      has a word, whose ranges leave no word of [[0, N)] out. *)
Theorem chunker_configuration_unchecked (sz ov : Z) :
  exists self,
    Chunker.init sz ov = inr self /\
    Chunker.chunk_size self = sz /\ Chunker.overlap self = ov /\
    forall text md,
      (ov = sz -> exists m, Chunker.chunk_text self text md = inl (ValueError m)) /\
      (sz < ov -> Chunker.chunk_text self text md = inr []) /\
      (ov < 0 -> ov < sz ->
       exists chunks,
         Chunker.chunk_text self text md = inr chunks /\
         (Z.max sz 0 < PySeq.len (split text) ->
          ~ (exists c, c ∈ chunks /\ Chunker.covers c (Z.max sz 0)))) /\
      (0 <= ov < sz ->
       exists chunks,
         Chunker.chunk_text self text md = inr chunks /\
         PySeq.len chunks = Chunker.ceil_div (PySeq.len (split text)) (sz - ov) /\
         (0 < PySeq.len (split text) -> chunks <> []) /\
         (forall j, 0 <= j < PySeq.len (split text) ->
            exists c, c ∈ chunks /\ Chunker.covers c j)).
Proof.
  eexists. split; [reflexivity|]. simpl. split; [reflexivity|]. split; [reflexivity|].
  intros text md. split; [|split; [|split]].
  - intros ->. unfold Chunker.chunk_text, Chunker.chunk_words_list. simpl.
    rewrite Z.sub_diag. eexists. reflexivity.
  - intros Hlt. unfold Chunker.chunk_text, Chunker.chunk_words_list. simpl.
    rewrite range_neg; [reflexivity | unfold PySeq.len; lia | lia].
  - intros Hneg Hlt. unfold Chunker.chunk_text.
    destruct (chunk_words_list_negative_overlap
                {| Chunker.chunk_size := sz; Chunker.overlap := ov |}
                (split text) md Hneg Hlt) as (chunks & Hrun & Hgap).
    exists chunks. split; [exact Hrun | intros _; exact Hgap].
  - intros Hso. unfold Chunker.chunk_text.
    apply (chunk_words_list_normal
             {| Chunker.chunk_size := sz; Chunker.overlap := ov |} (split text) md);
      [apply split_words | exact Hso].
Qed.

Lemma chunker_configuration_unchecked_witness :
  exists self,
    Chunker.init 5 5 = inr self /\
    exists m, Chunker.chunk_text self "a b c" ∅ = inl (ValueError m).
Proof.
  destruct (chunker_configuration_unchecked 5 5) as (self & Hinit & _ & _ & Hall).
  exists self. split; [exact Hinit|].
  apply (Hall "a b c" ∅). reflexivity.
Defined.

Example add_document_ex :
  exists r w, Rag.add_document Demo.demo_rag "notes.txt" Demo.empty_world = (inr r, w)
    /\ r !! "success" = Some (PyBool true) /\ r !! "chunks_added" = Some (PyInt 1)
    /\ dom (Rag.collection w) = {[ "a5d5286f1e67b6cd6876223e53f999c4_chunk_0" ]}.
Proof. eexists _, _. split; [reflexivity|]. repeat split. Qed.

(** * Knowledge store *)

Section StoreFacts.
Import Rag Chunker.
Context {C : Type} `{Collection C}.

Lemma failure_success msg : failure msg !! "success" = Some (PyBool false).
Proof. reflexivity. Qed.

Lemma failure_error msg : failure msg !! "error" = Some msg.
Proof. reflexivity. Qed.

(** Whatever [process_file] reports under ["error"] is a message. *)
Lemma process_file_error_str fs p d v :
  process_file fs p = inr d -> d !! "error" = Some v -> exists m, v = PyStr m.
Proof.
  unfold process_file.
  destruct (path_exists fs p); simpl.
  2:{ intros [= <-] [= <-]. eauto. }
  destruct (stat_size fs p) as [|sz]; simpl; [discriminate|].
  destruct (stat_modified fs p) as [|mt]; simpl; [discriminate|].
  destruct (reader_for _).
  2:{ intros [= <-] [= <-]. eauto. }
  destruct (truthy _); simpl.
  - intros [= <-] Hl. vm_compute in Hl. discriminate.
  - intros [= <-] [= <-]. eauto.
Qed.

(** The two ways [add_document] can end. *)
Lemma add_document_cases (rag : RAGSystem) (p : string) (w : World C) :
  (exists doc_info text chunks embs c',
      process_file (fs rag) p = inr doc_info /\
      doc_info !! "error" = None /\
      coll_get (collection w) [md5_hex rag p] = inr [] /\
      getstr doc_info "text" = inr text /\
      chunk_text (chunker rag) text doc_info = inr chunks /\
      encode rag (map Chunker.text chunks) = inr embs /\
      coll_add (collection w) (chunk_ids (md5_hex rag p) chunks) embs
        (map Chunker.text chunks) (map Chunker.metadata chunks) = inr c' /\
      add_document rag p w =
        (inr (added (md5_hex rag p) chunks doc_info),
         {| collection := c'; heap := heap w |}))
  \/ (exists m, add_document rag p w = (inr (failure (PyStr m)), w)).
Proof.
  unfold add_document, try_exceptM, mbind', mret', lift, collection_get,
    collection_add.
  destruct (process_file (fs rag) p) as [e|doc_info] eqn:Hp; [right; eauto|].
  destruct (doc_info !! "error") as [err|] eqn:Herr.
  { destruct (process_file_error_str _ _ _ _ Hp Herr) as [m ->]. right; eauto. }
  destruct (coll_get (collection w) [md5_hex rag p]) as [e|[|i ids]] eqn:Hg;
    [right; eauto | | right; eauto].
  destruct (getstr doc_info "text") as [e|text] eqn:Ht; [right; eauto|].
  destruct (chunk_text (chunker rag) text doc_info) as [e|chunks] eqn:Hc;
    [right; eauto|].
  destruct (encode rag (map Chunker.text chunks)) as [e|embs] eqn:He;
    [right; eauto|].
  destruct (coll_add (collection w) _ embs _ _) as [e|c'] eqn:Ha;
    [right; eauto|].
  left. exists doc_info, text, chunks, embs, c'. repeat split; assumption.
Qed.

End StoreFacts.

(** * The in-memory collection *)

Section MapCollFacts.
Import Rag Chunker.

Lemma insert_new_lookup_other (c : gmap string entry) item k :
  k <> item.1 -> insert_new c item !! k = c !! k.
Proof.
  intros Hk. unfold insert_new. destruct (c !! item.1); [reflexivity|].
  now rewrite lookup_insert_ne.
Qed.

Lemma fold_insert_new_other items : forall (c : gmap string entry) k,
  k ∉ map fst items -> fold_left insert_new items c !! k = c !! k.
Proof.
  induction items as [|it items IH]; intros c k Hk; simpl; [reflexivity|].
  rewrite IH.
  - apply insert_new_lookup_other. intros ->. apply Hk. simpl. left.
  - intros Hin. apply Hk. simpl. now right.
Qed.

Lemma insert_new_present (c : gmap string entry) item :
  is_Some (c !! item.1) -> insert_new c item = c.
Proof. intros [x Hx]. unfold insert_new. now rewrite Hx. Qed.

Lemma insert_new_mono (c : gmap string entry) item k :
  is_Some (c !! k) -> is_Some (insert_new c item !! k).
Proof.
  intros Hk. unfold insert_new. destruct (c !! item.1) eqn:E; [assumption|].
  destruct (decide (item.1 = k)) as [->|Hne].
  - rewrite lookup_insert_eq. eauto.
  - now rewrite lookup_insert_ne.
Qed.

Lemma insert_new_self (c : gmap string entry) item :
  is_Some (insert_new c item !! item.1).
Proof.
  unfold insert_new. destruct (c !! item.1) eqn:E; [rewrite E; eauto|].
  rewrite lookup_insert_eq. eauto.
Qed.

Lemma fold_insert_new_mono items : forall (c : gmap string entry) k,
  is_Some (c !! k) -> is_Some (fold_left insert_new items c !! k).
Proof.
  induction items as [|it items IH]; intros c k Hk; simpl; [assumption|].
  apply IH. now apply insert_new_mono.
Qed.

Lemma fold_insert_new_present items : forall (c : gmap string entry),
  Forall (fun it => is_Some (c !! it.1)) items ->
  fold_left insert_new items c = c.
Proof.
  induction items as [|it items IH]; intros c Hall; simpl; [reflexivity|].
  inversion Hall as [|? ? Hit Hrest]; subst.
  rewrite insert_new_present by assumption. now apply IH.
Qed.

Lemma fold_insert_new_all items : forall (c : gmap string entry),
  Forall (fun it => is_Some (fold_left insert_new items c !! it.1)) items.
Proof.
  induction items as [|it items IH]; intros c; simpl; constructor.
  - apply fold_insert_new_mono, insert_new_self.
  - apply IH.
Qed.

(** Adding a batch a second time changes nothing. *)
Lemma fold_insert_new_twice items (c : gmap string entry) :
  fold_left insert_new items (fold_left insert_new items c) =
  fold_left insert_new items c.
Proof. apply fold_insert_new_present, fold_insert_new_all. Qed.

Lemma zip_entries_ids ids : forall embs docs mds k,
  k ∈ map fst (zip_entries ids embs docs mds) -> k ∈ ids.
Proof.
  induction ids as [|i ids IH]; intros [|e embs] [|d docs] [|m mds] k;
    simpl; try (intros Hk; inversion Hk; fail).
  intros Hk. apply elem_of_cons in Hk as [->|Hk]; [left|right; eauto].
Qed.

(** No chunk id equals the document id it is derived from. *)
Lemma doc_id_not_chunk_id doc_id (chunks : list chunk) :
  doc_id ∉ chunk_ids doc_id chunks.
Proof.
  unfold chunk_ids. intros Hin.
  apply list_elem_of_lookup in Hin as [i Hi].
  rewrite list_lookup_imap in Hi.
  destruct (chunks !! i); [|discriminate]. simpl in Hi.
  injection Hi as Hi. apply (f_equal String.length) in Hi.
  rewrite !string_length_app in Hi. simpl in Hi. lia.
Qed.

Lemma map_get_nil (c : gmap string entry) k :
  coll_get c [k] = inr [] <-> c !! k = None.
Proof.
  simpl. unfold ret. rewrite filter_cons, filter_nil.
  destruct (decide (is_Some (c !! k))) as [Hs|Hn]; split.
  - discriminate.
  - intros Hk. rewrite Hk in Hs. now destruct Hs.
  - intros _. now apply eq_None_not_Some.
  - reflexivity.
Qed.

Lemma map_add_result (c c' : gmap string entry) ids embs docs mds :
  map_add c ids embs docs mds = inr c' ->
  c' = fold_left insert_new (zip_entries ids embs docs mds) c.
Proof.
  unfold map_add. destruct ids; [discriminate|].
  destruct (negb _); [discriminate|].
  destruct (negb _); [discriminate|].
  now intros [= <-].
Qed.

(** After a successful [add], the same batch is accepted again and leaves
    the collection as it is. *)
Lemma map_add_again (c c' : gmap string entry) ids embs docs mds :
  map_add c ids embs docs mds = inr c' ->
  map_add c' ids embs docs mds = inr c'.
Proof.
  intros Hadd. pose proof (map_add_result _ _ _ _ _ _ Hadd) as ->.
  revert Hadd. unfold map_add. destruct ids; [discriminate|].
  destruct (negb _); [discriminate|].
  destruct (negb _); [discriminate|].
  intros _. unfold ret. f_equal. apply fold_insert_new_twice.
Qed.

(** The duplicate check of [add_document] asks for the document id, which
    no stored chunk carries: after a successful [add_document] the lookup
    still finds nothing. *)
Lemma dedup_lookup_misses (rag : RAGSystem) (p : string)
    (w w' : World (gmap string entry)) r :
  add_document rag p w = (inr r, w') ->
  r !! "success" = Some (PyBool true) ->
  coll_get (collection w') [md5_hex rag p] = inr [].
Proof.
  intros Hcall Hsucc.
  destruct (add_document_cases rag p w)
    as [(doc_info & text & chunks & embs & c' & Hp & Herr & Hg & Ht & Hc & He & Ha & Hr)
       | [m Hr]];
    rewrite Hr in Hcall; injection Hcall as <- <-.
  2:{ rewrite failure_success in Hsucc. discriminate. }
  simpl. apply map_get_nil. apply map_get_nil in Hg.
  simpl in Ha. apply map_add_result in Ha as ->.
  rewrite fold_insert_new_other; [assumption|].
  intros Hin. apply zip_entries_ids in Hin.
  now apply doc_id_not_chunk_id in Hin.
Qed.

End MapCollFacts.

(** C1 (the code departs from it): whenever [add_document(p)] has succeeded on
    the in-memory collection, a second [add_document(p)] is not rejected: it
    returns the very same success dictionary, [success = True] with the same
    [chunks_added], because the duplicate check looks up the bare document id
    while the chunks are stored under [<doc_id>_chunk_<i>].  The stored chunks
    are unchanged by the second call. *)
Theorem add_document_again_not_rejected (rag : Rag.RAGSystem) (p : string)
    (w w1 : Rag.World (gmap string Rag.entry)) (r1 : gmap string pyval) :
  Rag.add_document rag p w = (inr r1, w1) ->
  r1 !! "success" = Some (PyBool true) ->
  Rag.add_document rag p w1 = (inr r1, w1) /\
  r1 !! "error" = None.
Proof.
  intros Hcall Hsucc.
  pose proof (dedup_lookup_misses rag p w w1 r1 Hcall Hsucc) as Hmiss.
  destruct (add_document_cases rag p w)
    as [(doc_info & text & chunks & embs & c' & Hp & Herr & Hg & Ht & Hc & He & Ha & Hr)
       | [m Hr]];
    rewrite Hr in Hcall; injection Hcall as <- <-.
  2:{ rewrite failure_success in Hsucc. discriminate. }
  split; [|reflexivity].
  unfold Rag.add_document, try_exceptM, mbind', mret', lift,
    Rag.collection_get, Rag.collection_add.
  rewrite Hp, Herr, Hmiss, Ht, Hc, He. cbn [Rag.collection Rag.heap].
  change (Rag.coll_add c') with (Rag.map_add c').
  rewrite (map_add_again _ _ _ _ _ _ Ha). reflexivity.
Qed.

Lemma add_document_again_not_rejected_witness :
  exists r1 w1,
    Rag.add_document Demo.demo_rag "notes.txt" Demo.empty_world = (inr r1, w1) /\
    r1 !! "success" = Some (PyBool true) /\
    r1 !! "chunks_added" = Some (PyInt 1) /\
    Rag.add_document Demo.demo_rag "notes.txt" w1 = (inr r1, w1) /\
    r1 !! "error" = None.
Proof.
  eexists _, _. split; [reflexivity|].
  split; [reflexivity|]. split; [reflexivity|].
  apply (add_document_again_not_rejected Demo.demo_rag "notes.txt" Demo.empty_world);
    [reflexivity | reflexivity].
Defined.

Section WriteOutcomes.
Import Rag Chunker.
Context {C : Type} `{Collection C}.

Lemma add_document_outcome (rag : RAGSystem) (p : string) (w : World C) :
  exists r w', add_document rag p w = (inr r, w') /\
    (document_stored rag p w r w' \/ (reported_failure r /\ w' = w)).
Proof.
  destruct (add_document_cases rag p w)
    as [(doc_info & text & chunks & embs & c' & Hp & Herr & Hg & Ht & Hc & He & Ha & Hr)
       | [m Hr]]; rewrite Hr; eexists _, _; (split; [reflexivity|]).
  - left. exists doc_info, text, chunks, embs. repeat split; assumption.
  - right. split; [exists m|]; reflexivity.
Qed.

Lemma add_text_from_marked (rag : RAGSystem) (text : string) (l : nat)
    (d : gmap string pyval) (w : World C) :
  heap w !! l = Some d ->
  exists r w', add_text rag text (Some l) w = (inr r, w') /\
    heap w' = <[l := text_marks rag ∪ d]> (heap w) /\
    (text_stored rag text (text_marks rag ∪ d) w r w' \/
     (reported_failure r /\ collection w' = collection w)).
Proof.
  intros Hl.
  unfold add_text, try_exceptM, mbind', mret', lift, dict_update, dict_read,
    collection_add.
  rewrite Hl. cbn [heap collection]. rewrite lookup_insert_eq.
  destruct (chunk_text (chunker rag) text _) as [e|chunks] eqn:Hc.
  { eexists _, _. split; [reflexivity|]. split; [reflexivity|].
    right. split; [eexists|]; reflexivity. }
  destruct (encode rag (map Chunker.text chunks)) as [e|embs] eqn:He.
  { eexists _, _. split; [reflexivity|]. split; [reflexivity|].
    right. split; [eexists|]; reflexivity. }
  cbn [heap collection].
  destruct (coll_add (collection w) _ embs _ _) as [e|c'] eqn:Ha.
  { eexists _, _. split; [reflexivity|]. split; [reflexivity|].
    right. split; [eexists|]; reflexivity. }
  eexists _, _. split; [reflexivity|]. split; [reflexivity|].
  left. exists chunks, embs. repeat split; assumption.
Qed.

Lemma new_dict_fresh (w : World C) :
  heap w !! fresh (dom (heap w)) = None.
Proof. apply not_elem_of_dom, is_fresh. Qed.

Lemma add_text_outcome (rag : RAGSystem) (text : string)
    (metadata : option nat) (w : World C) :
  exists r w', add_text rag text metadata w = (inr r, w') /\
    ((exists d, text_stored rag text d w r w') \/
     (reported_failure r /\ collection w' = collection w)).
Proof.
  destruct metadata as [l|].
  - destruct (heap w !! l) as [d|] eqn:Hl.
    + destruct (add_text_from_marked rag text l d w Hl)
        as (r & w' & Hr & _ & [Hs|Hf]); exists r, w'; split; eauto.
    + unfold add_text, try_exceptM, mbind', mret', dict_update. rewrite Hl.
      eexists _, _. split; [reflexivity|]. right. split; [eexists|]; reflexivity.
  - pose (w0 := {| collection := collection w;
                   heap := <[fresh (dom (heap w)) := ∅]> (heap w) |}).
    assert (Hl : heap w0 !! fresh (dom (heap w)) = Some ∅)
      by (simpl; apply lookup_insert_eq).
    destruct (add_text_from_marked rag text _ _ w0 Hl)
      as (r & w' & Hr & _ & Hcase).
    exists r, w'. split.
    + rewrite <- Hr. reflexivity.
    + destruct Hcase as [Hs|Hf]; [left; eauto | right; exact Hf].
Qed.

Lemma search_failure_empty (rag : RAGSystem) (q : string) (n : Z)
    (f : option (gmap string pyval)) (w : World C) :
  search_failed rag q n f w -> search rag q n f w = (inr [], w).
Proof.
  unfold search, try_exceptM, mbind', mret', lift, collection_query.
  intros [[e He] | [He | (emb & rest & e & He & Hq)]]; rewrite He; simpl;
    [reflexivity | reflexivity | now rewrite Hq].
Qed.

End WriteOutcomes.

(** C4, as stated, fails for the search path: with an embedding model that
    raises, [search] returns the empty list and the world is untouched, which
    is exactly what a working system answers on an empty collection. *)
Lemma search_failure_looks_like_no_match :
  (exists e, Rag.encode Demo.broken_rag ["hello"] = inl e) /\
  Rag.search Demo.broken_rag "hello" 5 None Demo.empty_world
    = (inr [], Demo.empty_world) /\
  Rag.search Demo.demo_rag "hello" 5 None Demo.empty_world
    = (inr [], Demo.empty_world).
Proof.
  split; [eexists; reflexivity|]. split; reflexivity.
Qed.

(** C4 (amended): [add_document] and [add_text] never raise and end in one of
    two ways: either every step returned normally (the embeddings were
    generated and the collection accepted the batch) and the result is the
    success dictionary, or the result is [{success: False, error: <message>}]
    and the collection is unchanged.  [search], however, turns every failure of
    the embedding model or of the collection's query into the empty result
    list. *)
Theorem store_failures_reported_search_failures_emptied
    {C : Type} `{Rag.Collection C} (rag : Rag.RAGSystem) (w : Rag.World C) :
  (forall p, exists r w', Rag.add_document rag p w = (inr r, w') /\
      (Rag.document_stored rag p w r w' \/
       (Rag.reported_failure r /\ w' = w))) /\
  (forall text metadata, exists r w', Rag.add_text rag text metadata w = (inr r, w') /\
      ((exists d, Rag.text_stored rag text d w r w') \/
       (Rag.reported_failure r /\ Rag.collection w' = Rag.collection w))) /\
  (forall q n f, Rag.search_failed rag q n f w ->
      Rag.search rag q n f w = (inr [], w)).
Proof.
  split; [|split].
  - intros p. apply add_document_outcome.
  - intros text metadata. apply add_text_outcome.
  - intros q n f. apply search_failure_empty.
Qed.

Lemma store_failures_reported_search_failures_emptied_witness :
  Rag.search_failed Demo.broken_rag "hello" 5 None Demo.empty_world /\
  Rag.search Demo.broken_rag "hello" 5 None Demo.empty_world
    = (inr [], Demo.empty_world).
Proof.
  assert (Hf : Rag.search_failed Demo.broken_rag "hello" 5 None Demo.empty_world)
    by (left; eexists; reflexivity).
  split; [exact Hf|].
  apply (store_failures_reported_search_failures_emptied Demo.broken_rag
           Demo.empty_world).
  exact Hf.
Defined.

(** C9: when [add_text] is given the caller's metadata dictionary, that very
    dictionary holds [source], [added_at] and [type] after the call, whether
    the call succeeded or not; its other keys and every other dictionary are
    as before. *)
Theorem add_text_mutates_caller_metadata
    {C : Type} `{Rag.Collection C} (rag : Rag.RAGSystem) (text : string)
    (l : nat) (d : gmap string pyval) (w : Rag.World C) :
  Rag.heap w !! l = Some d ->
  exists r w' d',
    Rag.add_text rag text (Some l) w = (inr r, w') /\
    Rag.heap w' = <[l := d']> (Rag.heap w) /\
    d' !! "source" = Some (PyStr "manual_input") /\
    d' !! "added_at" = Some (PyStr (Rag.now_iso rag)) /\
    d' !! "type" = Some (PyStr "text") /\
    (forall k, k ∉ ["source"; "added_at"; "type"] -> d' !! k = d !! k).
Proof.
  intros Hl.
  destruct (add_text_from_marked rag text l d w Hl) as (r & w' & Hr & Hh & _).
  exists r, w', (Rag.text_marks rag ∪ d). split; [exact Hr|]. split; [exact Hh|].
  split; [apply lookup_union_Some_l; reflexivity|].
  split; [apply lookup_union_Some_l; reflexivity|].
  split; [apply lookup_union_Some_l; reflexivity|].
  intros k Hk. apply lookup_union_r. unfold Rag.text_marks.
  assert (Hs : "source" <> k) by (intros <-; apply Hk; set_solver).
  assert (Ha : "added_at" <> k) by (intros <-; apply Hk; set_solver).
  assert (Ht : "type" <> k) by (intros <-; apply Hk; set_solver).
  rewrite lookup_insert_ne, lookup_insert_ne by assumption.
  now apply lookup_singleton_ne.
Qed.

Lemma add_text_mutates_caller_metadata_witness :
  Rag.heap Demo.caller_world !! 0%nat = Some Demo.caller_metadata /\
  exists r w' d',
    Rag.add_text Demo.demo_rag "hello world" (Some 0%nat) Demo.caller_world = (inr r, w') /\
    Rag.heap w' = <[0%nat := d']> (Rag.heap Demo.caller_world) /\
    d' !! "source" = Some (PyStr "manual_input") /\
    d' !! "added_at" = Some (PyStr (Rag.now_iso Demo.demo_rag)) /\
    d' !! "type" = Some (PyStr "text") /\
    (forall k, k ∉ ["source"; "added_at"; "type"] -> d' !! k = Demo.caller_metadata !! k).
Proof.
  split; [reflexivity|].
  apply (add_text_mutates_caller_metadata Demo.demo_rag "hello world" 0%nat
           Demo.caller_metadata Demo.caller_world).
  reflexivity.
Defined.

(** The caller's dictionary before and after, read back from the heap. *)
Example add_text_caller_sees_change :
  Rag.heap Demo.caller_world !! 0%nat
    = Some ({[ "source" := PyStr "test"; "type" := PyStr "sample" ]} : gmap string pyval) /\
  Rag.heap (Rag.add_text Demo.demo_rag "hello world" (Some 0%nat) Demo.caller_world).2 !! 0%nat
    = Some ({[ "source" := PyStr "manual_input";
               "added_at" := PyStr "2024-05-01T10:00:00";
               "type" := PyStr "text" ]} : gmap string pyval).
Proof. split; reflexivity. Qed.

(** * Task classification *)

Section ClassifierFacts.
Import TaskAutomation.

Lemma analyze_task_is_first_match task context :
  _analyze_task task context = classify_by_priority task.
Proof.
  unfold _analyze_task, classify_by_priority, priority_table. cbn [find].
  destruct (any_in path_keywords (lower task)); [reflexivity|].
  destruct (any_in python_keywords (lower task)); [reflexivity|].
  destruct (any_in package_keywords (lower task)); [reflexivity|].
  destruct (any_in command_keywords (lower task)); reflexivity.
Qed.

End ClassifierFacts.

(** C3: [_analyze_task] is the first-match classification over the four
    keyword sets in the order path_addition (0.9), python_setup (0.8),
    package_installation (0.8), system_command (0.7), tested on the
    lower-cased text, with [unknown]/0.0 when none matches (as for ["Good Morning"]); and
    ["add python to path and install numpy"], which matches both the path and
    the package sets, is classified [path_addition]. *)
Theorem analyze_task_priority_order :
  (forall task context,
     TaskAutomation._analyze_task task context =
     TaskAutomation.classify_by_priority task) /\
  map (fun '(t, _, c) => (t, c)) TaskAutomation.priority_table =
    [ ("path_addition", 9 # 10); ("python_setup", 8 # 10);
      ("package_installation", 8 # 10); ("system_command", 7 # 10) ] /\
  TaskAutomation.classify_by_priority "Good Morning" = TaskAutomation.analysis "unknown" 0 /\
  any_in TaskAutomation.package_keywords (lower "add python to path and install numpy") = true /\
  TaskAutomation._analyze_task "add python to path and install numpy" ""
    = TaskAutomation.analysis "path_addition" (9 # 10).
Proof.
  split; [exact analyze_task_is_first_match|].
  split; [reflexivity|].
  repeat split; reflexivity.
Qed.

(** * Task executor *)

Section ExecutorFacts.
Import TaskAutomation.
Context {W : Type} `{Host W}.

Lemma failure_has_success msg : has_success (failure msg).
Proof. exists false. reflexivity. Qed.

Lemma succeeded_has_success msg : has_success (succeeded msg).
Proof. exists true. reflexivity. Qed.

Lemma add_to_path_windows_total p permanent (w : W) :
  exists d w', _add_to_path_windows p permanent w = (inr d, w') /\ has_success d.
Proof.
  unfold _add_to_path_windows, try_exceptM, mbind', mret', read, write.
  destruct permanent.
  - destruct (subprocess_run _ true None w) as [[e|result] w1].
    + eexists _, _. split; [reflexivity | apply failure_has_success].
    + destruct (returncode result =? 0); eexists _, _;
        (split; [reflexivity|]);
        [apply succeeded_has_success | apply failure_has_success].
  - eexists _, _. split; [reflexivity | apply succeeded_has_success].
Qed.

Lemma add_to_path_unix_total p permanent (w : W) :
  exists d w', _add_to_path_unix p permanent w = (inr d, w') /\ has_success d.
Proof.
  unfold _add_to_path_unix, try_exceptM, mbind', mret', read, write.
  destruct permanent.
  - destruct (append_text _ _ w) as [[e|[]] w1]; eexists _, _;
      (split; [reflexivity|]);
      [apply failure_has_success | apply succeeded_has_success].
  - eexists _, _. split; [reflexivity | apply succeeded_has_success].
Qed.

(** [add_to_path] never raises, and its result always says [success]. *)
Lemma add_to_path_total p permanent (w : W) :
  exists d w', add_to_path p permanent w = (inr d, w') /\ has_success d.
Proof.
  unfold add_to_path, try_exceptM, mbind', mret', read.
  destruct (path_resolve p w) as [[e|p'] w1].
  { eexists _, _. split; [reflexivity | apply failure_has_success]. }
  destruct (os_path_exists p' w1); simpl.
  2:{ eexists _, _. split; [reflexivity | apply failure_has_success]. }
  destruct (contains p' _).
  { eexists _, _. split; [reflexivity | exists true; reflexivity]. }
  destruct is_windows.
  - destruct (add_to_path_windows_total p' permanent w1) as (d & w' & -> & Hd).
    eexists _, _. split; [reflexivity | exact Hd].
  - destruct (add_to_path_unix_total p' permanent w1) as (d & w' & -> & Hd).
    eexists _, _. split; [reflexivity | exact Hd].
Qed.

End ExecutorFacts.

(** C5: [run_command] never raises.  When the subprocess completes, the result
    is [{success, returncode, stdout, stderr}] with [success] true exactly when
    the return code is 0; when it times out, the result has [success = False]
    and [timeout = True]; any other exception of the subprocess call becomes
    [{success: False, error: str(e)}]. *)
Theorem run_command_always_returns_result
    {W : Type} `{TaskAutomation.Host W}
    (command : string) (shell : bool) (timeout : Z) (w : W) :
  exists r w',
    TaskAutomation.run_command command shell timeout w = (inr r, w') /\
    match TaskAutomation.subprocess_run (TaskAutomation.Shell command) shell
            (Some timeout) w with
    | (inr result, w1) =>
        w' = w1 /\
        r = {[ "success" := PyBool (TaskAutomation.returncode result =? 0);
               "returncode" := PyInt (TaskAutomation.returncode result);
               "stdout" := PyStr (TaskAutomation.stdout result);
               "stderr" := PyStr (TaskAutomation.stderr result) ]} /\
        (r !! "success" = Some (PyBool true) <-> TaskAutomation.returncode result = 0)
    | (inl e, w1) =>
        w' = w1 /\
        r !! "success" = Some (PyBool false) /\
        r !! "returncode" = None /\
        (if is_timeout e
         then r !! "timeout" = Some (PyBool true) /\
              r !! "error" = Some (PyStr "Command timed out")
         else r !! "timeout" = None /\
              r !! "error" = Some (PyStr (str_of_exc e)))
    end.
Proof.
  unfold TaskAutomation.run_command, try_exceptM, mbind', mret'.
  destruct (TaskAutomation.subprocess_run _ shell (Some timeout) w)
    as [[e|result] w1].
  - destruct (is_timeout e) eqn:Ht; eexists _, _; (split; [reflexivity|]);
      rewrite ?Ht; repeat split; reflexivity.
  - eexists _, _. split; [reflexivity|]. split; [reflexivity|].
    split; [reflexivity|].
    change (Some (PyBool (TaskAutomation.returncode result =? 0)) = Some (PyBool true)
            <-> TaskAutomation.returncode result = 0).
    destruct (Z.eqb_spec (TaskAutomation.returncode result) 0); split;
      intros; congruence.
Qed.

(** The specification's round trip, and a timeout, on the example host. *)
Example run_command_echo :
  (TaskAutomation.run_command "echo hello" true 5 "").1 =
    inr ({[ "success" := PyBool true; "returncode" := PyInt 0;
            "stdout" := PyStr ("hello" +:+ nl); "stderr" := PyStr "" ]}
         : gmap string pyval) /\
  (TaskAutomation.run_command "sleep 60" true 30 "").1 =
    inr ({[ "success" := PyBool false; "error" := PyStr "Command timed out";
            "timeout" := PyBool true ]} : gmap string pyval).
Proof. split; reflexivity. Qed.

(** C10: once [get_python_installations] has found at least one interpreter,
    [_solve_python_setup_task] answers [success = True] and
    [task_solved = True] with no [error], whatever [add_to_path] said; the
    [success] flag of the first [add_to_path] call (the interpreter's
    directory) is copied to [path_added], and the outcome for the [Scripts]
    directory appears nowhere. *)
Theorem python_setup_reports_success_regardless
    {W : Type} `{TaskAutomation.Host W}
    (task context : string) (w w1 : W)
    (first : TaskAutomation.installation) (rest : list TaskAutomation.installation) :
  TaskAutomation.get_python_installations w = (inr (first :: rest), w1) ->
  exists r w' path_result w2,
    TaskAutomation._solve_python_setup_task task context w = (inr r, w') /\
    TaskAutomation.add_to_path
      (TaskAutomation.os_path_dirname
         (TaskAutomation.path
            (fold_left TaskAutomation.better (first :: rest) first))) true w1
      = (inr path_result, w2) /\
    r !! "success" = Some (PyBool true) /\
    r !! "task_solved" = Some (PyBool true) /\
    r !! "error" = None /\
    r !! "path_added" = path_result !! "success" /\
    dom r = {[ "success"; "task_solved"; "action_taken"; "python_path";
               "python_version"; "path_added" ]}.
Proof.
  intros Hfound.
  unfold TaskAutomation._solve_python_setup_task, mbind', mret', lift,
    TaskAutomation.read.
  rewrite Hfound.
  destruct (add_to_path_total
              (TaskAutomation.os_path_dirname
                 (TaskAutomation.path
                    (fold_left TaskAutomation.better (first :: rest) first)))
              true w1) as (path_result & w2 & Hadd & [b Hb]).
  rewrite Hadd.
  assert (Hget : getitem path_result "success" = inr (PyBool b))
    by (unfold getitem; now rewrite Hb).
  destruct (TaskAutomation.os_path_exists _ w2).
  - destruct (add_to_path_total
                (TaskAutomation.os_path_join
                   (TaskAutomation.os_path_dirname
                      (TaskAutomation.path
                         (fold_left TaskAutomation.better (first :: rest) first)))
                   "Scripts") true w2) as (scripts_result & w3 & Hadd2 & _).
    rewrite Hadd2, Hget. eexists _, w3, path_result, w2.
    split; [reflexivity|]. split; [reflexivity|].
    rewrite Hb. repeat split; reflexivity.
  - rewrite Hget. eexists _, w2, path_result, w2.
    split; [reflexivity|]. split; [reflexivity|].
    rewrite Hb. repeat split; reflexivity.
Qed.

Lemma python_setup_reports_success_regardless_witness :
  TaskAutomation.get_python_installations "C:\Windows"
    = (inr [DemoHostFacts.python39], "C:\Windows") /\
  exists r w' path_result w2,
    TaskAutomation._solve_python_setup_task "set up python" "" "C:\Windows" = (inr r, w') /\
    TaskAutomation.add_to_path
      (TaskAutomation.os_path_dirname
         (TaskAutomation.path
            (fold_left TaskAutomation.better [DemoHostFacts.python39]
               DemoHostFacts.python39))) true "C:\Windows"
      = (inr path_result, w2) /\
    r !! "success" = Some (PyBool true) /\
    r !! "task_solved" = Some (PyBool true) /\
    r !! "error" = None /\
    r !! "path_added" = path_result !! "success" /\
    dom r = {[ "success"; "task_solved"; "action_taken"; "python_path";
               "python_version"; "path_added" ]}.
Proof.
  split; [reflexivity|].
  apply (python_setup_reports_success_regardless "set up python" ""
           "C:\Windows" "C:\Windows" DemoHostFacts.python39 []).
  reflexivity.
Defined.

(** On the example host [add_to_path] fails for the interpreter's directory,
    and the resolver still answers success. *)
Example python_setup_with_failed_path_addition :
  (TaskAutomation.add_to_path "C:\Python39" true "C:\Windows").1
    = inr (TaskAutomation.failure "Path does not exist: C:\Python39") /\
  (TaskAutomation._solve_python_setup_task "set up python" "" "C:\Windows").1
    = inr ({[ "success" := PyBool true;
              "task_solved" := PyBool true;
              "action_taken" := PyStr "Configured Python Python 3.9.1 and added to PATH";
              "python_path" := PyStr "C:\Python39\python.exe";
              "python_version" := PyStr "Python 3.9.1";
              "path_added" := PyBool false ]} : gmap string pyval).
Proof. split; reflexivity. Qed.

(** * Conversation orchestrator *)

Section PostProcessFacts.
Import EnhancedChat.
Context {S : Type} `{Collaborators S}.

(** What [_post_process_response] appends, and when. *)
Lemma post_process_cases response user_message :
  _post_process_response response user_message =
    (response
       +:+ (if knowledge_base_enabled && contains "knowledge base" (lower response)
            then kb_note else ""))
      +:+ (if task_automation_enabled && _is_task_request user_message
           then task_hint else "").
Proof.
  unfold _post_process_response.
  assert (Hnil : forall a : string, a +:+ "" = a).
  { induction a as [|x a IH]; [reflexivity|].
    change (String x a +:+ "") with (String x (a +:+ "")). now rewrite IH. }
  destruct (knowledge_base_enabled && _); destruct (task_automation_enabled && _);
    now rewrite ?Hnil.
Qed.

(** On the answer path the message is not a task request, so the task
    hint is never appended there; the attribution note depends on the
    knowledge base being configured, not on any context being found. *)
Lemma answer_path_post_process response user_message :
  _is_task_request user_message = false ->
  _post_process_response response user_message =
    if knowledge_base_enabled && contains "knowledge base" (lower response)
    then response +:+ kb_note else response.
Proof.
  intros Hno. unfold _post_process_response.
  now rewrite Hno, andb_false_r.
Qed.

Lemma answer_path_response user_message (w : World S) :
  _is_task_request user_message = false ->
  forall context_ w1 parts w2,
    fetch_context user_message w = (inr context_, w1) ->
    outer (stream_chat
             [ {| Chat.role := "user";
                  Chat.content := _create_enhanced_prompt
                                    (current_topic (context w1)) user_message context_ |} ]
             1024 (7 # 10)) w1 = (inr parts, w2) ->
    get_enhanced_response user_message w =
      (inr (_post_process_response (join "" parts) user_message), w2).
Proof.
  intros Hno context_ w1 parts w2 Hctx Hllm.
  unfold get_enhanced_response, try_exceptM, mbind', mret'.
  now rewrite Hno, Hctx, Hllm.
Qed.

End PostProcessFacts.

(** C6 (the code departs from it): with a knowledge base configured but empty,
    the question ["what is rust?"] takes the answer path, no context is
    retrieved, and the reply, which happens to mention the knowledge base,
    still gets the attribution note appended.  The task hint is not appended. *)
Theorem attribution_note_without_context :
  EnhancedChat._is_task_request "what is rust?" = false /\
  EnhancedChat.fetch_context "what is rust?" DemoChat.fresh_session
    = (inr "", DemoChat.fresh_session) /\
  EnhancedChat.get_enhanced_response "what is rust?" DemoChat.fresh_session
    = (inr ("Nothing in the knowledge base covers that." +:+ EnhancedChat.kb_note),
       DemoChat.fresh_session).
Proof. repeat split; reflexivity. Qed.

Example dumps_ex :
  Chat.dumps {| Chat.role := "user"; Chat.content := "say " +:+ Json.quote ("hi" +:+ Json.quote "") +:+ nl +:+ "now" |}
  = "{" +:+ Json.quote ("role" +:+ Json.quote (": " +:+ Json.quote ("user" +:+ Json.quote (", " +:+
     Json.quote ("content" +:+ Json.quote (": " +:+ Json.quote ("say \" +:+ Json.quote ("hi\" +:+ Json.quote ("\nnow" +:+ Json.quote "}"))))))))).
Proof. reflexivity. Qed.

Example loads_ex :
  Json.loads (Chat.dumps {| Chat.role := "user"; Chat.content := "say " +:+ Json.quote ("hi" +:+ Json.quote "") +:+ nl +:+ "now" |})
  = Some {[ "role" := "user"; "content" := "say " +:+ Json.quote ("hi" +:+ Json.quote "") +:+ nl +:+ "now" ]}.
Proof. reflexivity. Qed.

Example transcript_ex :
  Chat.load_conversation (Chat.save Chat.WindowsNewline
     (Chat.add_assistant (Chat.add_user [] "hello") ("hi" +:+ nl +:+ "there")))
  = Some [("hello", "user"); ("hi" +:+ nl +:+ "there", "assistant")].
Proof. reflexivity. Qed.

Example transcript_empty : Chat.transcript_as_jsonl [] = nl /\ Chat.readlines nl = [nl]
   /\ Chat.load_conversation (Chat.save Chat.PosixNewline []) = Some [].
Proof. repeat split. Qed.

(** * JSON strings *)

Section JsonFacts.
Import Json.

Lemma app_cons x (a b : string) : String x a +:+ b = String x (a +:+ b).
Proof. reflexivity. Qed.

Lemma app_nil_l (b : string) : "" +:+ b = b.
Proof. reflexivity. Qed.

Lemma string_app_assoc (a b c : string) : (a +:+ b) +:+ c = a +:+ (b +:+ c).
Proof.
  induction a as [|x a IH]; [reflexivity|].
  rewrite !app_cons. f_equal. exact IH.
Qed.

Lemma string_app_nil_r (a : string) : a +:+ "" = a.
Proof.
  induction a as [|x a IH]; [reflexivity|].
  rewrite app_cons. f_equal. exact IH.
Qed.

Ltac each_char c :=
  destruct c as [[] [] [] [] [] [] [] []].

(** Decoding undoes the escape of one character. *)
Lemma scan_escape_char c tail v rest :
  scan_string tail = Some (v, rest) ->
  scan_string (escape_char c +:+ tail) = Some (String c v, rest).
Proof.
  intros Ht. each_char c;
    (match goal with |- context [escape_char ?x] =>
       let e := eval vm_compute in (escape_char x) in
       change (escape_char x) with e
     end);
    rewrite ?app_cons, ?app_nil_l; cbn; rewrite Ht; reflexivity.
Qed.

Lemma scan_escape s : forall rest,
  scan_string (escape s +:+ quote rest) = Some (s, rest).
Proof.
  induction s as [|c s IH]; intros rest.
  - reflexivity.
  - cbn [escape]. rewrite string_app_assoc. apply scan_escape_char, IH.
Qed.

Lemma no_control_app a b : no_control (a +:+ b) = no_control a && no_control b.
Proof.
  induction a as [|c a IH]; [reflexivity|].
  rewrite app_cons. cbn [no_control]. rewrite IH. apply andb_assoc.
Qed.

Lemma escape_char_no_control c : no_control (escape_char c) = true.
Proof. each_char c; vm_compute; reflexivity. Qed.

Lemma escape_no_control s : no_control (escape s) = true.
Proof.
  induction s as [|c s IH]; [reflexivity|].
  cbn [escape]. now rewrite no_control_app, escape_char_no_control, IH.
Qed.

Lemma dumps_str_app s x : dumps_str s +:+ x = quote (escape s +:+ quote x).
Proof.
  unfold dumps_str, quote.
  now rewrite app_cons, string_app_assoc, app_cons, app_nil_l.
Qed.

Lemma dumps_item_app k v tail :
  dumps_item (k, v) +:+ tail =
  quote (escape k +:+ quote (": " +:+ quote (escape v +:+ quote tail))).
Proof.
  unfold dumps_item. cbn [fst snd].
  now rewrite string_app_assoc, string_app_assoc, dumps_str_app, dumps_str_app.
Qed.

Lemma skip_ws_keep c r : is_ws c = false -> skip_ws (String c r) = String c r.
Proof. intros Hc. cbn [skip_ws]. now rewrite Hc. Qed.

Lemma skip_ws_drop c r : is_ws c = true -> skip_ws (String c r) = skip_ws r.
Proof. intros Hc. cbn [skip_ws]. now rewrite Hc. Qed.

Lemma skip_ws_quote x : skip_ws (quote x) = quote x.
Proof. now apply skip_ws_keep. Qed.

(** One member read from its own serialization. *)
Lemma parse_member_step f k v tail acc :
  parse_members (S f) (dumps_item (k, v) +:+ tail) acc =
  match skip_ws tail with
  | String sep r5 =>
      if Ascii.eqb sep "," then parse_members f (skip_ws r5) (<[k := v]> acc)
      else if Ascii.eqb sep "}" then Some (<[k := v]> acc, r5)
      else None
  | EmptyString => None
  end.
Proof.
  rewrite dumps_item_app. unfold quote at 1. cbn [parse_members].
  rewrite Ascii.eqb_refl, scan_escape.
  rewrite !app_cons, !app_nil_l.
  rewrite skip_ws_keep by reflexivity. cbv beta iota.
  rewrite Ascii.eqb_refl, skip_ws_drop, skip_ws_quote by reflexivity.
  unfold quote at 1. cbv beta iota.
  rewrite Ascii.eqb_refl, scan_escape. reflexivity.
Qed.

Lemma join_items_quote item items tail :
  exists x, join ", " (map dumps_item (item :: items)) +:+ tail = quote x.
Proof.
  destruct item as [k v]. cbn [map join].
  destruct items as [|i2 more]; cbn [map].
  - rewrite dumps_item_app. eauto.
  - rewrite string_app_assoc, dumps_item_app. eauto.
Qed.

(** The members of a serialized object are read back in order. *)
Lemma parse_members_items items : forall f acc rest item,
  (List.length items < f)%nat ->
  parse_members f (join ", " (map dumps_item (item :: items)) +:+ "}" +:+ rest) acc
  = Some (fold_left put (item :: items) acc, rest).
Proof.
  induction items as [|i2 more IH]; intros f acc rest [k v] Hf;
    (destruct f as [|f]; [simpl in Hf; lia|]).
  - cbn [map join fold_left]. rewrite parse_member_step.
    rewrite app_cons, skip_ws_keep by reflexivity. reflexivity.
  - change (join ", " (map dumps_item ((k, v) :: i2 :: more)))
      with (dumps_item (k, v) +:+ ", " +:+ join ", " (map dumps_item (i2 :: more))).
    rewrite string_app_assoc, string_app_assoc, parse_member_step.
    rewrite !app_cons, !app_nil_l.
    rewrite skip_ws_keep by reflexivity. cbv beta iota.
    rewrite Ascii.eqb_refl, skip_ws_drop by reflexivity.
    destruct (join_items_quote i2 more (String "}" rest)) as [x Hx].
    rewrite Hx, skip_ws_quote, <- Hx.
    change (String "}" rest) with ("}" +:+ rest).
    rewrite IH by (simpl in Hf; lia). reflexivity.
Qed.

Lemma join_items_length items : forall item tail,
  (List.length items <
     String.length (join ", " (map dumps_item (item :: items)) +:+ tail))%nat.
Proof.
  induction items as [|i2 more IH]; intros [k v] tail.
  - cbn [map join]. rewrite dumps_item_app. simpl. lia.
  - change (join ", " (map dumps_item ((k, v) :: i2 :: more)))
      with (dumps_item (k, v) +:+ ", " +:+ join ", " (map dumps_item (i2 :: more))).
    rewrite !string_app_assoc, string_length_app, string_length_app.
    specialize (IH i2 tail). simpl List.length.
    change (String.length ", ") with 2%nat. lia.
Qed.

(** Decoding a serialized object gives back its items. *)
Lemma loads_dumps_object item items :
  loads (dumps_object (item :: items)) = Some (fold_left put (item :: items) ∅).
Proof.
  unfold loads, dumps_object. rewrite app_cons, app_nil_l.
  rewrite skip_ws_keep by reflexivity. cbn [parse_object].
  rewrite Ascii.eqb_refl.
  destruct (join_items_quote item items "}") as [x Hx].
  rewrite Hx, skip_ws_quote. unfold quote at 1. cbv beta iota.
  change (Ascii.eqb dquote "}") with false. cbv beta iota.
  fold (quote x). rewrite <- Hx.
  change "}" with ("}" +:+ "") at 2.
  rewrite parse_members_items by apply join_items_length.
  reflexivity.
Qed.

Lemma no_control_dumps_str s : no_control (dumps_str s) = true.
Proof.
  unfold dumps_str, quote. cbn [no_control].
  now rewrite no_control_app, escape_no_control.
Qed.

Lemma no_control_dumps_item k v : no_control (dumps_item (k, v)) = true.
Proof.
  change (dumps_item (k, v)) with (dumps_str k +:+ ": " +:+ dumps_str v).
  now rewrite !no_control_app, !no_control_dumps_str.
Qed.

Lemma no_control_join_items items :
  no_control (join ", " (map dumps_item items)) = true.
Proof.
  induction items as [|[k v] items IH]; [reflexivity|].
  destruct items as [|i2 more].
  - apply no_control_dumps_item.
  - change (join ", " (map dumps_item ((k, v) :: i2 :: more)))
      with (dumps_item (k, v) +:+ ", " +:+ join ", " (map dumps_item (i2 :: more))).
    now rewrite !no_control_app, no_control_dumps_item, IH.
Qed.

Lemma no_control_dumps_object items : no_control (dumps_object items) = true.
Proof.
  unfold dumps_object.
  now rewrite !no_control_app, no_control_join_items.
Qed.

End JsonFacts.

(** * Transcript file *)

Section TranscriptFacts.
Import Json Chat.

Lemma printable_not_eol c :
  (32 <=? nat_of_ascii c)%nat = true ->
  Ascii.eqb c LF = false /\ Ascii.eqb c CR = false.
Proof.
  intros Hc. split.
  - destruct (Ascii.eqb_spec c LF) as [->|]; [discriminate Hc | reflexivity].
  - destruct (Ascii.eqb_spec c CR) as [->|]; [discriminate Hc | reflexivity].
Qed.

(** Characters that are not control characters only extend the line. *)
Lemma readlines_from_app s : forall cur tail,
  no_control s = true ->
  readlines_from cur (s +:+ tail) = readlines_from (cur +:+ s) tail.
Proof.
  induction s as [|c s IH]; intros cur tail Hs.
  - now rewrite app_nil_l, string_app_nil_r.
  - cbn [no_control] in Hs. apply andb_true_iff in Hs as [Hc Hs].
    destruct (printable_not_eol c Hc) as [Hlf Hcr].
    rewrite app_cons. cbn [readlines_from]. rewrite Hlf, Hcr.
    rewrite IH by assumption. f_equal.
    now rewrite string_app_assoc, app_cons, app_nil_l.
Qed.

Lemma write_text_app sep a b :
  write_text sep (a +:+ b) = write_text sep a +:+ write_text sep b.
Proof.
  induction a as [|c a IH]; [reflexivity|].
  rewrite app_cons. cbn [write_text].
  destruct (Ascii.eqb c LF); [destruct sep|];
    rewrite IH, ?app_cons; reflexivity.
Qed.

Lemma write_text_printable sep s : no_control s = true -> write_text sep s = s.
Proof.
  induction s as [|c s IH]; intros Hs; [reflexivity|].
  cbn [no_control] in Hs. apply andb_true_iff in Hs as [Hc Hs].
  destruct (printable_not_eol c Hc) as [Hlf _].
  cbn [write_text]. rewrite Hlf. f_equal. now apply IH.
Qed.

(** A line written and read again, whatever the platform's line end. *)
Lemma readlines_written_line sep s rest :
  no_control s = true ->
  readlines_from "" (write_text sep (s +:+ nl +:+ rest))
  = (s +:+ nl) :: readlines_from "" (write_text sep rest).
Proof.
  intros Hs. rewrite !write_text_app, write_text_printable by assumption.
  rewrite readlines_from_app by assumption. rewrite app_nil_l.
  destruct sep; reflexivity.
Qed.

(** For a conversation that is not empty, joining with line feeds and
    adding the final one is the same as ending every object's line. *)
Lemma jsonl_lines m ms :
  transcript_as_jsonl (m :: ms) = one_object_per_line (m :: ms).
Proof.
  unfold transcript_as_jsonl, one_object_per_line.
  revert m. induction ms as [|m2 ms IH]; intros m.
  - reflexivity.
  - change (join nl (map dumps (m :: m2 :: ms)))
      with (dumps m +:+ nl +:+ join nl (map dumps (m2 :: ms))).
    rewrite !string_app_assoc, IH. reflexivity.
Qed.

Lemma readlines_one_object_per_line sep msgs :
  readlines (write_text sep (one_object_per_line msgs))
  = map (fun m => dumps m +:+ nl) msgs.
Proof.
  unfold readlines. induction msgs as [|m ms IH]; [reflexivity|].
  cbn [one_object_per_line fold_right map].
  rewrite readlines_written_line by apply no_control_dumps_object.
  f_equal. exact IH.
Qed.

Lemma rstrip_app_nl s : rstrip (s +:+ nl) = rstrip s.
Proof.
  induction s as [|c s IH]; [reflexivity|].
  rewrite app_cons. cbn [rstrip]. now rewrite IH.
Qed.

Lemma rstrip_ends_nonspace s c :
  isspace c = false -> rstrip (s +:+ String c "") = s +:+ String c "".
Proof.
  intros Hc. induction s as [|a s IH].
  - rewrite app_nil_l. cbn [rstrip]. now rewrite Hc.
  - rewrite app_cons. cbn [rstrip]. rewrite IH.
    destruct s; reflexivity.
Qed.

Lemma lstrip_keep c r : isspace c = false -> lstrip (String c r) = String c r.
Proof. intros Hc. cbn [lstrip]. now rewrite Hc. Qed.

(** A serialized message survives [strip] without its line end. *)
Lemma strip_dumps_line m : strip (dumps m +:+ nl) = dumps m.
Proof.
  unfold strip.
  assert (H1 : dumps m +:+ nl =
               String "{" ((join ", " (map dumps_item (items m)) +:+ "}") +:+ nl))
    by reflexivity.
  rewrite H1, lstrip_keep by reflexivity. rewrite <- H1, rstrip_app_nl.
  assert (H2 : dumps m = ("{" +:+ join ", " (map dumps_item (items m))) +:+ "}")
    by (unfold dumps, dumps_object; now rewrite string_app_assoc).
  rewrite H2. now apply rstrip_ends_nonspace.
Qed.

Lemma dumps_truthy m : truthy (dumps m) = true.
Proof. reflexivity. Qed.

Lemma loads_dumps m : loads (dumps m) = Some (as_dict m).
Proof.
  unfold dumps, items. rewrite loads_dumps_object. reflexivity.
Qed.

Lemma parse_lines_dumped msgs :
  parse_lines (map (fun m => dumps m +:+ nl) msgs) = Some (map as_dict msgs).
Proof.
  induction msgs as [|m ms IH]; [reflexivity|].
  cbn [map parse_lines].
  now rewrite strip_dumps_line, dumps_truthy, loads_dumps, IH.
Qed.

Lemma parse_saved sep msgs :
  parse_lines (readlines (save sep msgs)) = Some (map as_dict msgs).
Proof.
  unfold save. destruct msgs as [|m ms].
  - destruct sep; reflexivity.
  - now rewrite jsonl_lines, readlines_one_object_per_line, parse_lines_dumped.
Qed.

Lemma shown_as_dict m :
  shown (as_dict m) = if visible m then [(content m, role m)] else [].
Proof.
  unfold shown, visible, as_dict.
  rewrite lookup_insert_eq, lookup_insert_ne, lookup_singleton_eq by discriminate.
  cbn [from_option id].
  destruct (String.eqb_spec (role m) "user") as [->|Hu].
  - reflexivity.
  - rewrite bool_decide_eq_false_2 by congruence.
    destruct (String.eqb_spec (role m) "assistant") as [->|Ha].
    + reflexivity.
    + rewrite bool_decide_eq_false_2 by congruence. reflexivity.
Qed.

Lemma load_saved sep msgs :
  load_conversation (save sep msgs)
  = Some (map (fun m => (content m, role m)) (List.filter visible msgs)).
Proof.
  unfold load_conversation. rewrite parse_saved. f_equal.
  induction msgs as [|m ms IH]; [reflexivity|].
  cbn [map concat List.filter]. rewrite shown_as_dict, IH.
  destruct (visible m); reflexivity.
Qed.

End TranscriptFacts.

(** C8, as stated, fails for the empty conversation: its transcript is a lone
    line feed, so the file has one line for no message, and that line is not a
    JSON object. *)
Lemma empty_transcript_has_a_line :
  Chat.transcript_as_jsonl [] = nl /\
  Chat.transcript_as_jsonl [] <> Chat.one_object_per_line [] /\
  Chat.readlines (Chat.save Chat.PosixNewline []) = [nl] /\
  Json.loads nl = None.
Proof.
  split; [reflexivity|]. split; [discriminate|]. split; reflexivity.
Qed.

(** C8 (amended): for a conversation of at least one message the transcript is
    exactly one serialized [{role, content}] object per message, each followed
    by a line feed; the transcript of the empty conversation is a single line
    feed.  Every serialized message decodes to its own [role] and [content],
    and for every conversation, empty or not, and either platform line end,
    reading the saved file line by line and decoding the lines that are not
    blank gives the messages back, as many and in the same order; the loader
    shows again those whose role is [user] or [assistant]. *)
Theorem transcript_round_trip :
  (forall m ms,
     Chat.transcript_as_jsonl (m :: ms) = Chat.one_object_per_line (m :: ms)) /\
  Chat.transcript_as_jsonl [] = nl /\
  (forall m, Json.loads (Chat.dumps m) = Some (Chat.as_dict m)) /\
  (forall sep msgs,
     Chat.readlines (Chat.save sep (msgs)) =
       match msgs with
       | [] => [nl]
       | _ => map (fun m => Chat.dumps m +:+ nl) msgs
       end) /\
  (forall sep msgs,
     Chat.parse_lines (Chat.readlines (Chat.save sep msgs))
       = Some (map Chat.as_dict msgs)) /\
  (forall sep msgs,
     Chat.load_conversation (Chat.save sep msgs)
       = Some (map (fun m => (Chat.content m, Chat.role m))
                 (List.filter Chat.visible msgs))).
Proof.
  split; [exact jsonl_lines|]. split; [reflexivity|].
  split; [exact loads_dumps|]. split; [|split].
  - intros sep [|m ms].
    + destruct sep; reflexivity.
    + unfold Chat.save. now rewrite jsonl_lines, readlines_one_object_per_line.
  - exact parse_saved.
  - exact load_saved.
Qed.

(** * Further properties of the text chunker *)

Section SplitJoin.

Lemma split_from_word w : forall cur s,
  all_nonspace w = true ->
  split_from cur (w +:+ s) = split_from (cur +:+ w) s.
Proof.
  induction w as [|c w IH]; intros cur s Hw.
  - now rewrite app_nil_l, string_app_nil_r.
  - cbn [all_nonspace] in Hw. apply andb_true_iff in Hw as [Hc Hw].
    apply negb_true_iff in Hc.
    rewrite app_cons. cbn [split_from]. rewrite Hc.
    rewrite IH by assumption. f_equal.
    now rewrite string_app_assoc, app_cons, app_nil_l.
Qed.

(** Splitting what [" ".join] made of words gives the words back. *)
Lemma split_join_words ws :
  Forall is_word ws -> split (join " " ws) = ws.
Proof.
  unfold split. induction ws as [|w ws IH]; intros Hall; [reflexivity|].
  inversion Hall as [|? ? [Ht Hw] Hrest]; subst.
  destruct ws as [|w2 ws'].
  - cbn [join]. rewrite <- (string_app_nil_r w) at 1.
    rewrite split_from_word by assumption.
    rewrite app_nil_l. cbn [split_from]. now rewrite Ht.
  - change (join " " (w :: w2 :: ws')) with (w +:+ " " +:+ join " " (w2 :: ws')).
    rewrite split_from_word by assumption.
    rewrite app_nil_l, app_cons, app_nil_l. cbn [split_from].
    change (isspace " ") with true. cbv beta iota. rewrite Ht.
    f_equal. now apply IH.
Qed.

Lemma has_nonspace_split s : has_nonspace s = true -> split s <> [].
Proof.
  unfold split. generalize "" at 1 as cur.
  induction s as [|c s IH]; intros cur Hs; [discriminate|].
  cbn [has_nonspace] in Hs. cbn [split_from].
  destruct (isspace c) eqn:Ec; cbn [negb orb] in Hs.
  - destruct (truthy cur); [discriminate | now apply IH].
  - clear Hs IH. generalize (cur +:+ String c "") (truthy_app_r cur c).
    induction s as [|d s IH]; intros cur' Hcur'; cbn [split_from].
    + rewrite Hcur'. discriminate.
    + destruct (isspace d).
      * rewrite Hcur'. discriminate.
      * apply IH, truthy_app_r.
Qed.

End SplitJoin.

Section ChunkerMore.
Import Chunker.

Lemma slice_window_eq (words : list string) i sz :
  0 < sz -> 0 <= i < PySeq.len words ->
  PySeq.slice words i (i + sz) =
    take (Z.to_nat (Z.min (i + sz) (PySeq.len words) - i)) (drop (Z.to_nat i) words).
Proof.
  intros Hsz Hi. unfold PySeq.slice, PySeq.clamp. fold (PySeq.len words).
  destruct (Z.ltb_spec i 0); [lia|].
  destruct (Z.ltb_spec (i + sz) 0); [lia|].
  now rewrite (Z.min_l i) by lia.
Qed.

Lemma slice_window_len (words : list string) i sz :
  0 < sz -> 0 <= i < PySeq.len words ->
  PySeq.len (PySeq.slice words i (i + sz)) = Z.min (i + sz) (PySeq.len words) - i.
Proof.
  intros Hsz Hi. rewrite slice_window_eq by assumption.
  unfold PySeq.len in *. rewrite length_take, length_drop. lia.
Qed.

Lemma slice_window_words (words : list string) i sz :
  Forall is_word words -> Forall is_word (PySeq.slice words i (i + sz)).
Proof. intros Hw. unfold PySeq.slice. now apply Forall_take, Forall_drop. Qed.

(** The chunk list for a positive window advance, position by position. *)
Lemma chunk_at self text md chunks (k : nat) c :
  0 <= overlap self < chunk_size self ->
  chunk_text self text md = inr chunks ->
  chunks !! k = Some c ->
  c = mk_chunk self (split text) md k (Z.of_nat k * (chunk_size self - overlap self)) /\
  Z.of_nat k * (chunk_size self - overlap self) < PySeq.len (split text).
Proof.
  intros Hso Hc Hk. unfold chunk_text in Hc.
  rewrite chunk_words_list_pos in Hc by (auto using split_words).
  injection Hc as <-.
  rewrite list_lookup_imap, list_lookup_fmap in Hk.
  destruct (seq 0 _ !! k) as [j|] eqn:Hj; [|discriminate].
  apply lookup_seq in Hj as [-> Hlt]. simpl in Hk. injection Hk as <-.
  split; [reflexivity|].
  set (step := chunk_size self - overlap self) in *.
  assert (Hstep : 0 < step) by (unfold step; lia).
  assert (HN : 0 <= PySeq.len (split text)) by (unfold PySeq.len; lia).
  rewrite <- ceil_div_count in Hlt by assumption.
  destruct (Z.ltb_spec 0 (PySeq.len (split text))) as [Hpos|]; [|simpl in Hlt; lia].
  assert (Z.of_nat k <= (PySeq.len (split text) - 1) / step) by lia.
  pose proof (Z.mul_div_le (PySeq.len (split text) - 1) step Hstep). nia.
Qed.

End ChunkerMore.

(** X1: with [0 <= overlap < chunk_size], the chunk at position [k] of the
    list has [chunk_index = k], starts at word [k * (chunk_size - overlap)],
    ends at [min(start + chunk_size, N)], records [end - start] as its
    [chunk_size], and its text, split again, is exactly the words of that
    range. *)
Theorem chunk_text_chunk_at (self : Chunker.TextChunker) (text : string)
    (md : gmap string pyval) (chunks : list Chunker.chunk) (k : nat)
    (c : Chunker.chunk) :
  0 <= Chunker.overlap self < Chunker.chunk_size self ->
  Chunker.chunk_text self text md = inr chunks ->
  chunks !! k = Some c ->
  let start := Z.of_nat k * (Chunker.chunk_size self - Chunker.overlap self) in
  let stop := Z.min (start + Chunker.chunk_size self) (PySeq.len (split text)) in
  start < stop /\
  Chunker.get_int (Chunker.metadata c) "chunk_index" = Some (Z.of_nat k) /\
  Chunker.get_int (Chunker.metadata c) "start_word" = Some start /\
  Chunker.get_int (Chunker.metadata c) "end_word" = Some stop /\
  Chunker.get_int (Chunker.metadata c) "chunk_size" = Some (stop - start) /\
  split (Chunker.text c) =
    take (Z.to_nat (stop - start)) (drop (Z.to_nat start) (split text)).
Proof.
  intros Hso Hc Hk start stop.
  destruct (chunk_at self text md chunks k c Hso Hc Hk) as [-> Hlt].
  fold start in Hlt |- *.
  assert (H0 : 0 <= start) by (unfold start; nia).
  assert (Hsz : 0 < Chunker.chunk_size self) by lia.
  split; [unfold stop; lia|].
  unfold Chunker.mk_chunk, Chunker.chunk_metadata, Chunker.get_int; cbn [Chunker.metadata Chunker.text].
  split; [now rewrite !lookup_insert_ne, lookup_insert_eq by discriminate|].
  split; [now rewrite lookup_insert_ne, lookup_insert_eq by discriminate|].
  split; [now rewrite lookup_insert_eq|].
  split.
  - rewrite !lookup_insert_ne, lookup_insert_eq by discriminate.
    now rewrite slice_window_len by lia.
  - rewrite split_join_words by (apply slice_window_words, split_words).
    now apply slice_window_eq; lia.
Qed.

Lemma chunk_text_chunk_at_witness :
  let self := {| Chunker.chunk_size := 4; Chunker.overlap := 2 |} in
  let c0 := Chunker.mk_chunk self (split "a b c d e") ∅ 0 0 in
  let c1 := Chunker.mk_chunk self (split "a b c d e") ∅ 1 2 in
  let c2 := Chunker.mk_chunk self (split "a b c d e") ∅ 2 4 in
  0 <= 2 < 4 /\
  Chunker.chunk_text self "a b c d e" ∅ = inr [c0; c1; c2] /\
  [c0; c1; c2] !! 1%nat = Some c1 /\
  Chunker.get_int (Chunker.metadata c1) "start_word" = Some 2 /\
  Chunker.get_int (Chunker.metadata c1) "end_word" = Some 5 /\
  split (Chunker.text c1) = ["c"; "d"; "e"].
Proof.
  intros self c0 c1 c2.
  assert (Hso : 0 <= Chunker.overlap self < Chunker.chunk_size self) by (simpl; lia).
  assert (Hc : Chunker.chunk_text self "a b c d e" ∅ = inr [c0; c1; c2]) by reflexivity.
  assert (Hk : [c0; c1; c2] !! 1%nat = Some c1) by reflexivity.
  destruct (chunk_text_chunk_at self "a b c d e" ∅ [c0; c1; c2] 1 c1 Hso Hc Hk)
    as (_ & _ & Hs & He & _ & Ht).
  split; [lia|]. split; [exact Hc|]. split; [exact Hk|].
  split; [exact Hs|]. split; [exact He|]. exact Ht.
Defined.

Lemma chunk_metadata_frame (self : Chunker.TextChunker)
    (text : string) (md : gmap string pyval) (chunks : list Chunker.chunk)
    (c : Chunker.chunk) (key : string) :
  Chunker.chunk_text self text md = inr chunks ->
  c ∈ chunks ->
  key ∉ ["chunk_index"; "chunk_size"; "start_word"; "end_word"] ->
  Chunker.metadata c !! key = md !! key.
Proof.
  intros Hc Hin Hkey.
  unfold Chunker.chunk_text, Chunker.chunk_words_list in Hc.
  destruct (PySeq.range 0 _ _) as [e|idxs]; [discriminate|].
  simpl in Hc. injection Hc as <-.
  assert (Hinv : forall idxs acc,
            Forall (fun c => Chunker.metadata c !! key = md !! key) acc ->
            Forall (fun c => Chunker.metadata c !! key = md !! key)
              (fold_left (Chunker.chunk_step self (split text) md) idxs acc)).
  { clear -Hkey. induction idxs as [|i idxs IH]; intros acc Hacc; [exact Hacc|].
    cbn [fold_left]. apply IH. unfold Chunker.chunk_step.
    destruct (truthy _); [|exact Hacc].
    apply Forall_app. split; [exact Hacc|]. constructor; [|constructor].
    cbn [Chunker.metadata]. unfold Chunker.chunk_metadata.
    rewrite !lookup_insert_ne; [reflexivity| | | |];
      intros <-; apply Hkey; set_solver. }
  specialize (Hinv idxs [] (List.Forall_nil _)).
  rewrite Forall_forall in Hinv. now apply Hinv.
Qed.

(** X2: every chunk carries the caller's metadata unchanged under every key
    other than the four chunk keys, for any configuration under which
    [chunk_text] returns. *)
Theorem chunk_metadata_keeps_document_keys (self : Chunker.TextChunker)
    (text : string) (md : gmap string pyval) (chunks : list Chunker.chunk)
    (c : Chunker.chunk) (key : string) :
  Chunker.chunk_text self text md = inr chunks ->
  c ∈ chunks ->
  key ∉ ["chunk_index"; "chunk_size"; "start_word"; "end_word"] ->
  Chunker.metadata c !! key = md !! key.
Proof. apply chunk_metadata_frame. Qed.

Lemma chunk_metadata_keeps_document_keys_witness :
  let self := {| Chunker.chunk_size := 4; Chunker.overlap := 2 |} in
  let md := ({[ "name" := PyStr "notes.txt"; "chunk_index" := PyInt 7 ]}
             : gmap string pyval) in
  let c0 := Chunker.mk_chunk self (split "a b c") md 0 0 in
  let c1 := Chunker.mk_chunk self (split "a b c") md 1 2 in
  Chunker.chunk_text self "a b c" md = inr [c0; c1] /\
  (c1 ∈ [c0; c1]) /\
  ("name" ∉ ["chunk_index"; "chunk_size"; "start_word"; "end_word"]) /\
  Chunker.metadata c1 !! "name" = Some (PyStr "notes.txt").
Proof.
  intros self md c0 c1.
  assert (Hc : Chunker.chunk_text self "a b c" md = inr [c0; c1]) by reflexivity.
  assert (Hin : c1 ∈ [c0; c1]) by set_solver.
  assert (Hk : "name" ∉ ["chunk_index"; "chunk_size"; "start_word"; "end_word"])
    by (intros Hx; repeat (apply elem_of_cons in Hx as [Hx|Hx]; [discriminate|]);
        inversion Hx).
  split; [exact Hc|]. split; [exact Hin|]. split; [exact Hk|].
  rewrite (chunk_metadata_keeps_document_keys self "a b c" md [c0; c1] c1 "name" Hc Hin Hk).
  reflexivity.
Defined.

(** X3: a text without any word gives no chunk, except that a chunker whose
    overlap equals its chunk size raises [ValueError] even then. *)
Theorem chunk_text_of_blank_text (self : Chunker.TextChunker) (text : string)
    (md : gmap string pyval) :
  has_nonspace text = false ->
  if Chunker.chunk_size self =? Chunker.overlap self
  then exists m, Chunker.chunk_text self text md = inl (ValueError m)
  else Chunker.chunk_text self text md = inr [].
Proof.
  intros Hblank.
  assert (Hsplit : split text = []).
  { unfold split. change "" with (String.string_of_list_ascii []) at 1.
    cbn. revert Hblank. induction text as [|c s IH]; [reflexivity|].
    cbn [has_nonspace split_from].
    destruct (isspace c); cbn [negb orb]; [exact IH | discriminate]. }
  unfold Chunker.chunk_text, Chunker.chunk_words_list. rewrite Hsplit.
  unfold PySeq.range, PySeq.range_len.
  destruct (Z.eqb_spec (Chunker.chunk_size self) (Chunker.overlap self)) as [->|Hne].
  - rewrite Z.sub_diag. eexists. reflexivity.
  - destruct (Z.eqb_spec (Chunker.chunk_size self - Chunker.overlap self) 0); [lia|].
    change (PySeq.len []) with 0.
    destruct (0 <? _); reflexivity.
Qed.

Lemma chunk_text_of_blank_text_witness :
  has_nonspace "   " = false /\
  Chunker.chunk_text Chunker.default "   " ∅ = inr [] /\
  exists m, Chunker.chunk_text {| Chunker.chunk_size := 3; Chunker.overlap := 3 |} "   " ∅
            = inl (ValueError m).
Proof.
  split; [reflexivity|]. split.
  - apply (chunk_text_of_blank_text Chunker.default "   " ∅). reflexivity.
  - apply (chunk_text_of_blank_text {| Chunker.chunk_size := 3; Chunker.overlap := 3 |}
             "   " ∅). reflexivity.
Defined.

(** * Further properties of the document processor *)

Section ProcessFileMore.
Import Rag DocumentShape.

Lemma process_file_cases fs p d :
  process_file fs p = inr d ->
  d = error_dict "File not found" \/
  d = error_dict ("Unsupported file type: " +:+ path_suffix fs p) \/
  d = error_dict "No text content found" \/
  is_document fs p d.
Proof.
  unfold process_file.
  destruct (path_exists fs p); simpl; [|intros [= <-]; auto].
  destruct (stat_size fs p) as [|sz]; simpl; [discriminate|].
  destruct (stat_modified fs p) as [|mt]; simpl; [discriminate|].
  destruct (reader_for _) as [r|]; [|intros [= <-]; auto].
  destruct (truthy (strip (extract_text fs r (path_str fs p)))) eqn:Ht; simpl;
    intros [= <-]; [|auto].
  do 3 right. exists sz, mt, (extract_text fs r (path_str fs p)).
  split; [reflexivity|]. rewrite strip_truthy in Ht. split; [exact Ht|].
  pose proof (has_nonspace_split _ Ht) as Hne.
  unfold PySeq.len. destruct (split _); [congruence | simpl; lia].
Qed.

End ProcessFileMore.

(** X4: whatever [process_file] returns without raising is one of the three
    error dictionaries ("File not found", "Unsupported file type: <suffix>",
    "No text content found") or a document record whose text has at least one
    word, so that its [word_count] is at least 1. *)
Theorem process_file_outcomes (fs : Rag.FileSystem) (p : string)
    (d : gmap string pyval) :
  Rag.process_file fs p = inr d ->
  d = Rag.error_dict "File not found" \/
  d = Rag.error_dict ("Unsupported file type: " +:+ Rag.path_suffix fs p) \/
  d = Rag.error_dict "No text content found" \/
  DocumentShape.is_document fs p d.
Proof. apply process_file_cases. Qed.

Lemma process_file_outcomes_witness :
  Rag.process_file Demo.demo_fs "missing.txt" = inr (Rag.error_dict "File not found") /\
  (Rag.error_dict "File not found" = Rag.error_dict "File not found" \/
   Rag.error_dict "File not found"
     = Rag.error_dict ("Unsupported file type: " +:+ Rag.path_suffix Demo.demo_fs "missing.txt") \/
   Rag.error_dict "File not found" = Rag.error_dict "No text content found" \/
   DocumentShape.is_document Demo.demo_fs "missing.txt" (Rag.error_dict "File not found")).
Proof.
  split; [reflexivity|].
  apply (process_file_outcomes Demo.demo_fs "missing.txt"). reflexivity.
Defined.

(** X5: when the file exists and its type is supported but the reader raises,
    the exception is swallowed: [process_file] reports "No text content
    found", and the cause is lost. *)
Theorem process_file_swallows_reader_failure (fs : Rag.FileSystem) (p : string)
    (size : Z) (modified : string) (r : Rag.reader) (e : pyexc) :
  Rag.path_exists fs p = true ->
  Rag.stat_size fs p = inr size ->
  Rag.stat_modified fs p = inr modified ->
  Rag.reader_for (lower (Rag.path_suffix fs p)) = Some r ->
  Rag.read_text fs r (Rag.path_str fs p) = inl e ->
  Rag.process_file fs p = inr (Rag.error_dict "No text content found").
Proof.
  intros Hex Hsz Hmt Hr He. unfold Rag.process_file, Rag.extract_text.
  rewrite Hex, Hsz, Hmt. simpl. rewrite Hr, He. reflexivity.
Qed.

Lemma process_file_swallows_reader_failure_witness :
  Rag.reader_for (lower (Rag.path_suffix Demo2.demo_fs2 "scan.pdf")) = Some Rag.PdfReader /\
  Rag.read_text Demo2.demo_fs2 Rag.PdfReader "scan.pdf"
    = inl (OtherError "PdfReadError" "EOF marker not found") /\
  Rag.process_file Demo2.demo_fs2 "scan.pdf"
    = inr (Rag.error_dict "No text content found").
Proof.
  split; [reflexivity|]. split; [reflexivity|].
  apply (process_file_swallows_reader_failure Demo2.demo_fs2 "scan.pdf" 11
           "2024-05-01T10:00:00" Rag.PdfReader
           (OtherError "PdfReadError" "EOF marker not found")); reflexivity.
Defined.

(** * Further properties of the knowledge store *)

Section StoreMore.
Import Rag DocumentShape.
Context {C : Type} `{Collection C}.

Lemma error_dict_has_error m : error_dict m !! "error" = Some (PyStr m).
Proof. reflexivity. Qed.

(** The document behind a successful [add_document]. *)
Lemma stored_document (rag : RAGSystem) (p : string) (w w' : World C) r :
  add_document rag p w = (inr r, w') ->
  r !! "success" = Some (PyBool true) ->
  exists doc_info text chunks embs,
    is_document (fs rag) p doc_info /\
    doc_info !! "text" = Some (PyStr text) /\
    Chunker.chunk_text (chunker rag) text doc_info = inr chunks /\
    encode rag (map Chunker.text chunks) = inr embs /\
    coll_add (collection w) (chunk_ids (md5_hex rag p) chunks) embs
      (map Chunker.text chunks) (map Chunker.metadata chunks)
      = inr (collection w') /\
    heap w' = heap w /\
    r = added (md5_hex rag p) chunks doc_info.
Proof.
  intros Hcall Hsucc.
  destruct (add_document_cases rag p w)
    as [(doc_info & text & chunks & embs & c' & Hp & Herr & Hg & Ht & Hc & He & Ha & Hr)
       | [m Hr]];
    rewrite Hr in Hcall; injection Hcall as <- <-.
  2:{ rewrite failure_success in Hsucc. discriminate. }
  exists doc_info, text, chunks, embs.
  destruct (process_file_cases _ _ _ Hp) as [->|[->|[->|Hdoc]]];
    try (rewrite error_dict_has_error in Herr; discriminate).
  split; [exact Hdoc|]. split.
  { unfold getstr in Ht. destruct (doc_info !! "text") as [[]|]; try discriminate.
    now injection Ht as ->. }
  repeat split; assumption.
Qed.

End StoreMore.

(** X6: a successful [add_document] with a chunker whose overlap is below its
    chunk size reports [chunks_added = ceil(word_count / (chunk_size -
    overlap))], which is at least 1, where [word_count] is the count stored in
    the returned document metadata. *)
Theorem add_document_chunks_added {C : Type} `{Rag.Collection C}
    (rag : Rag.RAGSystem) (p : string) (w w' : Rag.World C)
    (r : gmap string pyval) :
  Rag.add_document rag p w = (inr r, w') ->
  r !! "success" = Some (PyBool true) ->
  0 <= Chunker.overlap (Rag.chunker rag) < Chunker.chunk_size (Rag.chunker rag) ->
  exists doc_info words,
    r !! "metadata" = Some (PyDict doc_info) /\
    doc_info !! "word_count" = Some (PyInt words) /\
    1 <= words /\
    r !! "chunks_added" =
      Some (PyInt (Chunker.ceil_div words
                     (Chunker.chunk_size (Rag.chunker rag)
                      - Chunker.overlap (Rag.chunker rag)))) /\
    1 <= Chunker.ceil_div words
           (Chunker.chunk_size (Rag.chunker rag) - Chunker.overlap (Rag.chunker rag)).
Proof.
  intros Hcall Hsucc Hso.
  destruct (stored_document rag p w w' r Hcall Hsucc)
    as (doc_info & text & chunks & embs & Hdoc & Htext & Hc & _ & _ & _ & ->).
  destruct Hdoc as (size & modified & text' & -> & Hns & Hwords).
  rewrite lookup_insert_ne, lookup_insert_ne, lookup_insert_eq in Htext by discriminate.
  injection Htext as ->.
  eexists _, (PySeq.len (split text)).
  split; [reflexivity|].
  split; [now rewrite lookup_insert_ne, lookup_insert_eq by discriminate|].
  split; [exact Hwords|].
  unfold Chunker.chunk_text in Hc.
  rewrite chunk_words_list_pos in Hc by (auto using split_words).
  injection Hc as <-.
  assert (Hge : 1 <= Chunker.ceil_div (PySeq.len (split text))
                       (Chunker.chunk_size (Rag.chunker rag)
                        - Chunker.overlap (Rag.chunker rag)))
    by (apply ceil_div_ge_1; lia).
  split; [|exact Hge].
  unfold Rag.added.
  rewrite lookup_insert_ne, lookup_insert_ne, lookup_insert_eq by discriminate.
  do 2 f_equal. unfold PySeq.len at 1.
  rewrite length_imap, length_map, length_seq. lia.
Qed.

Lemma add_document_chunks_added_witness :
  exists r w',
    Rag.add_document Demo.demo_rag "notes.txt" Demo.empty_world = (inr r, w') /\
    r !! "success" = Some (PyBool true) /\
    exists doc_info words,
      r !! "metadata" = Some (PyDict doc_info) /\
      doc_info !! "word_count" = Some (PyInt words) /\
      1 <= words /\
      r !! "chunks_added" = Some (PyInt (Chunker.ceil_div words (1000 - 200))) /\
      1 <= Chunker.ceil_div words (1000 - 200).
Proof.
  eexists _, _. split; [reflexivity|]. split; [reflexivity|].
  eapply (add_document_chunks_added Demo.demo_rag "notes.txt" Demo.empty_world);
    [reflexivity | reflexivity | simpl; lia].
Defined.

(** X7: the ids [add_document] and [add_text] give to the chunks of one
    document are pairwise different, the id at position [i] is
    [<doc_id>_chunk_<i>], and there is one per chunk. *)
Theorem chunk_ids_distinct (doc_id : string) (chunks : list Chunker.chunk) :
  NoDup (Rag.chunk_ids doc_id chunks) /\
  List.length (Rag.chunk_ids doc_id chunks) = List.length chunks /\
  (forall i, (i < List.length chunks)%nat ->
     Rag.chunk_ids doc_id chunks !! i = Some (doc_id +:+ "_chunk_" +:+ str_of_nat i)).
Proof.
  unfold Rag.chunk_ids. split; [|split].
  - apply NoDup_alt. intros i j x Hi Hj.
    rewrite list_lookup_imap in Hi, Hj.
    destruct (chunks !! i); [|discriminate]. destruct (chunks !! j); [|discriminate].
    simpl in Hi, Hj. rewrite <- Hj in Hi. injection Hi as Hi.
    apply String.app_inj, String.app_inj in Hi.
    now apply (inj pretty) in Hi.
  - apply length_imap.
  - intros i Hi. rewrite list_lookup_imap.
    destruct (lookup_lt_is_Some_2 chunks i Hi) as [c ->]. reflexivity.
Qed.

Section MapStoreMore.
Import Rag.

Lemma insert_new_keeps (c : gmap string entry) item k e :
  c !! k = Some e -> insert_new c item !! k = Some e.
Proof.
  intros Hk. unfold insert_new. destruct (c !! item.1) eqn:E; [exact Hk|].
  rewrite lookup_insert_ne; [exact Hk|]. intros <-. congruence.
Qed.

Lemma fold_insert_new_keeps items : forall (c : gmap string entry) k e,
  c !! k = Some e -> fold_left insert_new items c !! k = Some e.
Proof.
  induction items as [|it items IH]; intros c k e Hk; [exact Hk|].
  cbn [fold_left]. now apply IH, insert_new_keeps.
Qed.

Lemma fold_insert_new_origin items : forall (c : gmap string entry) k e,
  fold_left insert_new items c !! k = Some e ->
  c !! k = Some e \/ (k, e) ∈ items.
Proof.
  induction items as [|[i x] items IH]; intros c k e Hk; [now left|].
  cbn [fold_left] in Hk. apply IH in Hk as [Hk|Hk]; [|right; now right].
  unfold insert_new in Hk. cbn [fst snd] in Hk.
  destruct (c !! i) eqn:E; [now left|].
  destruct (decide (i = k)) as [->|Hne].
  - rewrite lookup_insert_eq in Hk. injection Hk as ->. right. left.
  - rewrite lookup_insert_ne in Hk by assumption. now left.
Qed.

Lemma fold_insert_new_dom items : forall (c : gmap string entry),
  dom (fold_left insert_new items c) = dom c ∪ list_to_set (map fst items).
Proof.
  induction items as [|[i x] items IH]; intros c.
  - cbn. set_solver.
  - cbn [fold_left map list_to_set fst]. rewrite IH.
    unfold insert_new. cbn [fst snd].
    destruct (c !! i) eqn:E.
    + apply (elem_of_dom_2 c) in E. set_solver.
    + rewrite dom_insert_L. set_solver.
Qed.

Lemma zip_entries_fst ids : forall embs docs mds,
  List.length embs = List.length ids ->
  List.length docs = List.length ids ->
  List.length mds = List.length ids ->
  map fst (zip_entries ids embs docs mds) = ids.
Proof.
  induction ids as [|i ids IH]; intros [|e embs] [|d docs] [|m mds] H1 H2 H3;
    try discriminate; [reflexivity|].
  cbn [zip_entries map fst]. f_equal. apply IH; simpl in *; lia.
Qed.

Lemma zip_entries_metadata ids : forall embs docs mds k e,
  (k, e) ∈ zip_entries ids embs docs mds -> e_metadata e ∈ mds.
Proof.
  induction ids as [|i ids IH]; intros [|x embs] [|d docs] [|m mds] k e;
    cbn [zip_entries]; try (intros Hin; inversion Hin; fail).
  intros Hin. apply elem_of_cons in Hin as [[= -> ->]|Hin]; [left|right; eauto].
Qed.

Lemma map_add_lengths (c c' : gmap string entry) ids embs docs mds :
  map_add c ids embs docs mds = inr c' ->
  ids <> [] /\ NoDup ids /\
  List.length embs = List.length ids /\
  List.length docs = List.length ids /\
  List.length mds = List.length ids.
Proof.
  unfold map_add. destruct ids as [|i ids]; [discriminate|].
  destruct (bool_decide _) eqn:Hl; [|discriminate]. cbn [negb].
  destruct (bool_decide (NoDup _)) eqn:Hn; [|discriminate]. intros _.
  apply bool_decide_eq_true in Hl. apply bool_decide_eq_true in Hn.
  split; [discriminate|]. split; [exact Hn|]. exact Hl.
Qed.

End MapStoreMore.

(** X8: on the in-memory collection, a successful [add_document] leaves every
    entry that was stored before exactly as it was, and the ids stored
    afterwards are the old ones together with the ids of the new chunks (of
    which there is at least one); the caller's dictionaries are not touched. *)
Theorem add_document_extends_store (rag : Rag.RAGSystem) (p : string)
    (w w' : Rag.World (gmap string Rag.entry)) (r : gmap string pyval) :
  Rag.add_document rag p w = (inr r, w') ->
  r !! "success" = Some (PyBool true) ->
  exists chunks doc_info,
    r = Rag.added (Rag.md5_hex rag p) chunks doc_info /\
    chunks <> [] /\
    dom (Rag.collection w') =
      dom (Rag.collection w) ∪ list_to_set (Rag.chunk_ids (Rag.md5_hex rag p) chunks) /\
    (forall k e, Rag.collection w !! k = Some e -> Rag.collection w' !! k = Some e) /\
    Rag.heap w' = Rag.heap w.
Proof.
  intros Hcall Hsucc.
  destruct (stored_document rag p w w' r Hcall Hsucc)
    as (doc_info & text & chunks & embs & _ & _ & _ & _ & Ha & Hh & ->).
  exists chunks, doc_info. split; [reflexivity|].
  change (Rag.map_add (Rag.collection w) (Rag.chunk_ids (Rag.md5_hex rag p) chunks)
            embs (map Chunker.text chunks) (map Chunker.metadata chunks)
          = inr (Rag.collection w')) in Ha.
  destruct (map_add_lengths _ _ _ _ _ _ Ha) as (Hne & _ & H1 & H2 & H3).
  apply map_add_result in Ha. rewrite Ha.
  split; [intros ->; now apply Hne|].
  split; [now rewrite fold_insert_new_dom, zip_entries_fst|].
  split; [intros k e; apply fold_insert_new_keeps | exact Hh].
Qed.

Lemma add_document_extends_store_witness :
  exists r w',
    Rag.add_document Demo.demo_rag "notes.txt" Demo.empty_world = (inr r, w') /\
    r !! "success" = Some (PyBool true) /\
    exists chunks doc_info,
      r = Rag.added (Rag.md5_hex Demo.demo_rag "notes.txt") chunks doc_info /\
      chunks <> [] /\
      dom (Rag.collection w') =
        dom (Rag.collection Demo.empty_world)
          ∪ list_to_set (Rag.chunk_ids (Rag.md5_hex Demo.demo_rag "notes.txt") chunks) /\
      (forall k e, Rag.collection Demo.empty_world !! k = Some e ->
                   Rag.collection w' !! k = Some e) /\
      Rag.heap w' = Rag.heap Demo.empty_world.
Proof.
  eexists _, _. split; [reflexivity|]. split; [reflexivity|].
  eapply (add_document_extends_store Demo.demo_rag "notes.txt" Demo.empty_world);
    reflexivity.
Defined.

(** X9: called without metadata, [add_text] makes a dictionary of its own: no
    dictionary the caller holds is changed, and the new one holds exactly the
    three keys [source], [added_at] and [type]. *)
Theorem add_text_without_metadata_is_private {C : Type} `{Rag.Collection C}
    (rag : Rag.RAGSystem) (text : string) (w : Rag.World C) :
  exists r w',
    Rag.add_text rag text None w = (inr r, w') /\
    Rag.heap w' = <[fresh (dom (Rag.heap w)) := Rag.text_marks rag]> (Rag.heap w) /\
    (forall l d, Rag.heap w !! l = Some d -> Rag.heap w' !! l = Some d).
Proof.
  pose (w0 := {| Rag.collection := Rag.collection w;
                 Rag.heap := <[fresh (dom (Rag.heap w)) := ∅]> (Rag.heap w) |}).
  assert (Hl : Rag.heap w0 !! fresh (dom (Rag.heap w)) = Some ∅)
    by (simpl; apply lookup_insert_eq).
  destruct (add_text_from_marked rag text _ _ w0 Hl) as (r & w' & Hr & Hh & _).
  exists r, w'. split; [rewrite <- Hr; reflexivity|].
  assert (Hheap : Rag.heap w'
                  = <[fresh (dom (Rag.heap w)) := Rag.text_marks rag]> (Rag.heap w)).
  { rewrite Hh. simpl. rewrite insert_insert_eq. now rewrite (right_id_L ∅ (∪)). }
  split; [exact Hheap|].
  intros l d Hd. rewrite Hheap, lookup_insert_ne; [exact Hd|].
  intros <-. rewrite new_dict_fresh in Hd. discriminate.
Qed.

Section ContextFacts.
Import Rag.
Context {C : Type} `{Collection C}.

(** [search] always returns a list and leaves the world as it is. *)
Lemma search_total (rag : RAGSystem) q n f (w : World C) :
  exists hits, search rag q n f w = (inr hits, w).
Proof.
  unfold search, try_exceptM, mbind', mret', lift, collection_query.
  destruct (encode rag [q]) as [e|[|emb rest]]; simpl; eauto.
  destruct (coll_query (collection w) emb n f); eauto.
Qed.

Lemma join_parts_truthy sep h hs :
  truthy (join sep (map context_part (h :: hs))) = true.
Proof. destruct hs; reflexivity. Qed.

End ContextFacts.

(** X10: [get_context_for_query] never raises and leaves the world unchanged;
    the context it returns is the empty string exactly when [search] gave no
    hit, which includes every failed search. *)
Theorem context_empty_iff_no_hit {C : Type} `{Rag.Collection C}
    (rag : Rag.RAGSystem) (query : string) (max_chunks : Z) (w : Rag.World C) :
  exists context hits,
    Rag.get_context_for_query rag query max_chunks w = (inr context, w) /\
    Rag.search rag query max_chunks None w = (inr hits, w) /\
    (context = "" <-> hits = []).
Proof.
  destruct (search_total rag query max_chunks None w) as [hits Hs].
  unfold Rag.get_context_for_query, mbind', mret'. rewrite Hs.
  destruct hits as [|h hs].
  - exists "", []. repeat split; reflexivity.
  - eexists _, (h :: hs). split; [reflexivity|]. split; [reflexivity|].
    split; [|discriminate].
    intros Hempty. pose proof (join_parts_truthy
      (nl +:+ nl +:+ "---" +:+ nl +:+ nl) h hs) as Ht.
    rewrite Hempty in Ht. discriminate.
Qed.

(** * Deleting documents *)

Section DeleteFacts.
Import Rag RagAdmin.

Lemma ids_with_path_filter p (l : list (string * entry)) :
  ids_with_path p (map (fun '(i, e) => (i, e_metadata e)) l)
  = (filter (fun kv => has_path p (e_metadata kv.2) = true) l).*1.
Proof.
  unfold ids_with_path. induction l as [|[i e] l IH]; [reflexivity|].
  cbn [map List.filter snd].
  destruct (has_path p (e_metadata e)) eqn:E.
  - rewrite filter_cons_True by exact E. cbn. f_equal. exact IH.
  - rewrite filter_cons_False by (cbn; congruence). exact IH.
Qed.

Lemma NoDup_fst_filter (P : string * entry -> Prop) `{!forall x, Decision (P x)}
    (l : list (string * entry)) :
  NoDup (l.*1) -> NoDup ((filter P l).*1).
Proof.
  induction l as [|[i e] l IH]; intros Hnd; [constructor|].
  cbn in Hnd. apply NoDup_cons in Hnd as [Hi Hnd].
  destruct (decide (P (i, e))).
  - rewrite filter_cons_True by assumption. cbn. apply NoDup_cons. split; [|auto].
    intros Hin. apply Hi. apply list_elem_of_fmap in Hin as ([j x] & -> & Hin).
    apply list_elem_of_filter in Hin as [_ Hin].
    apply list_elem_of_fmap. exists (j, x). split; [reflexivity | exact Hin].
  - rewrite filter_cons_False by assumption. auto.
Qed.

Lemma ids_with_path_length p (c : gmap string entry) :
  List.length (ids_with_path p (map (fun '(i, e) => (i, e_metadata e)) (map_to_list c)))
  = size (with_path p c).
Proof.
  rewrite ids_with_path_filter, length_fmap. unfold with_path.
  rewrite map_filter_alt, map_size_list_to_map; [reflexivity|].
  apply NoDup_fst_filter, NoDup_fst_map_to_list.
Qed.

Lemma ids_with_path_elem p (c : gmap string entry) k :
  k ∈ ids_with_path p (map (fun '(i, e) => (i, e_metadata e)) (map_to_list c))
  <-> exists e, c !! k = Some e /\ has_path p (e_metadata e) = true.
Proof.
  rewrite ids_with_path_filter, list_elem_of_fmap. split.
  - intros ([i e] & -> & Hin). apply list_elem_of_filter in Hin as [Hp Hin].
    apply elem_of_map_to_list in Hin. eauto.
  - intros (e & Hk & Hp). exists (k, e). split; [reflexivity|].
    apply list_elem_of_filter. split; [exact Hp|]. now apply elem_of_map_to_list.
Qed.

Lemma lookup_fold_delete (ids : list string) : forall (c : gmap string entry) k,
  fold_left (fun c i => delete i c) ids c !! k
  = if decide (k ∈ ids) then None else c !! k.
Proof.
  induction ids as [|i ids IH]; intros c k; cbn [fold_left].
  - destruct (decide (k ∈ [])) as [Hin|]; [inversion Hin | reflexivity].
  - rewrite IH. destruct (decide (k ∈ ids)) as [Hin|Hnin].
    + rewrite decide_True by (now right). reflexivity.
    + destruct (decide (i = k)) as [->|Hne].
      * rewrite decide_True by left. apply lookup_delete_eq.
      * rewrite decide_False, lookup_delete_ne by
          (try assumption; rewrite elem_of_cons; intros [->|?]; congruence).
        reflexivity.
Qed.

Lemma delete_with_path p (c : gmap string entry) :
  fold_left (fun c i => delete i c)
    (ids_with_path p (map (fun '(i, e) => (i, e_metadata e)) (map_to_list c))) c
  = without_path p c.
Proof.
  apply map_eq. intros k. rewrite lookup_fold_delete. unfold without_path.
  destruct (decide _) as [Hin|Hnin].
  - apply ids_with_path_elem in Hin as (e & Hk & Hp). symmetry.
    apply map_lookup_filter_None. right. intros x Hx. cbn.
    rewrite Hk in Hx. injection Hx as <-. congruence.
  - destruct (c !! k) as [e|] eqn:Hk.
    + symmetry. apply map_lookup_filter_Some. split; [exact Hk|]. cbn.
      destruct (has_path p (e_metadata e)) eqn:Hp; [|reflexivity].
      exfalso. apply Hnin, ids_with_path_elem. eauto.
    + symmetry. apply map_lookup_filter_None. now left.
Qed.

(** What [delete_document] does on the in-memory collection. *)
Lemma delete_document_cases (rag : RAGSystem) (p : string)
    (w : World (gmap string entry)) :
  delete_document rag p w =
    if bool_decide (size (with_path p (collection w)) = 0%nat)
    then (inr (failure (PyStr "Document not found in knowledge base")), w)
    else (inr ({[ "success" := PyBool true;
                  "chunks_deleted" :=
                    PyInt (Z.of_nat (size (with_path p (collection w)))) ]}
               : gmap string pyval),
          {| collection := without_path p (collection w); heap := heap w |}).
Proof.
  unfold delete_document, try_exceptM, mbind', mret', collection_get_all,
    collection_delete.
  cbn [coll_get_all coll_delete MapColl_Admin ret].
  pose proof (ids_with_path_length p (collection w)) as Hlen.
  pose proof (delete_with_path p (collection w)) as Hdel.
  destruct (ids_with_path p _) as [|i ids] eqn:Hids.
  - cbn in Hlen. rewrite bool_decide_eq_true_2 by (symmetry; exact Hlen).
    reflexivity.
  - rewrite bool_decide_eq_false_2 by (rewrite <- Hlen; discriminate).
    rewrite Hdel. unfold PySeq.len. rewrite Hlen. reflexivity.
Qed.

End DeleteFacts.

(** X11: on the in-memory collection, [delete_document(p)] removes exactly
    the entries whose metadata [path] equals [p] and reports how many there
    were; when there is none it answers "Document not found in knowledge
    base" and changes nothing. *)
Theorem delete_document_removes_matching (rag : Rag.RAGSystem) (p : string)
    (w : Rag.World (gmap string Rag.entry)) :
  RagAdmin.delete_document rag p w =
    if bool_decide (size (RagAdmin.with_path p (Rag.collection w)) = 0%nat)
    then (inr (Rag.failure (PyStr "Document not found in knowledge base")), w)
    else (inr ({[ "success" := PyBool true;
                  "chunks_deleted" :=
                    PyInt (Z.of_nat (size (RagAdmin.with_path p (Rag.collection w)))) ]}
               : gmap string pyval),
          {| Rag.collection := RagAdmin.without_path p (Rag.collection w);
             Rag.heap := Rag.heap w |}).
Proof. apply delete_document_cases. Qed.

Section AddDeleteFacts.
Import Rag RagAdmin DocumentShape.

(** Every entry a successful [add_document] stores carries the normalised
    path of the document. *)
Lemma stored_entries_carry_path (rag : RAGSystem) (p : string)
    (w w' : World (gmap string entry)) r k e :
  add_document rag p w = (inr r, w') ->
  r !! "success" = Some (PyBool true) ->
  collection w' !! k = Some e ->
  collection w !! k = Some e \/
  (collection w !! k = None /\
   (exists i, k = md5_hex rag p +:+ "_chunk_" +:+ str_of_nat i) /\
   e_metadata e !! "path" = Some (PyStr (path_str (fs rag) p))).
Proof.
  intros Hcall Hsucc Hk.
  destruct (stored_document rag p w w' r Hcall Hsucc)
    as (doc_info & text & chunks & embs & Hdoc & _ & Hc & _ & Ha & _ & _).
  change (map_add (collection w) (chunk_ids (md5_hex rag p) chunks)
            embs (map Chunker.text chunks) (map Chunker.metadata chunks)
          = inr (collection w')) in Ha.
  destruct (map_add_lengths _ _ _ _ _ _ Ha) as (_ & _ & H1 & H2 & H3).
  apply map_add_result in Ha. rewrite Ha in Hk.
  destruct (collection w !! k) as [e0|] eqn:Hold.
  { left. rewrite <- Hk. symmetry. now apply fold_insert_new_keeps. }
  right. split; [reflexivity|].
  apply fold_insert_new_origin in Hk as [Hk|Hin]; [congruence|].
  split.
  - assert (Hkin : k ∈ chunk_ids (md5_hex rag p) chunks).
    { rewrite <- (zip_entries_fst _ embs (map Chunker.text chunks)
                    (map Chunker.metadata chunks)) by assumption.
      apply list_elem_of_fmap. exists (k, e). split; [reflexivity | exact Hin]. }
    unfold chunk_ids in Hkin. apply list_elem_of_lookup in Hkin as [i Hi].
    rewrite list_lookup_imap in Hi. destruct (chunks !! i); [|discriminate].
    exists i. now injection Hi as <-.
  - apply zip_entries_metadata in Hin.
    apply list_elem_of_fmap in Hin as (c & -> & Hcin).
    rewrite (chunk_metadata_frame _ _ _ _ _ "path" Hc Hcin).
    + destruct Hdoc as (size & modified & text' & -> & _).
      now rewrite !lookup_insert_ne, lookup_insert_eq by discriminate.
    + intros Hx. repeat (apply elem_of_cons in Hx as [Hx|Hx]; [discriminate|]).
      inversion Hx.
Qed.

Lemma has_path_true p md : has_path p md = true <-> md !! "path" = Some (PyStr p).
Proof.
  unfold has_path. destruct (md !! "path") as [[]|]; split; try discriminate.
  - intros Heq. apply String.eqb_eq in Heq. now subst.
  - intros [= ->]. apply String.eqb_refl.
Qed.

Lemma with_path_empty p (c : gmap string entry) :
  size (with_path p c) = 0%nat <->
  forall k e, c !! k = Some e -> has_path p (e_metadata e) = false.
Proof.
  rewrite map_size_empty_iff. unfold with_path. split.
  - intros Hempty k e Hk. destruct (has_path p (e_metadata e)) eqn:Hp; [|reflexivity].
    assert (Hin : filter (fun kv => has_path p (e_metadata kv.2) = true) c !! k = Some e)
      by (apply map_lookup_filter_Some; auto).
    rewrite Hempty, lookup_empty in Hin. discriminate.
  - intros Hall. apply map_eq. intros k. rewrite lookup_empty.
    apply map_lookup_filter_None. right. intros e Hk. cbn.
    rewrite (Hall k e Hk). discriminate.
Qed.

End AddDeleteFacts.

Section AddDeleteRoundTrip.
Import Rag RagAdmin DocumentShape.

Lemma add_then_delete (rag : RAGSystem) (p : string)
    (w w1 : World (gmap string entry)) (r : gmap string pyval) :
  add_document rag p w = (inr r, w1) ->
  r !! "success" = Some (PyBool true) ->
  size (with_path (path_str (fs rag) p) (collection w)) = 0%nat ->
  (forall i, collection w !! (md5_hex rag p +:+ "_chunk_" +:+ str_of_nat i) = None) ->
  exists n, 1 <= n /\
    r !! "chunks_added" = Some (PyInt n) /\
    delete_document rag (path_str (fs rag) p) w1 =
      (inr ({[ "success" := PyBool true; "chunks_deleted" := PyInt n ]}
            : gmap string pyval), w).
Proof.
  intros Hcall Hsucc Hnone Hfresh.
  pose proof (stored_entries_carry_path rag p w w1 r) as Hcarry.
  specialize (fun k e => Hcarry k e Hcall Hsucc).
  destruct (stored_document rag p w w1 r Hcall Hsucc)
    as (doc_info & text & chunks & embs & _ & _ & _ & _ & Ha & Hh & ->).
  change (map_add (collection w) (chunk_ids (md5_hex rag p) chunks)
            embs (map Chunker.text chunks) (map Chunker.metadata chunks)
          = inr (collection w1)) in Ha.
  destruct (map_add_lengths _ _ _ _ _ _ Ha) as (Hne & Hnd & H1 & H2 & H3).
  apply map_add_result in Ha.
  rewrite with_path_empty in Hnone.
  set (P := path_str (fs rag) p) in *.
  (* the entries carrying the path are exactly the new chunk ids *)
  assert (Hdom : dom (with_path P (collection w1))
                 = list_to_set (chunk_ids (md5_hex rag p) chunks)).
  { apply set_eq. intros k. rewrite elem_of_dom, elem_of_list_to_set.
    unfold with_path. split.
    - intros [e He]. apply map_lookup_filter_Some in He as [He Hp]. cbn in Hp.
      destruct (Hcarry k e He) as [Hold|(Hold & _ & _)].
      + rewrite (Hnone k e Hold) in Hp. discriminate.
      + assert (Hin : k ∈ dom (collection w1)) by (apply elem_of_dom; eauto).
        rewrite Ha, fold_insert_new_dom, zip_entries_fst in Hin by assumption.
        apply elem_of_union in Hin as [Hin|Hin].
        * apply elem_of_dom in Hin as [e' He']. congruence.
        * now apply elem_of_list_to_set in Hin.
    - intros Hin.
      assert (Hd : k ∈ dom (collection w1)).
      { rewrite Ha, fold_insert_new_dom, zip_entries_fst by assumption.
        apply elem_of_union_r. now apply elem_of_list_to_set. }
      apply elem_of_dom in Hd as [e He]. exists e.
      apply map_lookup_filter_Some. split; [exact He|]. cbn.
      destruct (Hcarry k e He) as [Hold|(_ & _ & Hp)].
      + unfold chunk_ids in Hin. apply list_elem_of_lookup in Hin as [i Hi].
        rewrite list_lookup_imap in Hi. destruct (chunks !! i); [|discriminate].
        injection Hi as <-. rewrite Hfresh in Hold. discriminate.
      + now apply has_path_true. }
  assert (Hsize : size (with_path P (collection w1)) = List.length chunks).
  { rewrite <- size_dom, Hdom, size_list_to_set by exact Hnd.
    unfold chunk_ids. apply length_imap. }
  assert (Hlen : List.length chunks <> 0%nat).
  { destruct chunks; [now elim Hne | discriminate]. }
  exists (PySeq.len chunks). split; [unfold PySeq.len; lia|].
  split; [reflexivity|].
  rewrite delete_document_cases, Hsize.
  rewrite bool_decide_eq_false_2 by exact Hlen.
  unfold PySeq.len. f_equal.
  destruct w as [c h]. cbn [collection heap] in *. rewrite Hh. f_equal.
  apply map_eq. intros k. unfold without_path.
  destruct (c !! k) as [e|] eqn:Hold.
  - apply map_lookup_filter_Some. split.
    + rewrite Ha. now apply fold_insert_new_keeps.
    + cbn. eauto.
  - apply map_lookup_filter_None.
    destruct (collection w1 !! k) as [e|] eqn:Hnew; [right | now left].
    intros e' [= <-]. cbn.
    destruct (Hcarry k e Hnew) as [Hold'|(_ & _ & Hp)]; [congruence|].
    apply has_path_true in Hp. rewrite Hp. discriminate.
Qed.

Lemma delete_other_path (rag : RAGSystem) (p q : string)
    (w w1 : World (gmap string entry)) (r : gmap string pyval) :
  add_document rag p w = (inr r, w1) ->
  r !! "success" = Some (PyBool true) ->
  q <> path_str (fs rag) p ->
  size (with_path q (collection w)) = 0%nat ->
  delete_document rag q w1 =
    (inr (failure (PyStr "Document not found in knowledge base")), w1).
Proof.
  intros Hcall Hsucc Hq Hnone.
  rewrite delete_document_cases.
  rewrite bool_decide_eq_true_2; [reflexivity|].
  rewrite with_path_empty in *. intros k e He.
  destruct (stored_entries_carry_path rag p w w1 r k e Hcall Hsucc He)
    as [Hold|(_ & _ & Hp)]; [eauto|].
  destruct (has_path q (e_metadata e)) eqn:E; [|reflexivity].
  apply has_path_true in E. congruence.
Qed.

End AddDeleteRoundTrip.

(** X12: adding a document and then deleting it under its normalised path
    [str(Path(p))] restores the collection: provided no stored entry carried
    that path and the chunk ids were free, [delete_document] reports as many
    chunks deleted as [add_document] reported added, and the store is the one
    before the addition. *)
Theorem add_then_delete_restores_store (rag : Rag.RAGSystem) (p : string)
    (w w1 : Rag.World (gmap string Rag.entry)) (r : gmap string pyval) :
  Rag.add_document rag p w = (inr r, w1) ->
  r !! "success" = Some (PyBool true) ->
  size (RagAdmin.with_path (Rag.path_str (Rag.fs rag) p) (Rag.collection w)) = 0%nat ->
  (forall i, Rag.collection w
               !! (Rag.md5_hex rag p +:+ "_chunk_" +:+ str_of_nat i) = None) ->
  exists n, 1 <= n /\
    r !! "chunks_added" = Some (PyInt n) /\
    RagAdmin.delete_document rag (Rag.path_str (Rag.fs rag) p) w1 =
      (inr ({[ "success" := PyBool true; "chunks_deleted" := PyInt n ]}
            : gmap string pyval), w).
Proof. apply add_then_delete. Qed.

Lemma add_then_delete_restores_store_witness :
  exists r w1,
    Rag.add_document Demo2.demo_rag2 "./notes.txt" Demo.empty_world = (inr r, w1) /\
    exists n, 1 <= n /\
      r !! "chunks_added" = Some (PyInt n) /\
      RagAdmin.delete_document Demo2.demo_rag2 "notes.txt" w1 =
        (inr ({[ "success" := PyBool true; "chunks_deleted" := PyInt n ]}
              : gmap string pyval), Demo.empty_world).
Proof.
  eexists _, _. split; [reflexivity|].
  eapply (add_then_delete_restores_store Demo2.demo_rag2 "./notes.txt" Demo.empty_world).
  - reflexivity.
  - reflexivity.
  - reflexivity.
  - intros i. apply lookup_empty.
Defined.

(** X13: a stored document is found by [delete_document] only under the
    normalised path [str(Path(p))] that [process_file] recorded: deleting
    under any other spelling (for instance the one it was added with)
    answers "Document not found in knowledge base" and removes nothing,
    unless entries with that spelling were already stored. *)
Theorem delete_document_needs_recorded_path (rag : Rag.RAGSystem) (p q : string)
    (w w1 : Rag.World (gmap string Rag.entry)) (r : gmap string pyval) :
  Rag.add_document rag p w = (inr r, w1) ->
  r !! "success" = Some (PyBool true) ->
  q <> Rag.path_str (Rag.fs rag) p ->
  size (RagAdmin.with_path q (Rag.collection w)) = 0%nat ->
  RagAdmin.delete_document rag q w1 =
    (inr (Rag.failure (PyStr "Document not found in knowledge base")), w1).
Proof. apply delete_other_path. Qed.

Lemma delete_document_needs_recorded_path_witness :
  exists r w1,
    Rag.add_document Demo2.demo_rag2 "./notes.txt" Demo.empty_world = (inr r, w1) /\
    r !! "success" = Some (PyBool true) /\
    RagAdmin.delete_document Demo2.demo_rag2 "./notes.txt" w1 =
      (inr (Rag.failure (PyStr "Document not found in knowledge base")), w1).
Proof.
  eexists _, _. split; [reflexivity|]. split; [reflexivity|].
  eapply (delete_document_needs_recorded_path Demo2.demo_rag2 "./notes.txt" "./notes.txt"
            Demo.empty_world).
  - reflexivity.
  - reflexivity.
  - discriminate.
  - reflexivity.
Defined.

(** ** Substrings *)

Section SubstringFacts.

Lemma startswith_spec p : forall s,
  startswith s p = true <-> exists b, s = p +:+ b.
Proof.
  induction p as [|a p IH]; intros s.
  - split; [intros _; exists s; reflexivity | intros _; now destruct s].
  - destruct s as [|c s]; cbn [startswith].
    + split; [discriminate | intros [b Hb]; rewrite app_cons in Hb; discriminate].
    + destruct (Ascii.eqb a c) eqn:E.
      * apply Ascii.eqb_eq in E as ->. rewrite IH. split.
        -- intros [b ->]. exists b. now rewrite app_cons.
        -- intros [b Hb]. rewrite app_cons in Hb. injection Hb as ->. now exists b.
      * split; [discriminate|]. intros [b Hb]. rewrite app_cons in Hb.
        injection Hb as -> _. now rewrite Ascii.eqb_refl in E.
Qed.

Lemma contains_spec n : forall h,
  contains n h = true <-> exists a b, h = a +:+ n +:+ b.
Proof.
  induction h as [|c h IH]; cbn [contains].
  - rewrite startswith_spec. split.
    + intros [b Hb]. exists "", b. now rewrite app_nil_l.
    + intros (a & b & Hab). destruct a; [|rewrite app_cons in Hab; discriminate].
      rewrite app_nil_l in Hab. now exists b.
  - rewrite orb_true_iff, startswith_spec, IH. split.
    + intros [[b Hb]|(a & b & Hab)].
      * exists "", b. now rewrite app_nil_l.
      * exists (String c a), b. rewrite app_cons. now f_equal.
    + intros (a & b & Hab). destruct a as [|x a].
      * left. exists b. now rewrite app_nil_l in Hab.
      * right. rewrite app_cons in Hab. injection Hab as -> ->. now exists a, b.
Qed.

Lemma contains_trans a b s :
  contains a b = true -> contains b s = true -> contains a s = true.
Proof.
  rewrite !contains_spec. intros (u & v & ->) (x & y & ->).
  exists (x +:+ u), (v +:+ y). now rewrite !string_app_assoc.
Qed.

Lemma contains_absent a b s :
  contains a b = true -> contains a s = false -> contains b s = false.
Proof.
  intros Hab Hs. destruct (contains b s) eqn:E; [|reflexivity].
  now rewrite (contains_trans a b s Hab E) in Hs.
Qed.

End SubstringFacts.

Section ClassifierKeywords.
Import TaskAutomation.

Lemma analyze_task_reduced (task context : string) :
  _analyze_task task context =
    let task_lower := lower task in
    if contains "path" task_lower || contains "env" task_lower
    then analysis "path_addition" (9 # 10)
    else if contains "python" task_lower || contains "pip" task_lower
    then analysis "python_setup" (8 # 10)
    else if contains "install" task_lower || contains "package" task_lower
    then analysis "package_installation" (8 # 10)
    else if any_in command_keywords task_lower
    then analysis "system_command" (7 # 10)
    else analysis "unknown" 0.
Proof.
  unfold _analyze_task, any_in, path_keywords, python_keywords, package_keywords.
  cbn [existsb]. cbv zeta. set (l := lower task).
  destruct (contains "path" l) eqn:Hpath.
  { now rewrite !orb_true_r. }
  rewrite (contains_absent "path" "add to path" l eq_refl Hpath).
  destruct (contains "env" l) eqn:Henv.
  { now rewrite !orb_true_r. }
  rewrite (contains_absent "env" "environment variable" l eq_refl Henv).
  rewrite (contains_absent "env" "virtual environment" l eq_refl Henv).
  rewrite (contains_absent "env" "venv" l eq_refl Henv).
  cbn [orb]. rewrite !orb_false_r.
  destruct (contains "python" l); [reflexivity|]. cbn [orb].
  destruct (contains "pip" l) eqn:Hpip; [reflexivity|].
  rewrite (contains_absent "pip" "pip install" l eq_refl Hpip).
  now rewrite !orb_false_r.
Qed.

End ClassifierKeywords.

(** X14: of the keywords [_analyze_task] lists, five never decide anything:
    the classification of every task text is the one given by "path"/"env",
    then "python"/"pip", then "install"/"package", then the command
    keywords. A text mentioning "venv" or "virtual environment" is a path
    addition, and "pip install" never makes a package installation. *)
Theorem analyze_task_effective_keywords (task context : string) :
  TaskAutomation._analyze_task task context =
    let task_lower := lower task in
    if contains "path" task_lower || contains "env" task_lower
    then TaskAutomation.analysis "path_addition" (9 # 10)
    else if contains "python" task_lower || contains "pip" task_lower
    then TaskAutomation.analysis "python_setup" (8 # 10)
    else if contains "install" task_lower || contains "package" task_lower
    then TaskAutomation.analysis "package_installation" (8 # 10)
    else if any_in TaskAutomation.command_keywords task_lower
    then TaskAutomation.analysis "system_command" (7 # 10)
    else TaskAutomation.analysis "unknown" 0.
Proof. apply analyze_task_reduced. Qed.

(** ** The task executor *)

Section ExecutorMore.
Import TaskAutomation TaskSolve.
Context {W : Type} `{Host W}.

Lemma add_to_path_present (p q : string) (permanent : bool) (w w1 : W)
    (before after : string) :
  path_resolve p w = (inr q, w1) ->
  os_path_exists q w1 = true ->
  environ_get "PATH" w1 = Some (before +:+ q +:+ after) ->
  add_to_path p permanent w =
    (inr ({[ "success" := PyBool true;
             "message" := PyStr "Path already in PATH";
             "already_exists" := PyBool true ]} : gmap string pyval), w1).
Proof.
  intros Hres Hex Henv.
  unfold add_to_path, try_exceptM, mbind', mret', read.
  rewrite Hres. cbv beta iota. rewrite Hex. cbn [negb]. cbv beta iota.
  rewrite Henv. cbn [from_option id].
  assert (Hc : contains q (before +:+ q +:+ after) = true)
    by (apply contains_spec; eauto).
  now rewrite Hc.
Qed.

Lemma install_cases (exe pkg : string) (upgrade : bool) (w : W) :
  exists r w',
    install_python_package exe pkg upgrade w = (inr r, w') /\
    has_success r /\ r !! "task_solved" = None /\
    (r !! "success" = Some (PyBool true) <->
     exists result,
       subprocess_run (Argv (pip_command exe pkg upgrade)) false (Some 300) w
         = (inr result, w') /\ returncode result = 0) /\
    (forall msg, subprocess_run (Argv (pip_command exe pkg upgrade)) false (Some 300) w
                   = (inl (TimeoutExpired msg), w') ->
                 r = failure "Installation timed out").
Proof.
  unfold install_python_package, try_exceptM, mbind', mret'.
  destruct (subprocess_run _ false (Some 300) w) as [[e|result] w1] eqn:Hrun.
  - destruct (is_timeout e) eqn:Ht; eexists _, _; (split; [reflexivity|]);
      (split; [apply failure_has_success|]); (split; [reflexivity|]);
      (split; [split; [discriminate | intros (? & [=] & _)]|]).
    + intros msg _. reflexivity.
    + intros msg [= ->]. discriminate.
  - destruct (returncode result =? 0) eqn:Hrc; eexists _, _; (split; [reflexivity|]).
    + split; [apply succeeded_has_success|]. split; [reflexivity|].
      split; [|intros msg [=]]. split; [|reflexivity].
      intros _. exists result. split; [reflexivity | lia].
    + split; [apply failure_has_success|]. split; [reflexivity|].
      split; [|intros msg [=]]. split; [discriminate|].
      intros (result' & [= <- ] & Hz). lia.
Qed.

End ExecutorMore.

(** X15: [add_to_path] tests membership in [PATH] by substring. Whenever the
    resolved path exists and occurs anywhere inside the value of [PATH]
    (for instance as the beginning of a longer entry), the call reports
    "Path already in PATH" with [already_exists] set and writes nothing,
    whatever [permanent] is. *)
Theorem add_to_path_substring_counts_as_present {W : Type}
    `{TaskAutomation.Host W} (p q : string) (permanent : bool) (w w1 : W)
    (before after : string) :
  TaskAutomation.path_resolve p w = (inr q, w1) ->
  TaskAutomation.os_path_exists q w1 = true ->
  TaskAutomation.environ_get "PATH" w1 = Some (before +:+ q +:+ after) ->
  TaskAutomation.add_to_path p permanent w =
    (inr ({[ "success" := PyBool true;
             "message" := PyStr "Path already in PATH";
             "already_exists" := PyBool true ]} : gmap string pyval), w1).
Proof. apply add_to_path_present. Qed.

Lemma add_to_path_substring_counts_as_present_witness :
  ("/usr/local" ∉ ["/usr/local/bin"; "/usr/bin"]) /\
  TaskAutomation.add_to_path (H := DemoUnix.unix_host) "/usr/local" true
      DemoUnix.demo_machine =
    (inr ({[ "success" := PyBool true;
             "message" := PyStr "Path already in PATH";
             "already_exists" := PyBool true ]} : gmap string pyval),
     DemoUnix.demo_machine).
Proof.
  split.
  - intros Hin. repeat (apply elem_of_cons in Hin as [Hin|Hin]; [discriminate|]).
    inversion Hin.
  - apply (add_to_path_substring_counts_as_present (H := DemoUnix.unix_host)
             "/usr/local" "/usr/local" true DemoUnix.demo_machine DemoUnix.demo_machine
             "" "/bin:/usr/bin"); reflexivity.
Defined.

(** X16: [install_python_package] never raises and always answers with a
    [success] flag; the flag is true exactly when [pip] ran to completion
    with exit status 0, the world is the one [pip] left, and a timeout is
    reported as "Installation timed out". *)
Theorem install_python_package_outcomes {W : Type} `{TaskAutomation.Host W}
    (sys_executable package_name : string) (upgrade : bool) (w : W) :
  exists r w',
    TaskSolve.install_python_package sys_executable package_name upgrade w = (inr r, w') /\
    TaskAutomation.has_success r /\
    (r !! "success" = Some (PyBool true) <->
     exists result,
       TaskAutomation.subprocess_run
         (TaskAutomation.Argv (TaskSolve.pip_command sys_executable package_name upgrade))
         false (Some 300) w = (inr result, w') /\
       TaskAutomation.returncode result = 0) /\
    (forall msg,
       TaskAutomation.subprocess_run
         (TaskAutomation.Argv (TaskSolve.pip_command sys_executable package_name upgrade))
         false (Some 300) w = (inl (TimeoutExpired msg), w') ->
       r = TaskAutomation.failure "Installation timed out").
Proof.
  destruct (install_cases sys_executable package_name upgrade w)
    as (r & w' & Hrun & Hs & _ & Hiff & Ht).
  exists r, w'. auto.
Qed.

(** ** System information *)

Section StringOrder.

Lemma ascii_compare_refl (a : ascii) : Ascii.compare a a = Eq.
Proof. unfold Ascii.compare. apply N.compare_refl. Qed.

Lemma ascii_compare_lt_trans (a b c : ascii) :
  Ascii.compare a b = Lt -> Ascii.compare b c = Lt -> Ascii.compare a c = Lt.
Proof.
  unfold Ascii.compare. rewrite !N.compare_lt_iff. apply N.lt_trans.
Qed.

Lemma string_compare_refl (s : string) : String.compare s s = Eq.
Proof.
  induction s as [|a s IH]; [reflexivity|].
  cbn [String.compare]. now rewrite ascii_compare_refl.
Qed.

Lemma string_compare_lt_trans (a : string) : forall b c,
  String.compare a b = Lt -> String.compare b c = Lt -> String.compare a c = Lt.
Proof.
  induction a as [|x a IH]; intros [|y b] [|z c]; cbn [String.compare];
    try discriminate; try reflexivity.
  destruct (Ascii.compare x y) eqn:Hxy; try discriminate;
    destruct (Ascii.compare y z) eqn:Hyz; try discriminate; intros Hab Hbc.
  - apply Ascii.compare_eq_iff in Hxy as ->. rewrite Hyz. eauto.
  - apply Ascii.compare_eq_iff in Hxy as ->. now rewrite Hyz.
  - apply Ascii.compare_eq_iff in Hyz as <-. now rewrite Hxy.
  - now rewrite (ascii_compare_lt_trans x y z Hxy Hyz).
Qed.

Lemma ltb_irrefl (s : string) : String.ltb s s = false.
Proof. unfold String.ltb. now rewrite string_compare_refl. Qed.

Lemma ltb_trans (a b c : string) :
  String.ltb a b = true -> String.ltb b c = true -> String.ltb a c = true.
Proof.
  unfold String.ltb.
  destruct (String.compare a b) eqn:Hab; try discriminate.
  destruct (String.compare b c) eqn:Hbc; try discriminate.
  now rewrite (string_compare_lt_trans a b c Hab Hbc).
Qed.

End StringOrder.

Section SystemInfoFacts.
Import TaskAutomation TaskSolve.
Context {W : Type} `{Host W}.

Lemma environment_fold (w : W) (l : list string) : forall (m : gmap string string) var,
  fold_left
    (fun env_vars v =>
       let value := from_option id "" (environ_get v w) in
       if truthy value then <[v := value]> env_vars else env_vars) l m !! var =
  if bool_decide (var ∈ l) && truthy (from_option id "" (environ_get var w))
  then environ_get var w else m !! var.
Proof.
  induction l as [|x l IH]; intros m var; [reflexivity|].
  cbn [fold_left]. rewrite IH. cbv zeta.
  destruct (decide (var = x)) as [->|Hne].
  - rewrite (bool_decide_eq_true_2 (x ∈ x :: l)) by left.
    destruct (bool_decide (x ∈ l)); cbn [andb];
      destruct (environ_get x w) as [v|] eqn:E; cbn [from_option id];
      try reflexivity; destruct (truthy v) eqn:T; try reflexivity.
    now rewrite lookup_insert_eq.
  - assert (Hin : bool_decide (var ∈ x :: l) = bool_decide (var ∈ l)).
    { apply bool_decide_ext. rewrite elem_of_cons. tauto. }
    rewrite Hin. destruct (bool_decide (var ∈ l) && _); [reflexivity|].
    destruct (truthy (from_option id "" (environ_get x w))); [|reflexivity].
    now rewrite lookup_insert_ne.
Qed.

Lemma environment_lookup (w : W) (var value : string) :
  get_environment_variables w !! var = Some value <->
  var ∈ important_vars /\ environ_get var w = Some value /\ value <> "".
Proof.
  unfold get_environment_variables. rewrite environment_fold, lookup_empty.
  destruct (bool_decide (var ∈ important_vars)) eqn:Hin; cbn [andb].
  - apply bool_decide_eq_true in Hin.
    destruct (environ_get var w) as [v|] eqn:E; cbn [from_option id].
    + destruct v as [|c v]; cbn [truthy].
      * split; [discriminate | intros (_ & [= <-] & Hne); now elim Hne].
      * split; [intros [= <-]; repeat split; [exact Hin | discriminate]
               | now intros (_ & Heq & _)].
    + cbn [truthy]. split; [discriminate | now intros (_ & ? & _)].
  - apply bool_decide_eq_false in Hin. split; [discriminate | now intros (? & _)].
Qed.

(** What every entry of the interpreter list satisfies. *)
Lemma probe_entries (p : string) (w : W) :
  exists l w', probe p w = (inr l, w') /\
    Forall (fun i => path i = p /\ executable i = p) l.
Proof.
  unfold probe, try_exceptM, mbind', mret'.
  destruct (subprocess_run _ false (Some 5) w) as [[e|result] w1].
  - eexists _, _. split; [reflexivity | constructor].
  - destruct (returncode result =? 0); eexists _, _; (split; [reflexivity|]);
      repeat constructor.
Qed.

Lemma probe_all_entries (paths : list string) : forall (w : W),
  exists l w', probe_all paths w = (inr l, w') /\
    Forall (fun i => executable i = path i /\
                     contains "python" (lower (path i)) = true /\
                     path i ∈ paths) l.
Proof.
  induction paths as [|p paths IH]; intros w.
  - eexists _, _. split; [reflexivity | constructor].
  - cbn [probe_all]. unfold mbind', mret', read.
    destruct (os_path_isfile p w && contains "python" (lower p)) eqn:Hc.
    + destruct (probe_entries p w) as (found & w1 & -> & Hf).
      destruct (IH w1) as (more & w2 & -> & Hm).
      eexists _, _. split; [reflexivity|]. apply Forall_app. split.
      * eapply Forall_impl; [exact Hf|]. cbv beta. intros i [-> ->].
        apply andb_true_iff in Hc as [_ Hc]. repeat split; [exact Hc | left].
      * eapply Forall_impl; [exact Hm|]. cbv beta. intros i (? & ? & ?).
        repeat split; try assumption. now right.
    + destruct (IH w) as (more & w2 & -> & Hm).
      eexists _, _. split; [reflexivity|]. cbn [app].
      eapply Forall_impl; [exact Hm|]. cbv beta. intros i (? & ? & ?).
      repeat split; try assumption. now right.
Qed.

Lemma scan_pattern_entries (pattern : string) (w : W) :
  exists l w', scan_pattern pattern w = (inr l, w') /\
    Forall (fun i => executable i = path i /\
                     contains "python" (lower (path i)) = true) l.
Proof.
  unfold scan_pattern, try_exceptM, mbind', mret'.
  destruct (glob pattern w) as [[e|paths] w1].
  - eexists _, _. split; [reflexivity | constructor].
  - destruct (probe_all_entries paths w1) as (l & w2 & -> & Hl).
    eexists _, _. split; [reflexivity|].
    eapply Forall_impl; [exact Hl|]. cbv beta. tauto.
Qed.

Lemma scan_patterns_entries (patterns : list string) : forall (w : W),
  exists l w', scan_patterns patterns w = (inr l, w') /\
    Forall (fun i => executable i = path i /\
                     contains "python" (lower (path i)) = true) l.
Proof.
  induction patterns as [|pat patterns IH]; intros w.
  - eexists _, _. split; [reflexivity | constructor].
  - cbn [scan_patterns]. unfold mbind', mret'.
    destruct (scan_pattern_entries pat w) as (found & w1 & -> & Hf).
    destruct (IH w1) as (more & w2 & -> & Hm).
    eexists _, _. split; [reflexivity|]. apply Forall_app. now split.
Qed.

(** The loop over the interpreters keeps one whose version string no
    other exceeds. *)
Lemma better_fold (l : list installation) : forall (seen : list installation) best,
  Forall (fun i => contains "python" (lower (path i)) = true) (best :: l) ->
  best ∈ seen ->
  (forall i, i ∈ seen -> String.ltb (version best) (version i) = false) ->
  let chosen := fold_left better l best in
  chosen ∈ (seen ++ l)%list /\
  (forall i, i ∈ (seen ++ l)%list -> String.ltb (version chosen) (version i) = false).
Proof.
  induction l as [|py l IH]; intros seen best Hall Hin Hmax; cbn [fold_left].
  - rewrite app_nil_r. now split.
  - cbv zeta.
    apply Forall_cons in Hall as [Hb Hall]. apply Forall_cons in Hall as [Hp Hall].
    replace (seen ++ py :: l)%list with ((seen ++ [py]) ++ l)%list
      by now rewrite <- app_assoc.
    unfold better at 2 4. rewrite Hp, Hb. cbn [andb].
    destruct (String.ltb (version best) (version py)) eqn:Hlt.
    + apply IH.
      * now constructor.
      * apply elem_of_app. right. left.
      * intros i Hi. apply elem_of_app in Hi as [Hi|Hi].
        -- destruct (String.ltb (version py) (version i)) eqn:E; [|reflexivity].
           specialize (Hmax i Hi).
           now rewrite (ltb_trans _ _ _ Hlt E) in Hmax.
        -- apply list_elem_of_singleton in Hi as ->. apply ltb_irrefl.
    + apply IH.
      * now constructor.
      * apply elem_of_app. now left.
      * intros i Hi. apply elem_of_app in Hi as [Hi|Hi]; [now apply Hmax|].
        now apply list_elem_of_singleton in Hi as ->.
Qed.

End SystemInfoFacts.

(** X17: [get_environment_variables] reports a variable exactly when it is
    one of the eight important names and is set to a non-empty value, and it
    reports that value; unset and empty variables are left out. *)
Theorem get_environment_variables_lists_set_variables {W : Type}
    `{TaskAutomation.Host W} (w : W) (var value : string) :
  TaskSolve.get_environment_variables w !! var = Some value <->
  var ∈ TaskSolve.important_vars /\
  TaskAutomation.environ_get var w = Some value /\ value <> "".
Proof. apply environment_lookup. Qed.

(** X18: [get_python_installations] never raises, whatever [glob] and the
    interpreters do; every entry it reports names the same file as [path]
    and as [executable], and that path mentions "python" in some case. *)
Theorem get_python_installations_entries {W : Type} `{TaskAutomation.Host W} (w : W) :
  exists l w',
    TaskAutomation.get_python_installations w = (inr l, w') /\
    Forall (fun i => TaskAutomation.executable i = TaskAutomation.path i /\
                     contains "python" (lower (TaskAutomation.path i)) = true) l.
Proof. apply scan_patterns_entries. Qed.

(** X19: among interpreters whose paths mention "python" (which X18 shows
    of every reported one), the loop of [_solve_python_setup_task] chooses an
    entry of the list whose version string no other entry exceeds in the
    order of [str], which compares character by character: "Python 3.9.1"
    is preferred to "Python 3.10.0". *)
Theorem best_python_is_greatest_version_string
    (first : TaskAutomation.installation) (rest : list TaskAutomation.installation) :
  Forall (fun i => contains "python" (lower (TaskAutomation.path i)) = true)
         (first :: rest) ->
  let best := fold_left TaskAutomation.better (first :: rest) first in
  best ∈ first :: rest /\
  forall i, i ∈ first :: rest ->
            String.ltb (TaskAutomation.version best) (TaskAutomation.version i) = false.
Proof.
  intros Hall.
  assert (Hall' : Forall (fun i => contains "python" (lower (TaskAutomation.path i)) = true)
                         (first :: first :: rest)).
  { constructor; [now apply Forall_cons in Hall as [? _] | exact Hall]. }
  destruct (better_fold (first :: rest) [first] first Hall') as [Hin Hmax].
  - left.
  - intros i Hi. apply list_elem_of_singleton in Hi as ->. apply ltb_irrefl.
  - cbn [app] in Hin, Hmax. cbv zeta. split.
    + apply elem_of_cons in Hin as [->|Hin]; [left | exact Hin].
    + intros i Hi. apply Hmax. now right.
Qed.

Lemma best_python_is_greatest_version_string_witness :
  fold_left TaskAutomation.better DemoInterpreters.found DemoHostFacts.python39
    = DemoHostFacts.python39 /\
  (fold_left TaskAutomation.better DemoInterpreters.found DemoHostFacts.python39
     ∈ DemoInterpreters.found) /\
  forall i, i ∈ DemoInterpreters.found ->
    String.ltb
      (TaskAutomation.version
         (fold_left TaskAutomation.better DemoInterpreters.found DemoHostFacts.python39))
      (TaskAutomation.version i) = false.
Proof.
  split; [reflexivity|].
  apply (best_python_is_greatest_version_string
           DemoHostFacts.python39 [DemoInterpreters.python310]).
  repeat constructor.
Defined.

(** ** The task solver *)

Section SolverFacts.
Import TaskAutomation TaskSolve.
Context {W : Type} `{Host W}.

Lemma failure_executor msg : executor_result (failure msg).
Proof. split; [apply failure_has_success | reflexivity]. Qed.

Lemma succeeded_executor msg : executor_result (succeeded msg).
Proof. split; [apply succeeded_has_success | reflexivity]. Qed.

Lemma add_to_path_windows_executor p permanent (w : W) :
  exists d w', _add_to_path_windows p permanent w = (inr d, w') /\ executor_result d.
Proof.
  unfold _add_to_path_windows, try_exceptM, mbind', mret', read, write.
  destruct permanent.
  - destruct (subprocess_run _ true None w) as [[e|result] w1].
    + eexists _, _. split; [reflexivity | apply failure_executor].
    + destruct (returncode result =? 0); eexists _, _;
        (split; [reflexivity|]);
        [apply succeeded_executor | apply failure_executor].
  - eexists _, _. split; [reflexivity | apply succeeded_executor].
Qed.

Lemma add_to_path_unix_executor p permanent (w : W) :
  exists d w', _add_to_path_unix p permanent w = (inr d, w') /\ executor_result d.
Proof.
  unfold _add_to_path_unix, try_exceptM, mbind', mret', read, write.
  destruct permanent.
  - destruct (append_text _ _ w) as [[e|[]] w1]; eexists _, _;
      (split; [reflexivity|]);
      [apply failure_executor | apply succeeded_executor].
  - eexists _, _. split; [reflexivity | apply succeeded_executor].
Qed.

Lemma add_to_path_executor p permanent (w : W) :
  exists d w', add_to_path p permanent w = (inr d, w') /\ executor_result d.
Proof.
  unfold add_to_path, try_exceptM, mbind', mret', read.
  destruct (path_resolve p w) as [[e|p'] w1].
  { eexists _, _. split; [reflexivity | apply failure_executor]. }
  destruct (os_path_exists p' w1); simpl.
  2:{ eexists _, _. split; [reflexivity | apply failure_executor]. }
  destruct (contains p' _).
  { eexists _, _. split; [reflexivity|]. split; [exists true|]; reflexivity. }
  destruct is_windows.
  - destruct (add_to_path_windows_executor p' permanent w1) as (d & w' & -> & Hd).
    eexists _, _. split; [reflexivity | exact Hd].
  - destruct (add_to_path_unix_executor p' permanent w1) as (d & w' & -> & Hd).
    eexists _, _. split; [reflexivity | exact Hd].
Qed.

Lemma run_command_executor command shell timeout (w : W) :
  exists d w', run_command command shell timeout w = (inr d, w') /\ executor_result d.
Proof.
  unfold run_command, try_exceptM, mbind', mret'.
  destruct (subprocess_run _ shell (Some timeout) w) as [[e|result] w1].
  - destruct (is_timeout e); eexists _, _; (split; [reflexivity|]).
    + split; [exists false|]; reflexivity.
    + apply failure_executor.
  - eexists _, _. split; [reflexivity|]. split; [eexists|]; reflexivity.
Qed.

Lemma with_suggestions_consistent msg suggestions :
  consistent_result (with_suggestions msg suggestions).
Proof. split; [exists false; reflexivity | intros Hs; now elim Hs]. Qed.

Lemma failure_consistent msg : consistent_result (failure msg).
Proof. split; [apply failure_has_success | intros Hs; now elim Hs]. Qed.

(** The two assignments after a call of the executor. *)
Lemma finish_cases (r : gmap string pyval) (action : string) (w : W) :
  executor_result r ->
  exists r', finish r action w = (inr r', w) /\ consistent_result r' /\
    ((r !! "success" = Some (PyBool false) /\ r' = r) \/
     (r !! "success" = Some (PyBool true) /\ r' = mark_solved r action)).
Proof.
  intros [[b Hb] Hts]. unfold finish, success_of, getitem, mbind', mret', lift.
  rewrite Hb. cbn [bind ret truthy_val]. destruct b.
  - eexists. split; [reflexivity|]. split; [|right; now split].
    unfold mark_solved. split.
    + exists true. now rewrite !lookup_insert_ne, Hb by discriminate.
    + intros _. split.
      * now rewrite !lookup_insert_ne, Hb by discriminate.
      * exists action. now rewrite lookup_insert_eq.
  - eexists. split; [reflexivity|]. split; [|left; now split].
    split; [now exists false | intros Hs; now elim Hs].
Qed.

Lemma python_setup_consistent task context (w : W) :
  exists r w', _solve_python_setup_task task context w = (inr r, w') /\
               consistent_result r.
Proof.
  unfold _solve_python_setup_task, mbind', mret', lift, read.
  destruct (scan_patterns_entries common_paths w) as (l & w1 & Hl & _).
  unfold get_python_installations. rewrite Hl.
  destruct l as [|first rest].
  { eexists _, _. split; [reflexivity|].
    split; [exists false; reflexivity | intros Hs; now elim Hs]. }
  destruct (add_to_path_total
              (os_path_dirname (path (fold_left better (first :: rest) first)))
              true w1) as (path_result & w2 & Hadd & [b Hb]).
  rewrite Hadd.
  assert (Hget : getitem path_result "success" = inr (PyBool b))
    by (unfold getitem; now rewrite Hb).
  destruct (os_path_exists _ w2).
  - destruct (add_to_path_total
                (os_path_join
                   (os_path_dirname (path (fold_left better (first :: rest) first)))
                   "Scripts") true w2) as (sr & w3 & Hs & _).
    rewrite Hs, Hget. eexists _, _. split; [reflexivity|].
    split; [exists true; reflexivity|]. intros _. split; [reflexivity|].
    eexists. reflexivity.
  - rewrite Hget. eexists _, _. split; [reflexivity|].
    split; [exists true; reflexivity|]. intros _. split; [reflexivity|].
    eexists. reflexivity.
Qed.

(** Where a candidate path comes from: one of the two words after a
    trigger word, and it exists or has a colon in it. *)
Lemma path_candidates_origin (w : W) (words : list string) : forall c,
  c ∈ path_candidates w words ->
  exists i j trigger,
    words !! i = Some trigger /\
    lower trigger ∈ ["add"; "to"; "path"] /\
    words !! j = Some c /\ (i < j <= i + 2)%nat /\
    (os_path_exists c w = true \/ contains ":" c = true).
Proof.
  induction words as [|word rest IH]; intros c Hc; [inversion Hc|].
  cbn [path_candidates] in Hc. apply elem_of_app in Hc as [Hc|Hc].
  - destruct (bool_decide (lower word ∈ ["add"; "to"; "path"])) eqn:Ht;
      [|inversion Hc].
    apply bool_decide_eq_true in Ht.
    unfold candidates_after in Hc.
    apply list_elem_of_In, filter_In in Hc as [Hc Hp].
    apply list_elem_of_In, list_elem_of_lookup in Hc as [j Hj].
    apply lookup_take_Some in Hj as [Hj Hlt].
    exists 0%nat, (S j), word. repeat split; try assumption; try lia.
    unfold path_like in Hp. now apply orb_true_iff in Hp.
  - destruct (IH c Hc) as (i & j & trigger & Hi & Ht & Hj & Hij & Hp).
    exists (S i), (S j), trigger. repeat split; try assumption; lia.
Qed.

Lemma path_addition_cases task context (w : W) :
  exists r w', _solve_path_addition_task task context w = (inr r, w') /\
    consistent_result r /\
    ((path_candidates w (split task) = [] /\ w' = w /\
      r = with_suggestions "Could not identify path to add"
            ["Please specify the exact path you want to add to PATH"]) \/
     (exists c rest d,
        path_candidates w (split task) = c :: rest /\
        add_to_path c true w = (inr d, w') /\
        executor_result d /\
        ((d !! "success" = Some (PyBool false) /\ r = d) \/
         (d !! "success" = Some (PyBool true) /\
          r = mark_solved d ("Added " +:+ c +:+ " to system PATH"))))).
Proof.
  unfold _solve_path_addition_task, mbind', mret', read.
  destruct (path_candidates w (split task)) as [|c rest] eqn:Hc.
  - eexists _, _. split; [reflexivity|].
    split; [apply with_suggestions_consistent|]. left. now repeat split.
  - destruct (add_to_path_executor c true w) as (d & w1 & Hadd & Hd).
    rewrite Hadd.
    destruct (finish_cases d ("Added " +:+ c +:+ " to system PATH") w1 Hd)
      as (r & -> & Hr & Hcases).
    exists r, w1. split; [reflexivity|]. split; [exact Hr|]. right.
    exists c, rest, d. split; [reflexivity|]. split; [exact Hadd|].
    split; [exact Hd | exact Hcases].
Qed.

Section WithKnowledge.
Variable sys_executable : string.
Variable get_context_for_query : string -> Z -> M W string.

Lemma package_installation_consistent task context (w : W) :
  exists r w',
    _solve_package_installation_task sys_executable task context w = (inr r, w') /\
    consistent_result r.
Proof.
  unfold _solve_package_installation_task, mbind', mret'.
  destruct (package_candidates (split task)) as [|pkg rest].
  - eexists _, _. split; [reflexivity | apply with_suggestions_consistent].
  - destruct (install_cases sys_executable pkg false w)
      as (d & w1 & -> & Hs & Hts & _).
    destruct (finish_cases d ("Installed Python package: " +:+ pkg) w1
                (conj Hs Hts)) as (r & -> & Hr & _).
    now exists r, w1.
Qed.

Lemma system_command_consistent task context (w : W) :
  exists r w', _solve_system_command_task task context w = (inr r, w') /\
               consistent_result r.
Proof.
  unfold _solve_system_command_task, mbind', mret'.
  destruct (command_candidate (split task)) as [command|].
  - destruct (run_command_executor command true 30 w) as (d & w1 & -> & Hd).
    destruct (finish_cases d ("Executed command: " +:+ command) w1 Hd)
      as (r & -> & Hr & _).
    now exists r, w1.
  - eexists _, _. split; [reflexivity | apply with_suggestions_consistent].
Qed.

Lemma solve_task_consistent task (w : W) :
  exists r w', solve_task sys_executable get_context_for_query task w = (inr r, w') /\
               consistent_result r.
Proof.
  unfold solve_task, try_exceptM. unfold mbind' at 1.
  destruct (get_context_for_query task 5 w) as [[e|context] w1].
  { eexists _, _. split; [reflexivity | apply failure_consistent]. }
  unfold mbind' at 1, lift, task_type_of.
  rewrite analyze_task_reduced. cbv zeta.
  destruct (contains "path" (lower task) || contains "env" (lower task)).
  { change (getstr (analysis "path_addition" (9 # 10)) "task_type")
      with (@inr pyexc _ "path_addition"). cbv beta iota.
    change ("path_addition" =? "path_addition")%string with true. cbv iota.
    destruct (path_addition_cases task context w1) as (r & w2 & -> & Hr & _).
    now exists r, w2. }
  destruct (contains "python" (lower task) || contains "pip" (lower task)).
  { change (getstr (analysis "python_setup" (8 # 10)) "task_type")
      with (@inr pyexc _ "python_setup"). cbv beta iota.
    change ("python_setup" =? "path_addition")%string with false.
    change ("python_setup" =? "python_setup")%string with true. cbv iota.
    destruct (python_setup_consistent task context w1) as (r & w2 & -> & Hr).
    now exists r, w2. }
  destruct (contains "install" (lower task) || contains "package" (lower task)).
  { change (getstr (analysis "package_installation" (8 # 10)) "task_type")
      with (@inr pyexc _ "package_installation"). cbv beta iota.
    change ("package_installation" =? "path_addition")%string with false.
    change ("package_installation" =? "python_setup")%string with false.
    change ("package_installation" =? "package_installation")%string with true.
    cbv iota.
    destruct (package_installation_consistent task context w1) as (r & w2 & -> & Hr).
    now exists r, w2. }
  destruct (any_in command_keywords (lower task)).
  { change (getstr (analysis "system_command" (7 # 10)) "task_type")
      with (@inr pyexc _ "system_command"). cbv beta iota.
    change ("system_command" =? "path_addition")%string with false.
    change ("system_command" =? "python_setup")%string with false.
    change ("system_command" =? "package_installation")%string with false.
    change ("system_command" =? "system_command")%string with true.
    cbv iota.
    destruct (system_command_consistent task context w1) as (r & w2 & -> & Hr).
    now exists r, w2. }
  change (getstr (analysis "unknown" 0) "task_type") with (@inr pyexc _ "unknown").
  cbv beta iota.
  change ("unknown" =? "path_addition")%string with false.
  change ("unknown" =? "python_setup")%string with false.
  change ("unknown" =? "package_installation")%string with false.
  change ("unknown" =? "system_command")%string with false.
  cbv iota.
  eexists _, _. split; [reflexivity | apply with_suggestions_consistent].
Qed.
End WithKnowledge.

End SolverFacts.

(** X20: [solve_task] never raises, whatever the knowledge base, the host
    and the subprocesses do; its result always carries the [success] flag,
    and [task_solved] appears in it only together with [success = True] and
    the [action_taken]. *)
Theorem solve_task_results_consistent {W : Type} `{TaskAutomation.Host W}
    (sys_executable : string) (get_context_for_query : string -> Z -> M W string)
    (task_description : string) (w : W) :
  exists r w',
    TaskSolve.solve_task sys_executable get_context_for_query task_description w
      = (inr r, w') /\
    TaskSolve.consistent_result r.
Proof. apply solve_task_consistent. Qed.

(** X21: [_solve_path_addition_task] never raises. Either it finds no
    candidate, changes nothing and asks for the path; or the one path it
    hands to [add_to_path] is a word of the request that stands one or two
    places after "add", "to" or "path" and that exists or has a colon in it,
    and the answer is the executor's, marked solved when it succeeded. *)
Theorem path_addition_adds_only_a_named_word {W : Type} `{TaskAutomation.Host W}
    (task_description context : string) (w : W) :
  exists r w',
    TaskSolve._solve_path_addition_task task_description context w = (inr r, w') /\
    ((w' = w /\
      r = TaskSolve.with_suggestions "Could not identify path to add"
            ["Please specify the exact path you want to add to PATH"]) \/
     (exists i j trigger c d,
        split task_description !! i = Some trigger /\
        lower trigger ∈ ["add"; "to"; "path"] /\
        split task_description !! j = Some c /\ (i < j <= i + 2)%nat /\
        (TaskAutomation.os_path_exists c w = true \/ contains ":" c = true) /\
        TaskAutomation.add_to_path c true w = (inr d, w') /\
        ((d !! "success" = Some (PyBool false) /\ r = d) \/
         (d !! "success" = Some (PyBool true) /\
          r = TaskSolve.mark_solved d ("Added " +:+ c +:+ " to system PATH"))))).
Proof.
  destruct (path_addition_cases task_description context w)
    as (r & w' & Hrun & _ & [(_ & -> & ->)|(c & rest & d & Hc & Hadd & _ & Hr)]).
  - eexists _, w. split; [exact Hrun|]. left. now split.
  - exists r, w'. split; [exact Hrun|]. right.
    destruct (path_candidates_origin w (split task_description) c)
      as (i & j & trigger & Hi & Ht & Hj & Hij & Hp).
    { rewrite Hc. left. }
    exists i, j, trigger, c, d. now repeat split.
Qed.

(** ** The conversation orchestrator *)

Section OrchestratorFacts.
Import EnhancedChat EnhancedChatMore.
Context {S : Type} `{Collaborators S}.

Lemma outer_context {A} (m : M S A) (w : World S) :
  context (outer m w).2 = context w.
Proof. unfold outer. now destruct (m (outside w)). Qed.

Lemma handle_task_request_cases (user_message : string) (w : World S) :
  exists reply w',
    _handle_task_request user_message w = (inr reply, w') /\
    current_topic (context w') = current_topic (context w) /\
    (completed_tasks (context w') = completed_tasks (context w) \/
     exists solve_task result s',
       task_solver = Some solve_task /\
       solve_task user_message (outside w) = (inr result, s') /\
       truthy_get result "success" = true /\
       reply = success_report result /\
       completed_tasks (context w') =
         (completed_tasks (context w) ++ [(user_message, result, now_iso s')])%list).
Proof.
  unfold _handle_task_request.
  destruct task_solver as [solve_task|] eqn:Hsolver.
  2:{ eexists _, _. split; [reflexivity|]. split; [reflexivity | now left]. }
  unfold try_exceptM, mbind', mret', outer, record_task.
  destruct (solve_task user_message (outside w)) as [[e|result] s'] eqn:Hrun.
  - eexists _, _. split; [reflexivity|]. split; [reflexivity | now left].
  - destruct (truthy_get result "success") eqn:Hs.
    + eexists _, _. split; [reflexivity|]. split; [reflexivity|]. right.
      exists solve_task, result, s'. now repeat split.
    + eexists _, _. split; [reflexivity|]. split; [reflexivity | now left].
Qed.

Lemma answer_path_cases (user_message : string) (w : World S) :
  _is_task_request user_message = false ->
  exists reply w',
    get_enhanced_response user_message w = (inr reply, w') /\
    context w' = context w /\
    match fetch_context user_message w with
    | (inl e, w1) =>
        w' = w1 /\
        reply = "I encountered an error while processing your request: "
                  +:+ str_of_exc e
    | (inr context_, w1) =>
        match outer (stream_chat
                       [ {| Chat.role := "user";
                            Chat.content :=
                              _create_enhanced_prompt (current_topic (context w1))
                                user_message context_ |} ]
                       1024 (7 # 10)) w1 with
        | (inl e, w2) =>
            w' = w2 /\
            reply = "I encountered an error while processing your request: "
                      +:+ str_of_exc e
        | (inr parts, w2) =>
            w' = w2 /\
            reply = if knowledge_base_enabled
                       && contains "knowledge base" (lower (join "" parts))
                    then join "" parts +:+ kb_note
                    else join "" parts
        end
    end.
Proof.
  intros Hno. unfold get_enhanced_response, try_exceptM. rewrite Hno.
  unfold mbind' at 1.
  assert (Hctx : forall w0 r w1, fetch_context user_message w0 = (r, w1) ->
                                 context w1 = context w0).
  { intros w0 r w1. unfold fetch_context.
    destruct rag_system as [q|].
    - intros Hq. pose proof (outer_context (q user_message 3) w0) as Hc.
      now rewrite Hq in Hc.
    - now intros [= _ <-]. }
  destruct (fetch_context user_message w) as [[e|context_] w1] eqn:Hf;
    specialize (Hctx _ _ _ Hf).
  { eexists _, _. split; [reflexivity|]. split; [exact Hctx|]. now split. }
  unfold mbind', mret'.
  match goal with
  | |- context [outer ?m w1] =>
      pose proof (outer_context m w1) as Hout; destruct (outer m w1) as [[e|parts] w2]
  end; cbn [snd] in Hout.
  { eexists _, _. split; [reflexivity|]. split; [congruence|]. now split. }
  eexists _, _. split; [reflexivity|]. split; [congruence|].
  split; [reflexivity|]. apply (answer_path_post_process _ _ Hno).
Qed.

Lemma enhanced_response_cases (user_message : string) (w : World S) :
  exists reply w',
    get_enhanced_response user_message w = (inr reply, w') /\
    current_topic (context w') = current_topic (context w) /\
    (completed_tasks (context w') = completed_tasks (context w) \/
     exists solve_task result s',
       _is_task_request user_message = true /\
       task_solver = Some solve_task /\
       solve_task user_message (outside w) = (inr result, s') /\
       truthy_get result "success" = true /\
       reply = success_report result /\
       completed_tasks (context w') =
         (completed_tasks (context w) ++ [(user_message, result, now_iso s')])%list).
Proof.
  destruct (_is_task_request user_message) eqn:Htask.
  - destruct (handle_task_request_cases user_message w)
      as (reply & w' & Hrun & Htopic & Hlog).
    exists reply, w'. split.
    + unfold get_enhanced_response, try_exceptM. now rewrite Htask, Hrun.
    + split; [exact Htopic|]. destruct Hlog as [Hlog|(f & result & s' & ? & ? & ? & ? & ?)];
        [now left | right]. exists f, result, s'. now repeat split.
  - destruct (answer_path_cases user_message w Htask) as (reply & w' & Hrun & Hctx & _).
    exists reply, w'. split; [exact Hrun|]. rewrite Hctx. split; [reflexivity | now left].
Qed.

Lemma stream_after_last (messages : list Chat.message) (m : Chat.message)
    (w : World S) :
  last messages = Some m ->
  exists reply w',
    get_enhanced_response (Chat.content m) w = (inr reply, w') /\
    stream_enhanced_chat messages w =
      (inr (reply, Chat.add_assistant messages reply), w').
Proof.
  intros Hlast. unfold stream_enhanced_chat. rewrite Hlast.
  destruct (enhanced_response_cases (Chat.content m) w) as (reply & w' & Hrun & _).
  exists reply, w'. split; [exact Hrun|].
  unfold mbind', mret'. now rewrite Hrun.
Qed.

End OrchestratorFacts.

(** X22: [get_enhanced_response] never raises and never changes the
    conversation topic. It logs at most one completed task per call, and only
    when the message is a task request, a task solver is configured and the
    solver's result has a true [success]: the logged entry is then the
    message, that result and the time, and the reply is the success report. *)
Theorem enhanced_response_logs_only_successful_tasks {S : Type}
    `{EnhancedChat.Collaborators S} (user_message : string) (w : EnhancedChat.World S) :
  exists reply w',
    EnhancedChat.get_enhanced_response user_message w = (inr reply, w') /\
    EnhancedChat.current_topic (EnhancedChat.context w')
      = EnhancedChat.current_topic (EnhancedChat.context w) /\
    (EnhancedChat.completed_tasks (EnhancedChat.context w')
       = EnhancedChat.completed_tasks (EnhancedChat.context w) \/
     exists solve_task result s',
       EnhancedChat._is_task_request user_message = true /\
       EnhancedChat.task_solver = Some solve_task /\
       solve_task user_message (EnhancedChat.outside w) = (inr result, s') /\
       EnhancedChat.truthy_get result "success" = true /\
       reply = EnhancedChat.success_report result /\
       EnhancedChat.completed_tasks (EnhancedChat.context w') =
         (EnhancedChat.completed_tasks (EnhancedChat.context w)
            ++ [(user_message, result, EnhancedChat.now_iso s')])%list).
Proof. apply enhanced_response_cases. Qed.

(** X23: for a message that is not a task request, [get_enhanced_response]
    leaves the conversation context as it was, and its reply is determined by
    what the knowledge base and the model did: the error sentence when either
    raised; otherwise the pieces the model returned for the enhanced prompt,
    joined, followed by the knowledge base note when a knowledge base is
    configured and the joined text mentions it, and by nothing else: the task
    automation hint of [_post_process_response] is never appended. *)
Theorem answer_never_carries_task_hint {S : Type}
    `{EnhancedChat.Collaborators S} (user_message : string) (w : EnhancedChat.World S) :
  EnhancedChat._is_task_request user_message = false ->
  exists reply w',
    EnhancedChat.get_enhanced_response user_message w = (inr reply, w') /\
    EnhancedChat.context w' = EnhancedChat.context w /\
    match EnhancedChat.fetch_context user_message w with
    | (inl e, w1) =>
        w' = w1 /\
        reply = "I encountered an error while processing your request: "
                  +:+ str_of_exc e
    | (inr context_, w1) =>
        match EnhancedChat.outer
                (EnhancedChat.stream_chat
                   [ {| Chat.role := "user";
                        Chat.content :=
                          EnhancedChat._create_enhanced_prompt
                            (EnhancedChat.current_topic (EnhancedChat.context w1))
                            user_message context_ |} ]
                   1024 (7 # 10)) w1 with
        | (inl e, w2) =>
            w' = w2 /\
            reply = "I encountered an error while processing your request: "
                      +:+ str_of_exc e
        | (inr parts, w2) =>
            w' = w2 /\
            reply = if EnhancedChat.knowledge_base_enabled
                       && contains "knowledge base" (lower (join "" parts))
                    then join "" parts +:+ EnhancedChat.kb_note
                    else join "" parts
        end
    end.
Proof. apply answer_path_cases. Qed.

Lemma answer_never_carries_task_hint_witness :
  exists reply w',
    EnhancedChat.get_enhanced_response "what is rust?" DemoChat.fresh_session
      = (inr reply, w') /\
    EnhancedChat.context w' = EnhancedChat.context DemoChat.fresh_session /\
    match EnhancedChat.fetch_context "what is rust?" DemoChat.fresh_session with
    | (inl e, w1) =>
        w' = w1 /\
        reply = "I encountered an error while processing your request: "
                  +:+ str_of_exc e
    | (inr context_, w1) =>
        match EnhancedChat.outer
                (EnhancedChat.stream_chat
                   [ {| Chat.role := "user";
                        Chat.content :=
                          EnhancedChat._create_enhanced_prompt
                            (EnhancedChat.current_topic (EnhancedChat.context w1))
                            "what is rust?" context_ |} ]
                   1024 (7 # 10)) w1 with
        | (inl e, w2) =>
            w' = w2 /\
            reply = "I encountered an error while processing your request: "
                      +:+ str_of_exc e
        | (inr parts, w2) =>
            w' = w2 /\
            reply = if EnhancedChat.knowledge_base_enabled
                       && contains "knowledge base" (lower (join "" parts))
                    then join "" parts +:+ EnhancedChat.kb_note
                    else join "" parts
        end
    end.
Proof.
  apply (answer_never_carries_task_hint "what is rust?" DemoChat.fresh_session).
  reflexivity.
Defined.

(** X24: one turn of the enhanced chat. After [add_user(content)],
    [stream_enhanced_chat] answers the message just added with the reply of
    [get_enhanced_response], never raises, and leaves the session with
    exactly two more messages: the user's and the assistant's reply, in
    that order. On a session without messages it returns the empty string
    and changes nothing. *)
Theorem chat_turn_appends_user_and_reply {S : Type}
    `{EnhancedChat.Collaborators S} (messages : list Chat.message) (content : string)
    (w : EnhancedChat.World S) :
  EnhancedChatMore.stream_enhanced_chat [] w = (inr ("", []), w) /\
  exists w1 reply w2,
    EnhancedChatMore.add_user messages content w
      = (inr (Chat.add_user messages content), w1) /\
    EnhancedChat.outside w1 = EnhancedChat.outside w /\
    EnhancedChat.get_enhanced_response content w1 = (inr reply, w2) /\
    EnhancedChatMore.stream_enhanced_chat (Chat.add_user messages content) w1 =
      (inr (reply,
            (messages ++ [ {| Chat.role := "user"; Chat.content := content |};
                           {| Chat.role := "assistant"; Chat.content := reply |} ])%list),
       w2).
Proof.
  split; [reflexivity|].
  eexists. destruct (stream_after_last (Chat.add_user messages content)
                       {| Chat.role := "user"; Chat.content := content |}
                       {| EnhancedChat.context :=
                            EnhancedChatMore._analyze_user_message content
                              (EnhancedChat.context w);
                          EnhancedChat.outside := EnhancedChat.outside w |})
    as (reply & w2 & Hrun & Hstream).
  { apply last_snoc. }
  exists reply, w2. split; [reflexivity|]. split; [reflexivity|].
  split; [exact Hrun|]. rewrite Hstream.
  unfold Chat.add_assistant, Chat.add_user. now rewrite <- app_assoc.
Qed.

Section SessionLogFacts.
Import Chat ChatLog.

Lemma session_log_visible msgs :
  session_log msgs -> List.filter visible msgs = msgs.
Proof.
  induction 1 as [|msgs content _ IH|msgs content _ IH]; [reflexivity| |];
    unfold add_user, add_assistant; rewrite List.filter_app, IH; reflexivity.
Qed.

Lemma session_log_roles msgs :
  session_log msgs ->
  Forall (fun m => role m = "user" \/ role m = "assistant") msgs.
Proof.
  induction 1 as [|msgs content _ IH|msgs content _ IH]; [constructor| |];
    apply Forall_app; (split; [exact IH|]);
    (constructor; [cbn [role]; auto | constructor]).
Qed.

End SessionLogFacts.

(** X25: a conversation built with [add_user] and [add_assistant] holds only
    the roles [user] and [assistant], so after [save] the desktop loader
    shows every one of its messages again, content and role, in the same
    order, under either line end convention. *)
Theorem session_transcript_is_shown_completely (sep : Chat.linesep)
    (messages : list Chat.message) :
  ChatLog.session_log messages ->
  Forall (fun m => Chat.role m = "user" \/ Chat.role m = "assistant") messages /\
  Chat.load_conversation (Chat.save sep messages)
    = Some (map (fun m => (Chat.content m, Chat.role m)) messages).
Proof.
  intros Hlog. split; [now apply session_log_roles|].
  now rewrite load_saved, session_log_visible.
Qed.

Lemma session_transcript_is_shown_completely_witness :
  Chat.load_conversation
    (Chat.save Chat.WindowsNewline
       (Chat.add_assistant (Chat.add_user [] "hi") "hello"))
  = Some [("hi", "user"); ("hello", "assistant")].
Proof.
  apply (session_transcript_is_shown_completely Chat.WindowsNewline
           (Chat.add_assistant (Chat.add_user [] "hi") "hello")).
  repeat constructor.
Defined.

(** ** What the resolvers take from the request *)

Section RequestWords.
Import TaskAutomation TaskSolve.

Lemma command_candidate_origin (words : list string) : forall command,
  command_candidate words = Some command ->
  exists i trigger,
    words !! i = Some trigger /\
    lower trigger ∈ ["run"; "execute"; "command"] /\
    (forall k word, (k < i)%nat -> words !! k = Some word ->
                    lower word ∉ ["run"; "execute"; "command"]) /\
    drop (S i) words <> [] /\
    command = join " " (drop (S i) words).
Proof.
  induction words as [|word rest IH]; intros command Hc; [discriminate|].
  cbn [command_candidate] in Hc. destruct rest as [|next rest']; [discriminate|].
  destruct (bool_decide (lower word ∈ ["run"; "execute"; "command"])) eqn:Ht.
  - apply bool_decide_eq_true in Ht. injection Hc as <-.
    exists 0%nat, word. split; [reflexivity|]. split; [exact Ht|].
    split; [intros k ? Hk; lia|]. split; [discriminate | reflexivity].
  - apply bool_decide_eq_false in Ht.
    destruct (IH command Hc) as (i & trigger & Hi & Htr & Hfirst & Hne & ->).
    exists (S i), trigger. split; [exact Hi|]. split; [exact Htr|].
    split; [|split; [exact Hne | reflexivity]].
    intros [|k] word' Hk Hw.
    + now injection Hw as <-.
    + apply (Hfirst k); [lia | exact Hw].
Qed.

Lemma package_candidates_origin (words : list string) : forall package_name others,
  package_candidates words = package_name :: others ->
  exists i trigger,
    words !! i = Some trigger /\
    lower trigger ∈ ["install"; "pip"] /\
    (forall k word, (k < i)%nat -> words !! k = Some word ->
                    lower word ∉ ["install"; "pip"]) /\
    words !! (S i) = Some package_name.
Proof.
  induction words as [|word rest IH]; intros pkg others Hc; [discriminate|].
  cbn [package_candidates] in Hc. destruct rest as [|next rest']; [discriminate|].
  destruct (bool_decide (lower word ∈ ["install"; "pip"; "install"])) eqn:Ht.
  - apply bool_decide_eq_true in Ht. injection Hc as <- _.
    exists 0%nat, word. split; [reflexivity|]. split.
    { repeat (apply elem_of_cons in Ht as [->|Ht]; [set_solver|]). inversion Ht. }
    split; [intros k ? Hk; lia | reflexivity].
  - apply bool_decide_eq_false in Ht.
    destruct (IH pkg others Hc) as (i & trigger & Hi & Htr & Hfirst & Hp).
    exists (S i), trigger. split; [exact Hi|]. split; [exact Htr|].
    split; [|exact Hp].
    intros [|k] word' Hk Hw.
    + injection Hw as <-. intros Hin. apply Ht. set_solver.
    + apply (Hfirst k); [lia | exact Hw].
Qed.

Lemma command_candidate_none (words : list string) :
  command_candidate words = None ->
  forall k word, words !! k = Some word -> (S k < List.length words)%nat ->
                 lower word ∉ ["run"; "execute"; "command"].
Proof.
  induction words as [|word rest IH]; intros Hc k word' Hk Hlt; [discriminate|].
  cbn [command_candidate] in Hc. destruct rest as [|next rest'].
  { cbn in Hlt. lia. }
  destruct (bool_decide (lower word ∈ ["run"; "execute"; "command"])) eqn:Ht;
    [discriminate|].
  apply bool_decide_eq_false in Ht. destruct k as [|k].
  - now injection Hk as <-.
  - apply (IH Hc k); [exact Hk | cbn [List.length] in *; lia].
Qed.

Lemma package_candidates_nil (words : list string) :
  package_candidates words = [] ->
  forall k word, words !! k = Some word -> (S k < List.length words)%nat ->
                 lower word ∉ ["install"; "pip"].
Proof.
  induction words as [|word rest IH]; intros Hc k word' Hk Hlt; [discriminate|].
  cbn [package_candidates] in Hc. destruct rest as [|next rest'].
  { cbn in Hlt. lia. }
  destruct (bool_decide (lower word ∈ ["install"; "pip"; "install"])) eqn:Ht;
    [discriminate|].
  apply bool_decide_eq_false in Ht. destruct k as [|k].
  - injection Hk as <-. intros Hin. apply Ht. set_solver.
  - apply (IH Hc k); [exact Hk | cbn [List.length] in *; lia].
Qed.

Context {W : Type} `{Host W}.

Lemma system_command_cases task context (w : W) :
  exists r w',
    _solve_system_command_task task context w = (inr r, w') /\
    ((w' = w /\
      r = with_suggestions "Could not identify command to run"
            ["Please specify the command to execute"; "Example: run dir"] /\
      (forall k word, split task !! k = Some word ->
                      (S k < List.length (split task))%nat ->
                      lower word ∉ ["run"; "execute"; "command"])) \/
     (exists i trigger d,
        split task !! i = Some trigger /\
        lower trigger ∈ ["run"; "execute"; "command"] /\
        (forall k word, (k < i)%nat -> split task !! k = Some word ->
                        lower word ∉ ["run"; "execute"; "command"]) /\
        drop (S i) (split task) <> [] /\
        run_command (join " " (drop (S i) (split task))) true 30 w = (inr d, w') /\
        ((d !! "success" = Some (PyBool false) /\ r = d) \/
         (d !! "success" = Some (PyBool true) /\
          r = mark_solved d ("Executed command: "
                             +:+ join " " (drop (S i) (split task))))))).
Proof.
  unfold _solve_system_command_task, mbind', mret'.
  destruct (command_candidate (split task)) as [command|] eqn:Hc.
  - destruct (command_candidate_origin _ _ Hc)
      as (i & trigger & Hi & Ht & Hfirst & Hne & ->).
    destruct (run_command_executor (join " " (drop (S i) (split task))) true 30 w)
      as (d & w1 & Hrun & Hd).
    rewrite Hrun.
    destruct (finish_cases d ("Executed command: "
                              +:+ join " " (drop (S i) (split task))) w1 Hd)
      as (r & -> & _ & Hcases).
    exists r, w1. split; [reflexivity|]. right.
    exists i, trigger, d. now repeat (split; [assumption|]).
  - eexists _, _. split; [reflexivity|]. left.
    split; [reflexivity|]. split; [reflexivity|]. now apply command_candidate_none.
Qed.

Lemma package_installation_cases sys_executable task context (w : W) :
  exists r w',
    _solve_package_installation_task sys_executable task context w = (inr r, w') /\
    ((w' = w /\
      r = with_suggestions "Could not identify package to install"
            ["Please specify the package name"; "Example: install numpy"] /\
      (forall k word, split task !! k = Some word ->
                      (S k < List.length (split task))%nat ->
                      lower word ∉ ["install"; "pip"])) \/
     (exists i trigger package_name d,
        split task !! i = Some trigger /\
        lower trigger ∈ ["install"; "pip"] /\
        (forall k word, (k < i)%nat -> split task !! k = Some word ->
                        lower word ∉ ["install"; "pip"]) /\
        split task !! (S i) = Some package_name /\
        install_python_package sys_executable package_name false w = (inr d, w') /\
        ((d !! "success" = Some (PyBool false) /\ r = d) \/
         (d !! "success" = Some (PyBool true) /\
          r = mark_solved d ("Installed Python package: " +:+ package_name))))).
Proof.
  unfold _solve_package_installation_task, mbind', mret'.
  destruct (package_candidates (split task)) as [|pkg others] eqn:Hc.
  - eexists _, _. split; [reflexivity|]. left.
    split; [reflexivity|]. split; [reflexivity|]. now apply package_candidates_nil.
  - destruct (package_candidates_origin _ _ _ Hc)
      as (i & trigger & Hi & Ht & Hfirst & Hp).
    destruct (install_cases sys_executable pkg false w)
      as (d & w1 & Hrun & Hs & Hts & _).
    rewrite Hrun.
    destruct (finish_cases d ("Installed Python package: " +:+ pkg) w1 (conj Hs Hts))
      as (r & -> & _ & Hcases).
    exists r, w1. split; [reflexivity|]. right.
    exists i, trigger, pkg, d. now repeat (split; [assumption|]).
Qed.

End RequestWords.

(** X26: [_solve_system_command_task] never raises. When no word of the
    request other than the last is "run", "execute" or "command" (in any
    case) it runs nothing and asks for the command. Otherwise the command
    it passes to [run_command] (with the shell, 30 seconds) is everything
    after the first such word, the words joined by single blanks, so the
    spacing of the request is not kept; the answer is the executor's,
    marked solved when it succeeded. *)
Theorem system_command_is_rest_of_request {W : Type} `{TaskAutomation.Host W}
    (task_description context : string) (w : W) :
  exists r w',
    TaskSolve._solve_system_command_task task_description context w = (inr r, w') /\
    ((w' = w /\
      r = TaskSolve.with_suggestions "Could not identify command to run"
            ["Please specify the command to execute"; "Example: run dir"] /\
      (forall k word, split task_description !! k = Some word ->
                      (S k < List.length (split task_description))%nat ->
                      lower word ∉ ["run"; "execute"; "command"])) \/
     (exists i trigger d,
        split task_description !! i = Some trigger /\
        lower trigger ∈ ["run"; "execute"; "command"] /\
        (forall k word, (k < i)%nat -> split task_description !! k = Some word ->
                        lower word ∉ ["run"; "execute"; "command"]) /\
        drop (S i) (split task_description) <> [] /\
        TaskAutomation.run_command
          (join " " (drop (S i) (split task_description))) true 30 w = (inr d, w') /\
        ((d !! "success" = Some (PyBool false) /\ r = d) \/
         (d !! "success" = Some (PyBool true) /\
          r = TaskSolve.mark_solved d
                ("Executed command: "
                 +:+ join " " (drop (S i) (split task_description))))))).
Proof. apply system_command_cases. Qed.

(** The spacing of a request is lost on the way to the shell. *)
Example system_command_spacing :
  TaskSolve._solve_system_command_task (H := DemoUnix.unix_host)
    "please RUN  echo   a    b" "" DemoUnix.demo_machine
  = TaskAutomation.run_command (H := DemoUnix.unix_host) "echo a b" true 30
      DemoUnix.demo_machine.
Proof. reflexivity. Qed.

(** X27: [_solve_package_installation_task] never raises. When no word of
    the request other than the last is "install" or "pip" (in any case) it
    installs nothing and asks for the package. Otherwise the package it
    passes to [install_python_package] (without upgrade) is the word right
    after the first such word, whatever that word is; the answer is the
    executor's, marked solved when it succeeded. *)
Theorem installed_package_is_next_word {W : Type} `{TaskAutomation.Host W}
    (sys_executable task_description context : string) (w : W) :
  exists r w',
    TaskSolve._solve_package_installation_task sys_executable task_description context w
      = (inr r, w') /\
    ((w' = w /\
      r = TaskSolve.with_suggestions "Could not identify package to install"
            ["Please specify the package name"; "Example: install numpy"] /\
      (forall k word, split task_description !! k = Some word ->
                      (S k < List.length (split task_description))%nat ->
                      lower word ∉ ["install"; "pip"])) \/
     (exists i trigger package_name d,
        split task_description !! i = Some trigger /\
        lower trigger ∈ ["install"; "pip"] /\
        (forall k word, (k < i)%nat -> split task_description !! k = Some word ->
                        lower word ∉ ["install"; "pip"]) /\
        split task_description !! (S i) = Some package_name /\
        TaskSolve.install_python_package sys_executable package_name false w
          = (inr d, w') /\
        ((d !! "success" = Some (PyBool false) /\ r = d) \/
         (d !! "success" = Some (PyBool true) /\
          r = TaskSolve.mark_solved d
                ("Installed Python package: " +:+ package_name))))).
Proof. apply package_installation_cases. Qed.

(** A request that names the package after an article installs the article. *)
Example installs_the_next_word :
  TaskSolve._solve_package_installation_task (H := DemoUnix.unix_host)
    "/usr/bin/python3" "Install the numpy package" "" DemoUnix.demo_machine
  = TaskSolve.install_python_package (H := DemoUnix.unix_host)
      "/usr/bin/python3" "the" false DemoUnix.demo_machine.
Proof. reflexivity. Qed.
